(** * piccheck: the SELEKT photo-session worker (worker/worker.js)

    A shallow embedding of the Cloudflare worker and of the R2 bucket it
    reads and writes, and the properties of its four operations
    (create a session, read a session, upload a photo, fetch a photo or a
    thumbnail).

    Layout:
    - [Js]: the values the worker computes with (JSON documents, property
      access, truthiness, number coercions, [parseInt]);
    - [Platform]: the runtime built-ins that are not code of the repository
      ([JSON.parse], [JSON.stringify], [Date], [atob], [decodeURIComponent]),
      as an interface with the one law the worker relies on;
    - [Worker]: the request handler, route by route, in a state-and-exception
      monad over the bucket;
    - [Ref]: an executable instance of the interface, used to run the
      handler on concrete requests;
    - the theorems. *)

From Stdlib Require Import ZArith String Ascii List Bool Lia.
From Stdlib Require Import DecimalString DecimalZ.
From stdpp Require Import base option gmap strings.

Local Open Scope string_scope.
Local Open Scope Z_scope.

(** stdpp keeps [simpl] from unfolding the append of strings; the proofs
    below compute with keys and texts, so it is allowed again. *)
#[local] Arguments String.append !s1 s2 : simpl nomatch.

(** ** Outcomes of a computation that may throw *)

(** [Throw msg] is a JavaScript exception whose [message] is [msg]. *)
Inductive result (A : Type) : Type :=
| Ok (a : A)
| Throw (msg : string).
Arguments Ok {A} a.
Arguments Throw {A} msg.

(** ** JavaScript values *)

Module Js.

(** A JSON document.  Numbers are integers (counts, sizes and time values
    in milliseconds), and their arithmetic is exact.  The worker's numbers
    are doubles: they hold every integer up to 2^53 in magnitude, and on
    those the two agree.  A document with a fraction, or with a larger
    number, is outside the embedding.  An object lists its properties in
    property order.  The JavaScript value
    [undefined] is [None : option json]. *)
#[warnings="-register-all"]
Inductive json : Type :=
| JNull
| JBool (b : bool)
| JNum (n : Z)
| JStr (s : string)
| JArr (items : list json)
| JObj (fields : list (string * json)).

(** The default induction scheme gives nothing for the documents nested
    in an array or an object; this one does. *)
Fixpoint json_ind' (P : json → Prop)
    (HNull : P JNull) (HBool : ∀ b, P (JBool b)) (HNum : ∀ n, P (JNum n))
    (HStr : ∀ s, P (JStr s))
    (HArr : ∀ l, Forall P l → P (JArr l))
    (HObj : ∀ fs, Forall (λ kv, P kv.2) fs → P (JObj fs))
    (v : json) {struct v} : P v :=
  let rec := json_ind' P HNull HBool HNum HStr HArr HObj in
  match v with
  | JNull => HNull
  | JBool b => HBool b
  | JNum n => HNum n
  | JStr s => HStr s
  | JArr l =>
      HArr l ((fix go (l : list json) : Forall P l :=
                 match l with
                 | [] => Forall_nil_2 P
                 | x :: r => Forall_cons_2 P x r (rec x) (go r)
                 end) l)
  | JObj fs =>
      HObj fs ((fix go (fs : list (string * json)) : Forall (λ kv, P kv.2) fs :=
                  match fs with
                  | [] => Forall_nil_2 _
                  | kv :: r => Forall_cons_2 (λ kv, P kv.2) kv r (rec kv.2) (go r)
                  end) fs)
  end.

(** [obj[k]] on the property list of an object. *)
Fixpoint lookup_field (k : string) (fs : list (string * json)) : option json :=
  match fs with
  | [] => None
  | (k', v) :: r => if String.eqb k k' then Some v else lookup_field k r
  end.

(** [obj[k] = v]: an existing property keeps its place, a new one goes
    last. *)
Fixpoint assign_field (k : string) (v : json) (fs : list (string * json))
  : list (string * json) :=
  match fs with
  | [] => [(k, v)]
  | (k', v') :: r =>
      if String.eqb k k' then (k, v) :: r else (k', v') :: assign_field k v r
  end.

(** [v.k] for the property names the worker reads ([title],
    [photographer], [groups], [expiresAt], [photoCount], [photos]; none is
    [length] or an index).  Reading a property of [null] throws; a number,
    a boolean, a string or an array has none of these properties. *)
Definition get_prop (v : json) (k : string) : result (option json) :=
  match v with
  | JNull =>
      Throw ("Cannot read properties of null (reading '" ++ k ++ "')")
  | JObj fs => Ok (lookup_field k fs)
  | _ => Ok None
  end.

(** Truthiness ([ToBoolean]). *)
Definition truthy (v : option json) : bool :=
  match v with
  | None | Some JNull | Some (JBool false) | Some (JStr "") => false
  | Some (JNum n) => negb (n =? 0)
  | Some _ => true
  end.

(** [v || d]. *)
Definition or_else (v : option json) (d : json) : json :=
  match v with
  | Some x => if truthy v then x else d
  | None => d
  end.

(** [s || d] for a string that may be [undefined] (an environment
    variable, a text field of a form). *)
Definition str_or (s : option string) (d : string) : string :=
  match s with
  | Some "" | None => d
  | Some x => x
  end.

(** Decimal rendering of an integer, as [String(n)] and template
    literals give it. *)
Definition Z_to_string (n : Z) : string :=
  NilZero.string_of_int (Z.to_int n).

(** [String(v)] of a document: an array joins its elements with commas
    ([null] elements as the empty string), an object is
    ["[object Object]"]. *)
Fixpoint ToString (v : json) : string :=
  match v with
  | JNull => "null"
  | JBool true => "true"
  | JBool false => "false"
  | JNum n => Z_to_string n
  | JStr s => s
  | JArr l =>
      (fix join (l : list json) : string :=
         match l with
         | [] => ""
         | [x] => match x with JNull => "" | _ => ToString x end
         | x :: r =>
             (match x with JNull => "" | _ => ToString x end) ++ "," ++ join r
         end) l
  | JObj _ => "[object Object]"
  end.

(** A number or [NaN] ([None]). *)
Definition number := option Z.

(** [a >= b], [a > b] and [a < b] on numbers: false when either side is
    [NaN]. *)
Definition num_ge (a b : number) : bool :=
  match a, b with Some x, Some y => y <=? x | _, _ => false end.
Definition num_gt (a b : number) : bool :=
  match a, b with Some x, Some y => y <? x | _, _ => false end.
Definition num_lt (a b : number) : bool :=
  match a, b with Some x, Some y => x <? y | _, _ => false end.

(** *** parseInt *)

Definition is_digit (c : ascii) : bool :=
  let n := nat_of_ascii c in (48 <=? n)%nat && (n <=? 57)%nat.

Definition is_upper (c : ascii) : bool :=
  let n := nat_of_ascii c in (65 <=? n)%nat && (n <=? 90)%nat.

Definition is_lower (c : ascii) : bool :=
  let n := nat_of_ascii c in (97 <=? n)%nat && (n <=? 122)%nat.

(** White space that [parseInt] skips (the ASCII part of it). *)
Definition is_space (c : ascii) : bool :=
  let n := nat_of_ascii c in
  (n =? 32)%nat || ((9 <=? n)%nat && (n <=? 13)%nat).

Fixpoint skip_spaces (s : string) : string :=
  match s with
  | String c r => if is_space c then skip_spaces r else s
  | EmptyString => s
  end.

(** The value of a digit in radix 16 (radix 10 uses the first ten). *)
Definition digit_value (c : ascii) : option Z :=
  let n := Z.of_nat (nat_of_ascii c) in
  if is_digit c then Some (n - 48)
  else if (97 <=? n) && (n <=? 102) then Some (n - 87)
  else if (65 <=? n) && (n <=? 70) then Some (n - 55)
  else None.

(** The longest prefix of digits of the radix, read as a number; [None]
    when there is no digit. *)
Fixpoint read_digits (radix : Z) (acc : option Z) (s : string) : option Z :=
  match s with
  | String c r =>
      match digit_value c with
      | Some d =>
          if d <? radix
          then read_digits radix (Some (radix * default 0 acc + d)) r
          else acc
      | None => acc
      end
  | EmptyString => acc
  end.

(** [parseInt(s)]: leading white space, a sign, a [0x] prefix, then the
    digits; [NaN] when no digit follows.  The value is the exact integer of
    the digits, which is the worker's value up to 2^53; beyond, the worker's
    is the nearest double. *)
Definition parseInt (s : string) : number :=
  let s := skip_spaces s in
  let '(sign, s) :=
    match s with
    | String "-" r => (-1, r)
    | String "+" r => (1, r)
    | _ => (1, s)
    end in
  let '(radix, s) :=
    match s with
    | String "0" (String "x" r) | String "0" (String "X" r) => (16, r)
    | _ => (10, s)
    end in
  (λ n, sign * n) <$> read_digits radix None s.

End Js.

Import Js.

(** ** The runtime *)

(** The built-ins the worker calls and the repository does not define.
    Texts are byte strings (UTF-8).
    - [JSON_parse] throws a [SyntaxError] on a text that is not JSON;
    - [Date_parse s] is the time value of [new Date(s)], in milliseconds
      since the epoch, [None] for an invalid date;
    - [Date_toISOString t] is [new Date(t).toISOString()] for a time value
      in range;
    - [StringToNumber s] is [Number(s)], [None] for [NaN];
    - [decodeURIComponent] throws a [URIError] on a malformed escape;
    - [atob] throws on a text that is not base64.
    The one law: a document written by [JSON.stringify] is read back by
    [JSON.parse] as it was. *)
Class Platform : Type := {
  JSON_parse : string → result json;
  JSON_stringify : json → string;
  JSON_parse_stringify : ∀ v, JSON_parse (JSON_stringify v) = Ok v;
  Date_parse : string → number;
  Date_toISOString : Z → string;
  StringToNumber : string → number;
  decodeURIComponent : string → result string;
  atob : string → result string;
}.

(** What a request reads from the outside world: the clock ([clock k] is
    the k-th reading taken while the request runs, in milliseconds) and the
    random bytes of [crypto.getRandomValues]. *)
Record World : Type := {
  clock : nat → Z;
  random_byte : nat → Byte.byte;
}.

(** The worker's configuration ([env]); a variable that is not set is
    [undefined]. *)
Record Env : Type := {
  SESSION_TTL_DAYS : option string;
  MAX_PHOTOS_PER_SESSION : option string;
  MAX_FILE_SIZE_MB : option string;
}.

(** A [File] of a multipart form: its name, the size the runtime reports
    for it ([file.size]), its declared media type and its bytes. *)
Record File : Type := {
  file_name : string;
  file_size : Z;
  file_type : string;
  file_bytes : string;
}.

(** An entry of a form is a text or a file. *)
Inductive FormValue : Type :=
| FText (s : string)
| FFile (f : File).

(** The four entries the upload route reads with [formData.get]; an entry
    that is absent is [null].  [fname] and [groupId] are text fields. *)
Record FormData : Type := {
  form_file : option FormValue;
  form_fname : option string;
  form_groupId : option string;
  form_thumb : option FormValue;
}.

(** A request: method, [new URL(request.url).pathname], and what
    [request.json()] and [request.formData()] give for its body (either may
    throw). *)
Record Request : Type := {
  method : string;
  pathname : string;
  request_json : result json;
  request_formData : result FormData;
}.

Record Response : Type := {
  status : Z;
  headers : list (string * string);
  response_body : option string;
}.

(** ** The bucket *)

(** An R2 object: its bytes, the content type of its [httpMetadata] and its
    [customMetadata]. *)
Record R2Object : Type := {
  body : string;
  contentType : option string;
  customMetadata : list (string * string);
}.

(** The bucket [env.PHOTOS]: a flat map from keys to objects. *)
Abbreviation R2 := (gmap string R2Object).

(** A handler runs against the bucket and returns a value or throws; what
    it wrote before throwing stays written. *)
Definition M (A : Type) : Type := R2 → result A * R2.

Definition ret {A} (a : A) : M A := λ st, (Ok a, st).

Definition bind {A B} (c : M A) (k : A → M B) : M B :=
  λ st, match c st with
        | (Ok a, st') => k a st'
        | (Throw msg, st') => (Throw msg, st')
        end.

Definition throw {A} (msg : string) : M A := λ st, (Throw msg, st).

Definition lift {A} (r : result A) : M A := λ st, (r, st).

(** [env.PHOTOS.get(key)]: the object, or [null]. *)
Definition R2_get (key : string) : M (option R2Object) :=
  λ st, (Ok (st !! key), st).

(** [env.PHOTOS.put(key, bytes, options)].  The bucket takes every put: a
    fault of the storage layer is not modelled. *)
Definition R2_put (key : string) (o : R2Object) : M unit :=
  λ st, (Ok tt, <[key := o]> st).

Declare Scope worker_scope.
Delimit Scope worker_scope with worker.
Notation "'let*' x := c 'in' k" := (bind c (λ x, k))
  (at level 10, x pattern, c at level 100, k at level 200) : worker_scope.
Notation "c ;; k" := (bind c (λ _, k))
  (at level 100, k at level 200, right associativity) : worker_scope.

(** ** Routes

    The four regular expressions of the worker.  Each starts with
    [^\/api\/session\/([a-zA-Z0-9]+)] and what follows the identifier starts
    with a slash or is the end of the path, so the identifier is the longest
    run of letters and digits after the prefix. *)

Module Routes.

Definition is_alnum (c : ascii) : bool :=
  is_lower c || is_upper c || is_digit c.

(** [.] of a regular expression: any character but a line terminator.  (A
    path name is ASCII, so the two-byte terminators do not occur.) *)
Definition is_dot (c : ascii) : bool :=
  negb ((nat_of_ascii c =? 10)%nat || (nat_of_ascii c =? 13)%nat).

Fixpoint all_chars (p : ascii → bool) (s : string) : bool :=
  match s with
  | String c r => p c && all_chars p r
  | EmptyString => true
  end.

(** [s] without the prefix [p], when it has it. *)
Fixpoint strip_prefix (p s : string) : option string :=
  match p, s with
  | EmptyString, _ => Some s
  | String a p', String b s' =>
      if Ascii.eqb a b then strip_prefix p' s' else None
  | String _ _, EmptyString => None
  end.

(** The longest prefix of characters satisfying [p], and the rest. *)
Fixpoint span (p : ascii → bool) (s : string) : string * string :=
  match s with
  | String c r =>
      if p c then let '(a, b) := span p r in (String c a, b) else ("", s)
  | EmptyString => ("", "")
  end.

(** [^\/api\/session\/([a-zA-Z0-9]+)]: the identifier and what follows
    it. *)
Definition session_prefix (path : string) : option (string * string) :=
  match strip_prefix "/api/session/" path with
  | Some r =>
      let '(id, rest) := span is_alnum r in
      if String.eqb id "" then None else Some (id, rest)
  | None => None
  end.

(** [/^\/api\/session\/([a-zA-Z0-9]+)$/] *)
Definition sessionMatch (path : string) : option string :=
  match session_prefix path with
  | Some (id, rest) => if String.eqb rest "" then Some id else None
  | None => None
  end.

(** [/^\/api\/session\/([a-zA-Z0-9]+)\/upload$/] *)
Definition uploadMatch (path : string) : option string :=
  match session_prefix path with
  | Some (id, rest) => if String.eqb rest "/upload" then Some id else None
  | None => None
  end.

(** [(.+)$] after the literal [lit]. *)
Definition rest_match (lit rest : string) : option string :=
  match strip_prefix lit rest with
  | Some f =>
      if negb (String.eqb f "") && all_chars is_dot f then Some f else None
  | None => None
  end.

(** [/^\/api\/session\/([a-zA-Z0-9]+)\/photo\/(.+)$/] *)
Definition photoMatch (path : string) : option (string * string) :=
  match session_prefix path with
  | Some (id, rest) => pair id <$> rest_match "/photo/" rest
  | None => None
  end.

(** [/^\/api\/session\/([a-zA-Z0-9]+)\/thumb\/(.+)$/] *)
Definition thumbMatch (path : string) : option (string * string) :=
  match session_prefix path with
  | Some (id, rest) => pair id <$> rest_match "/thumb/" rest
  | None => None
  end.

End Routes.

(** *** Facts about texts *)

Lemma append_assoc (a b c : string) : (a ++ b) ++ c = a ++ (b ++ c).
Proof. induction a as [|x a IH]; simpl; [reflexivity | now f_equal]. Qed.

Lemma length_append (a b : string) :
  String.length (a ++ b) = (String.length a + String.length b)%nat.
Proof. induction a as [|x a IH]; simpl; [reflexivity | now f_equal]. Qed.

Lemma span_append (p : ascii → bool) (a rest : string) :
  Routes.all_chars p a = true →
  match rest with String c _ => p c = false | EmptyString => True end →
  Routes.span p (a ++ rest) = (a, rest).
Proof.
  intros Ha Hrest. induction a as [|x a IH]; simpl in *.
  - destruct rest as [|c r]; simpl; [reflexivity | now rewrite Hrest].
  - apply andb_true_iff in Ha as [Hx Ha]. now rewrite Hx, (IH Ha).
Qed.

Lemma all_chars_mono (p q : ascii → bool) (s : string) :
  (∀ c, p c = true → q c = true) →
  Routes.all_chars p s = true → Routes.all_chars q s = true.
Proof.
  intros Hpq. induction s as [|c s IH]; simpl; [reflexivity |].
  intros [Hc Hs]%andb_true_iff. now rewrite (Hpq _ Hc), (IH Hs).
Qed.

(** ** Keys of the bucket *)

Definition metaKey (sessionId : string) : string :=
  "sessions/" ++ sessionId ++ "/meta.json".

Definition photoKey (sessionId fname : string) : string :=
  "sessions/" ++ sessionId ++ "/photos/" ++ fname.

Definition thumbKey (sessionId fname : string) : string :=
  "sessions/" ++ sessionId ++ "/thumbs/" ++ fname.

(** ** The worker *)

Section Worker.
Context `{Platform}.
Local Open Scope worker_scope.

(** *** Coercions that go through the runtime *)

(** [Number(v)]: [undefined] is [NaN], [null] is 0, a text, an array or an
    object goes through its string. *)
Definition ToNumber (v : option json) : number :=
  match v with
  | None => None
  | Some JNull => Some 0
  | Some (JBool b) => Some (if b then 1 else 0)
  | Some (JNum n) => Some n
  | Some (JStr s) => StringToNumber s
  | Some (JArr l) => StringToNumber (ToString (JArr l))
  | Some (JObj fs) => StringToNumber (ToString (JObj fs))
  end.

(** The largest time value of a [Date]; beyond it the date is invalid. *)
Definition max_time : Z := 8640000000000000.

Definition TimeClip (t : number) : number :=
  match t with
  | Some n => if Z.abs n <=? max_time then Some n else None
  | None => None
  end.

(** The time value of [new Date(v)]. *)
Definition new_Date (v : option json) : number :=
  match v with
  | None => None
  | Some (JStr s) => Date_parse s
  | Some (JArr l) => Date_parse (ToString (JArr l))
  | Some (JObj fs) => Date_parse (ToString (JObj fs))
  | Some v => TimeClip (ToNumber (Some v))
  end.

(** [new Date(t).toISOString()]: a [RangeError] on an invalid date. *)
Definition toISOString (t : number) : result string :=
  match TimeClip t with
  | Some n => Ok (Date_toISOString n)
  | None => Throw "Invalid time value"
  end.

(** A number as [JSON.stringify] writes it: [NaN] becomes [null]. *)
Definition number_json (n : number) : json :=
  match n with Some z => JNum z | None => JNull end.

(** A value in a template literal. *)
Definition show_number (n : number) : string :=
  match n with Some z => Z_to_string z | None => "NaN" end.

Definition show_string (s : option string) : string :=
  match s with Some x => x | None => "undefined" end.

(** *** Lines 6-34: identifiers and responses *)

Definition chars : string :=
  "ABCDEFGHJKLMNPQRSTUVWXYZabcdefghjkmnpqrstuvwxyz23456789".

(** [crypto.getRandomValues(new Uint8Array(len))] *)
Definition getRandomValues (w : World) (len : nat) : list Byte.byte :=
  random_byte w <$> seq 0 len.

(** One turn of the loop: [id += chars[b % chars.length]]. *)
Definition append_char (id : string) (b : Byte.byte) : string :=
  id ++ match String.get (Byte.to_nat b mod String.length chars) chars with
        | Some c => String c ""
        | None => "undefined"
        end.

Definition generateId (len : nat) (w : World) : string :=
  fold_left append_char (getRandomValues w len) "".

Definition corsHeaders : list (string * string) :=
  [("Access-Control-Allow-Origin", "*");
   ("Access-Control-Allow-Methods", "GET, POST, PUT, DELETE, OPTIONS");
   ("Access-Control-Allow-Headers", "Content-Type")].

Definition jsonResponse (data : json) (st : Z) : Response :=
  {| status := st;
     headers := ("Content-Type", "application/json") :: corsHeaders;
     response_body := Some (JSON_stringify data) |}.

Definition errorResponse (message : string) (st : Z) : Response :=
  jsonResponse (JObj [("error", JStr message)]) st.

(** *** Lines 47-73: POST /api/session *)

Definition createSession (w : World) (env : Env) (req : Request) : M Response :=
  let* body := lift (request_json req) in
  let sessionId := generateId 8 w in
  let* now := lift (toISOString (Some (clock w 0))) in
  let ttlDays := parseInt (str_or (SESSION_TTL_DAYS env) "7") in
  let* expiresAt :=
    lift (toISOString ((λ d, clock w 1 + d * 86400000) <$> ttlDays)) in
  let* title := lift (get_prop body "title") in
  let* photographer := lift (get_prop body "photographer") in
  let* groups := lift (get_prop body "groups") in
  let meta :=
    JObj [("id", JStr sessionId);
          ("title", or_else title (JStr ""));
          ("photographer", or_else photographer (JStr ""));
          ("groups", or_else groups (JArr []));
          ("createdAt", JStr now);
          ("expiresAt", JStr expiresAt);
          ("photoCount", JNum 0);
          ("photos", JArr [])] in
  R2_put (metaKey sessionId)
    {| body := JSON_stringify meta;
       contentType := Some "application/json";
       customMetadata := [] |} ;;
  ret (jsonResponse
         (JObj [("sessionId", JStr sessionId); ("expiresAt", JStr expiresAt)])
         200).

(** *** Lines 75-90: GET /api/session/:id *)

Definition getSession (w : World) (sessionId : string) : M Response :=
  let* obj := R2_get (metaKey sessionId) in
  match obj with
  | None => ret (errorResponse "Session not found" 404)
  | Some obj =>
      let* meta := lift (JSON_parse (body obj)) in
      let* expiresAt := lift (get_prop meta "expiresAt") in
      if num_lt (new_Date expiresAt) (Some (clock w 0))
      then ret (errorResponse "Session expired" 410)
      else ret (jsonResponse meta 200)
  end.

(** *** Lines 92-173: POST /api/session/:id/upload *)

(** [!file] of a form entry: [null] and the empty text are falsy. *)
Definition entry_truthy (e : option FormValue) : bool :=
  match e with
  | None | Some (FText "") => false
  | Some _ => true
  end.

(** [file.name]: throws on [null]; a text has no [name]. *)
Definition entry_name (e : option FormValue) : result (option string) :=
  match e with
  | None => Throw "Cannot read properties of null (reading 'name')"
  | Some (FText _) => Ok None
  | Some (FFile f) => Ok (Some (file_name f))
  end.

(** [file.size] and [file.type]: a text has neither. *)
Definition entry_size (e : option FormValue) : number :=
  match e with
  | Some (FFile f) => Some (file_size f)
  | _ => None
  end.

Definition entry_type (e : option FormValue) : option string :=
  match e with
  | Some (FFile f) => Some (file_type f)
  | _ => None
  end.

(** [e.stream()]: the bytes of a file; a text has no [stream]. *)
Definition entry_stream (what : string) (e : option FormValue) : result string :=
  match e with
  | Some (FFile f) => Ok (file_bytes f)
  | Some (FText _) => Throw (what ++ ".stream is not a function")
  | None => Throw "Cannot read properties of null (reading 'stream')"
  end.

(** A property of an object literal: left out by [JSON.stringify] when
    its value is [undefined]. *)
Definition field (k : string) (v : option json) : list (string * json) :=
  match v with Some x => [(k, x)] | None => [] end.

(** [thumbData.replace(/^data:image\/\w+;base64,/, '')]: [\w+] is the
    longest run of letters, digits and underscores, since a [;] must
    follow. *)
Definition strip_data_url (s : string) : string :=
  match Routes.strip_prefix "data:image/" s with
  | Some r =>
      let '(w, r') :=
        Routes.span (λ c, Routes.is_alnum c || Ascii.eqb c "_") r in
      if String.eqb w "" then s
      else match Routes.strip_prefix ";base64," r' with
           | Some b => b
           | None => s
           end
  | None => s
  end.

(** [meta.photoCount = v] in strict mode (the worker is a module): a
    number, a boolean or a text takes no property, and [null] has none; the
    messages are those of V8, which names the type and quotes the value.
    An array takes the property but keeps it out of its elements, where
    [JSON.stringify] and the worker's next step (which reads [photos] of
    the array) do not see it. *)
Definition set_prop (m : json) (k : string) (v : json) : result json :=
  match m with
  | JObj fs => Ok (JObj (assign_field k v fs))
  | JArr l => Ok (JArr l)
  | JNull => Throw ("Cannot set properties of null (setting '" ++ k ++ "')")
  | JBool _ =>
      Throw ("Cannot create property '" ++ k ++ "' on boolean '"
             ++ ToString m ++ "'")
  | JNum _ =>
      Throw ("Cannot create property '" ++ k ++ "' on number '"
             ++ ToString m ++ "'")
  | JStr _ =>
      Throw ("Cannot create property '" ++ k ++ "' on string '"
             ++ ToString m ++ "'")
  end.

(** [meta.photos.push(record)]: only an array has [push]. *)
Definition push_photo (m : json) (record : json) : result json :=
  match get_prop m "photos" with
  | Ok (Some (JArr l)) => set_prop m "photos" (JArr (l ++ [record]))
  | Ok (Some JNull) => Throw "Cannot read properties of null (reading 'push')"
  | Ok None => Throw "Cannot read properties of undefined (reading 'push')"
  | Ok (Some _) => Throw "meta.photos.push is not a function"
  | Throw msg => Throw msg
  end.

Definition uploadPhoto (env : Env) (req : Request) (sessionId : string)
  : M Response :=
  (* Get session meta *)
  let* metaObj := R2_get (metaKey sessionId) in
  match metaObj with
  | None => ret (errorResponse "Session not found" 404)
  | Some metaObj =>
  let* meta := lift (JSON_parse (body metaObj)) in
  (* Check photo limit *)
  let maxPhotos := parseInt (str_or (MAX_PHOTOS_PER_SESSION env) "50") in
  let* photoCount := lift (get_prop meta "photoCount") in
  if num_ge (ToNumber photoCount) maxPhotos
  then ret (errorResponse
              ("Maximum " ++ show_number maxPhotos ++ " photos per session") 429)
  else
  (* Parse multipart form *)
  let* formData := lift (request_formData req) in
  let file := form_file formData in
  let* fname :=
    lift (match form_fname formData with
          | Some "" | None => entry_name file
          | Some s => Ok (Some s)
          end) in
  let groupId := str_or (form_groupId formData) "" in
  let thumbData := form_thumb formData in
  if negb (entry_truthy file) then ret (errorResponse "No file provided" 400)
  else
  (* Check file size *)
  let maxSize :=
    (λ mb, mb * 1024 * 1024) <$> parseInt (str_or (MAX_FILE_SIZE_MB env) "25") in
  if num_gt (entry_size file) maxSize
  then ret (errorResponse
              ("File too large (max " ++ show_string (MAX_FILE_SIZE_MB env) ++ "MB)")
              400)
  else
  (* Save original photo to R2 *)
  let* bytes := lift (entry_stream "file" file) in
  R2_put (photoKey sessionId (show_string fname))
    {| body := bytes;
       contentType := Some (str_or (entry_type file) "image/jpeg");
       customMetadata :=
         [("groupId", groupId); ("originalName", show_string fname)] |} ;;
  (* Save thumbnail if provided *)
  (if entry_truthy thumbData then
     let* thumbBody :=
       lift (match thumbData with
             | Some (FText s) => atob (strip_data_url s)
             | _ => entry_stream "thumbData" thumbData
             end) in
     R2_put (thumbKey sessionId (show_string fname))
       {| body := thumbBody;
          contentType := Some "image/jpeg";
          customMetadata := [] |}
   else ret tt) ;;
  (* Update meta *)
  let* meta :=
    lift (set_prop meta "photoCount"
            (number_json (Z.succ <$> ToNumber photoCount))) in
  let* meta :=
    lift (push_photo meta
            (JObj (field "fname" (JStr <$> fname)
                   ++ [("groupId", JStr groupId)]
                   ++ field "size" (JNum <$> entry_size file)
                   ++ field "type" (JStr <$> entry_type file)))) in
  R2_put (metaKey sessionId)
    {| body := JSON_stringify meta;
       contentType := Some "application/json";
       customMetadata := [] |} ;;
  let* count := lift (get_prop meta "photoCount") in
  ret (jsonResponse
         (JObj ([("ok", JBool true)]
                ++ field "fname" (JStr <$> fname)
                ++ field "photoCount" count))
         200)
  end.

(** *** Lines 175-190: GET /api/session/:id/photo/:fname *)

Definition getPhoto (sessionId fname : string) : M Response :=
  let* name := lift (decodeURIComponent fname) in
  let key := photoKey sessionId name in
  let* obj := R2_get key in
  match obj with
  | None => ret (errorResponse "Photo not found" 404)
  | Some obj =>
      ret {| status := 200;
             headers :=
               ("Content-Type", str_or (contentType obj) "image/jpeg")
               :: ("Cache-Control", "public, max-age=86400") :: corsHeaders;
             response_body := Some (body obj) |}
  end.

(** *** Lines 192-220: GET /api/session/:id/thumb/:fname *)

Definition getThumb (sessionId fname : string) : M Response :=
  let* name := lift (decodeURIComponent fname) in
  let key := thumbKey sessionId name in
  let* obj := R2_get key in
  match obj with
  | None =>
      (* Fallback to full photo if no thumb *)
      let fullKey := photoKey sessionId name in
      let* fullObj := R2_get fullKey in
      match fullObj with
      | None => ret (errorResponse "Photo not found" 404)
      | Some fullObj =>
          ret {| status := 200;
                 headers :=
                   ("Content-Type", str_or (contentType fullObj) "image/jpeg")
                   :: ("Cache-Control", "public, max-age=86400") :: corsHeaders;
                 response_body := Some (body fullObj) |}
      end
  | Some obj =>
      ret {| status := 200;
             headers :=
               ("Content-Type", "image/jpeg")
               :: ("Cache-Control", "public, max-age=86400") :: corsHeaders;
             response_body := Some (body obj) |}
  end.

(** *** Lines 36-46 and 222-229: the entry point *)

(** The body of the [try] block: the first route that matches runs. *)
Definition route (w : World) (env : Env) (req : Request) : M Response :=
  let path := pathname req in
  if String.eqb path "/api/session" && String.eqb (method req) "POST"
  then createSession w env req
  else
  match Routes.sessionMatch path, String.eqb (method req) "GET" with
  | Some sessionId, true => getSession w sessionId
  | _, _ =>
  match Routes.uploadMatch path, String.eqb (method req) "POST" with
  | Some sessionId, true => uploadPhoto env req sessionId
  | _, _ =>
  match Routes.photoMatch path, String.eqb (method req) "GET" with
  | Some (sessionId, fname), true => getPhoto sessionId fname
  | _, _ =>
  match Routes.thumbMatch path, String.eqb (method req) "GET" with
  | Some (sessionId, fname), true => getThumb sessionId fname
  | _, _ => ret (errorResponse "Not found" 404)
  end end end end.

(** [fetch(request, env)]: the response, and the bucket afterwards.  An
    exception of a route is caught and answered with status 500. *)
Definition fetch (w : World) (env : Env) (req : Request) (st : R2)
  : Response * R2 :=
  if String.eqb (method req) "OPTIONS"
  then ({| status := 200; headers := corsHeaders; response_body := None |}, st)
  else
    match route w env req st with
    | (Ok response, st') => (response, st')
    | (Throw message, st') =>
        (errorResponse ("Internal server error: " ++ message) 500, st')
    end.

End Worker.

(** ** A reference runtime

    Executable definitions of the built-ins, for a fragment of their
    inputs: JSON texts whose numbers are integers and whose objects do not
    repeat a key, dates in the format that [toISOString] writes, and so on.
    Outside the fragment an engine accepts more (a fraction, a repeated key,
    a date without a time), and the messages of its exceptions are its own.
    The reference runtime is what the handler is run with on the concrete
    requests of this file, all of them inside the fragment; the theorems
    are stated for every runtime and do not depend on it. *)

Module Ref.

(** *** JSON.stringify *)

Definition dquote : ascii := "034".

Definition hex_digit (n : nat) : ascii :=
  match String.get n "0123456789abcdef" with
  | Some c => c
  | None => "0"
  end.

(** One character of a quoted string: the quote, the backslash and the
    control characters are escaped. *)
Definition escape (c : ascii) : string :=
  let n := nat_of_ascii c in
  if (n =? 34)%nat then String "\" (String dquote "")
  else if (n =? 92)%nat then "\\"
  else if (n =? 8)%nat then "\b"
  else if (n =? 9)%nat then "\t"
  else if (n =? 10)%nat then "\n"
  else if (n =? 12)%nat then "\f"
  else if (n =? 13)%nat then "\r"
  else if (n <? 32)%nat
       then "\u00" ++ String (hex_digit (n / 16)) (String (hex_digit (n mod 16)) "")
  else String c "".

Fixpoint escape_all (s : string) : string :=
  match s with
  | String c r => escape c ++ escape_all r
  | EmptyString => ""
  end.

Definition quote (s : string) : string :=
  String dquote (escape_all s ++ String dquote "").

Fixpoint stringify (v : json) : string :=
  match v with
  | JNull => "null"
  | JBool true => "true"
  | JBool false => "false"
  | JNum n => Z_to_string n
  | JStr s => quote s
  | JArr l => "[" ++ String.concat "," (map stringify l) ++ "]"
  | JObj fs =>
      "{" ++ String.concat ","
               (map (λ kv, quote kv.1 ++ ":" ++ stringify kv.2) fs) ++ "}"
  end.

(** *** JSON.parse *)

Definition is_ws (c : ascii) : bool :=
  let n := nat_of_ascii c in
  (n =? 32)%nat || (n =? 9)%nat || (n =? 10)%nat || (n =? 13)%nat.

Fixpoint skip_ws (s : string) : string :=
  match s with
  | String c r => if is_ws c then skip_ws r else s
  | EmptyString => s
  end.

Definition hex_value (c : ascii) : option N :=
  Z.to_N <$> digit_value c.

(** The UTF-8 bytes of a code point of the basic plane; a surrogate has
    none. *)
Definition utf8 (n : N) : option string :=
  let byte k := String (ascii_of_N k) "" in
  (if n <? 128 then Some (byte n)
   else if n <? 2048
   then Some (byte (192 + n / 64) ++ byte (128 + n mod 64))
   else if (55296 <=? n) && (n <? 57344) then None
   else Some (byte (224 + n / 4096) ++ byte (128 + (n / 64) mod 64)
              ++ byte (128 + n mod 64)))%N.

(** The characters of a string up to its closing quote, and what follows
    the quote. *)
Fixpoint parse_chars (s : string) : option (string * string) :=
  match s with
  | EmptyString => None
  | String c r =>
      if Ascii.eqb c dquote then Some ("", r)
      else if Ascii.eqb c "\" then
        match r with
        | String e r' =>
            if Ascii.eqb e "u" then
              match r' with
              | String a (String b (String c' (String d r''))) =>
                  match hex_value a, hex_value b, hex_value c', hex_value d with
                  | Some x3, Some x2, Some x1, Some x0 =>
                      match utf8 (((x3 * 16 + x2) * 16 + x1) * 16 + x0)%N,
                            parse_chars r'' with
                      | Some u, Some (t, rest) => Some (u ++ t, rest)
                      | _, _ => None
                      end
                  | _, _, _, _ => None
                  end
              | _ => None
              end
            else
              let plain :=
                if Ascii.eqb e dquote then Some dquote
                else if Ascii.eqb e "\" then Some "\"%char
                else if Ascii.eqb e "/" then Some "/"%char
                else if Ascii.eqb e "b" then Some "008"%char
                else if Ascii.eqb e "t" then Some "009"%char
                else if Ascii.eqb e "n" then Some "010"%char
                else if Ascii.eqb e "f" then Some "012"%char
                else if Ascii.eqb e "r" then Some "013"%char
                else None in
              match plain, parse_chars r' with
              | Some x, Some (t, rest) => Some (String x t, rest)
              | _, _ => None
              end
        | EmptyString => None
        end
      else if (nat_of_ascii c <? 32)%nat then None
      else
        match parse_chars r with
        | Some (t, rest) => Some (String c t, rest)
        | None => None
        end
  end.

Definition is_number_char (c : ascii) : bool :=
  is_digit c || Ascii.eqb c "-".

(** No leading zero: the digits are ["0"] or do not start with one. *)
Definition no_leading_zero (tok : string) : bool :=
  match tok with
  | String "-" (String "0" (String _ _)) | String "0" (String _ _) => false
  | _ => true
  end.

(** What may follow a number in this fragment: not a fraction and not an
    exponent. *)
Definition integer_ends (rest : string) : bool :=
  match rest with
  | String "." _ | String "e" _ | String "E" _ => false
  | _ => true
  end.

Definition parse_number (s : string) : option (json * string) :=
  let '(tok, rest) := Routes.span is_number_char s in
  if no_leading_zero tok && integer_ends rest then
    match NilZero.int_of_string tok with
    | Some d => Some (JNum (Z.of_int d), rest)
    | None => None
    end
  else None.

Definition parse_literal (lit : string) (v : json) (s : string)
  : option (json * string) :=
  pair v <$> Routes.strip_prefix lit s.

(** [s] after its first character, when that is [c]. *)
Definition after (c : ascii) (s : string) : option string :=
  match s with
  | String c' r => if Ascii.eqb c c' then Some r else None
  | EmptyString => None
  end.

Fixpoint parse_value (fuel : nat) (s : string) : option (json * string) :=
  match fuel with
  | O => None
  | S fuel =>
      match skip_ws s with
      | EmptyString => None
      | String c r =>
          if is_number_char c then parse_number (String c r)
          else if Ascii.eqb c "n" then parse_literal "ull" JNull r
          else if Ascii.eqb c "t" then parse_literal "rue" (JBool true) r
          else if Ascii.eqb c "f" then parse_literal "alse" (JBool false) r
          else if Ascii.eqb c dquote then
            match parse_chars r with
            | Some (t, rest) => Some (JStr t, rest)
            | None => None
            end
          else if Ascii.eqb c "[" then
            match after "]" (skip_ws r) with
            | Some rest => Some (JArr [], rest)
            | None =>
                match parse_elements fuel r with
                | Some (l, rest) => Some (JArr l, rest)
                | None => None
                end
            end
          else if Ascii.eqb c "{" then
            match after "}" (skip_ws r) with
            | Some rest => Some (JObj [], rest)
            | None =>
                match parse_members fuel r with
                | Some (fs, rest) => Some (JObj fs, rest)
                | None => None
                end
            end
          else None
      end
  end
with parse_elements (fuel : nat) (s : string) : option (list json * string) :=
  match fuel with
  | O => None
  | S fuel =>
      match parse_value fuel s with
      | Some (v, r) =>
          match after "," (skip_ws r) with
          | Some r' =>
              match parse_elements fuel r' with
              | Some (l, rest) => Some (v :: l, rest)
              | None => None
              end
          | None =>
              match after "]" (skip_ws r) with
              | Some rest => Some ([v], rest)
              | None => None
              end
          end
      | None => None
      end
  end
with parse_members (fuel : nat) (s : string)
  : option (list (string * json) * string) :=
  match fuel with
  | O => None
  | S fuel =>
      match after dquote (skip_ws s) with
      | Some r =>
          match parse_chars r with
          | Some (k, r1) =>
              match after ":" (skip_ws r1) with
              | Some r2 =>
                  match parse_value fuel r2 with
                  | Some (v, r3) =>
                      match after "," (skip_ws r3) with
                      | Some r4 =>
                          match parse_members fuel r4 with
                          | Some (fs, rest) => Some ((k, v) :: fs, rest)
                          | None => None
                          end
                      | None =>
                          match after "}" (skip_ws r3) with
                          | Some rest => Some ([(k, v)], rest)
                          | None => None
                          end
                      end
                  | None => None
                  end
              | None => None
              end
          | None => None
          end
      | None => None
      end
  end.

Definition parse (s : string) : result json :=
  match parse_value (S (String.length s)) s with
  | Some (v, rest) =>
      if String.eqb (skip_ws rest) "" then Ok v
      else Throw "Unexpected non-whitespace character after JSON"
  | None => Throw "Unexpected token in JSON"
  end.

(** *** Strings of a quoted text *)

Lemma parse_chars_escape (c : ascii) (s : string) :
  parse_chars (escape c ++ s) =
  match parse_chars s with
  | Some (t, rest) => Some (String c t, rest)
  | None => None
  end.
Proof. destruct c as [[] [] [] [] [] [] [] []]; reflexivity. Qed.

Lemma parse_chars_quote (s rest : string) :
  parse_chars (escape_all s ++ String dquote rest) = Some (s, rest).
Proof.
  induction s as [|c s IH]; cbn [escape_all].
  - reflexivity.
  - now rewrite append_assoc, parse_chars_escape, IH.
Qed.

(** *** Numbers *)

Lemma uint_digits (d : Decimal.uint) :
  Routes.all_chars is_digit (NilEmpty.string_of_uint d) = true.
Proof. induction d; simpl; auto. Qed.

Lemma to_uint_head (p : positive) (d : Decimal.uint) :
  Pos.to_uint p ≠ Decimal.D0 d.
Proof.
  intros E.
  pose proof (DecimalPos.Unsigned.to_of (Pos.to_uint p)) as H.
  rewrite DecimalPos.Unsigned.of_to in H. simpl in H.
  unfold Decimal.unorm in H.
  destruct (Decimal.nzhead (Pos.to_uint p)) eqn:Hn;
    try (rewrite H in E; discriminate).
  - now apply (DecimalPos.Unsigned.to_uint_nonzero p).
  - now apply (DecimalFacts.nzhead_nonzero (Pos.to_uint p) u).
Qed.

(** The decimal rendering of an integer: a digit or a minus sign, then
    digits, and no leading zero. *)
Lemma Z_to_string_shape (n : Z) :
  ∃ c r, Z_to_string n = String c r
         ∧ is_number_char c = true
         ∧ Routes.all_chars is_number_char r = true
         ∧ no_leading_zero (String c r) = true.
Proof.
  assert (Hd : ∀ d, Routes.all_chars is_number_char
                      (NilEmpty.string_of_uint d) = true).
  { intros d. apply (all_chars_mono is_digit); [|apply uint_digits].
    intros c Hc. unfold is_number_char. now rewrite Hc. }
  unfold Z_to_string. destruct n as [|p|p]; simpl.
  - now exists "0"%char, "".
  - pose proof (DecimalPos.Unsigned.to_uint_nonnil p) as Hnil.
    pose proof (to_uint_head p) as Hhead. specialize (Hd (Pos.to_uint p)).
    destruct (Pos.to_uint p) as [|d|d|d|d|d|d|d|d|d|d];
      [easy | now destruct (Hhead d) | ..];
      simpl in *; (eexists _, _; split; [reflexivity|]);
      repeat split; try assumption; now destruct d.
  - pose proof (DecimalPos.Unsigned.to_uint_nonnil p) as Hnil.
    pose proof (to_uint_head p) as Hhead. specialize (Hd (Pos.to_uint p)).
    exists "-"%char, (NilEmpty.string_of_uint (Pos.to_uint p)).
    repeat split; [| assumption |].
    + now destruct (Pos.to_uint p).
    + destruct (Pos.to_uint p) as [|d|d|d|d|d|d|d|d|d|d];
        [easy | now destruct (Hhead d) | ..]; now destruct d.
Qed.

Lemma int_of_Z_to_string (n : Z) :
  NilZero.int_of_string (Z_to_string n) = Some (Z.to_int n).
Proof.
  apply NilZero.isi; destruct n as [|p|p]; simpl; try discriminate;
    intros [= E]; now apply (DecimalPos.Unsigned.to_uint_nonnil p).
Qed.

(** What follows a value inside a document, or ends the text. *)
Definition delimited (rest : string) : bool :=
  match rest with
  | EmptyString => true
  | String c _ => Ascii.eqb c "," || Ascii.eqb c "]" || Ascii.eqb c "}"
  end.

Lemma delimited_head (c : ascii) (r : string) :
  delimited (String c r) = true →
  is_number_char c = false ∧ integer_ends (String c r) = true.
Proof.
  simpl. intros H.
  repeat (apply orb_true_iff in H as [H|H]);
    apply Ascii.eqb_eq in H; subst c; now split.
Qed.

Lemma parse_number_stringify (n : Z) (rest : string) :
  delimited rest = true →
  parse_number (Z_to_string n ++ rest) = Some (JNum n, rest).
Proof.
  intros Hrest. unfold parse_number.
  destruct (Z_to_string_shape n) as (c & r & E & Hc & Hr & Hz).
  rewrite span_append.
  - rewrite int_of_Z_to_string, DecimalZ.of_to, E, Hz.
    destruct rest as [|x rest]; [reflexivity |].
    now destruct (delimited_head _ _ Hrest) as [_ ->].
  - rewrite E. simpl. now rewrite Hc, Hr.
  - destruct rest as [|x rest]; [exact I |].
    now destruct (delimited_head _ _ Hrest).
Qed.

Lemma number_char_not_ws (c : ascii) :
  is_number_char c = true → is_ws c = false.
Proof. destruct c as [[] [] [] [] [] [] [] []]; (reflexivity || discriminate). Qed.

(** *** The round trip *)

(** Fuel that is enough to read a document back. *)
Fixpoint need (v : json) : nat :=
  match v with
  | JArr l => S (sum_list (map (λ x, S (need x)) l))
  | JObj fs => S (sum_list (map (λ kv, S (need kv.2)) fs))
  | _ => 1
  end.

(** A printed document starts with a character that is neither white
    space nor a closing bracket. *)
Lemma stringify_head (v : json) :
  ∃ c r, stringify v = String c r ∧ is_ws c = false
         ∧ Ascii.eqb "]" c = false ∧ Ascii.eqb "}" c = false.
Proof.
  destruct v as [|[]|n|s|l|fs]; simpl; try (eexists _, _; now split).
  destruct (Z_to_string_shape n) as (c & r & -> & Hc & _).
  exists c, r. split; [reflexivity|].
  split; [now apply number_char_not_ws|].
  revert Hc. clear. destruct c as [[] [] [] [] [] [] [] []]; now intros.
Qed.

Lemma concat_cons (x : string) (l : list string) :
  String.concat "," (x :: l) =
  x ++ match l with [] => "" | _ => String "," (String.concat "," l) end.
Proof.
  destruct l; simpl; [|reflexivity].
  induction x as [|c x IH]; simpl; [reflexivity | now f_equal].
Qed.

Definition reads_back (v : json) : Prop :=
  ∀ fuel rest, (need v ≤ fuel)%nat → delimited rest = true →
    parse_value fuel (stringify v ++ rest) = Some (v, rest).

Lemma parse_elements_stringify (l : list json) :
  Forall reads_back l → l ≠ [] →
  ∀ fuel rest, (sum_list (map (λ x, S (need x)) l) ≤ fuel)%nat →
    parse_elements fuel (String.concat "," (map stringify l) ++ String "]" rest)
    = Some (l, rest).
Proof.
  induction 1 as [|x l Hx Hl IH]; [easy|]. intros _ fuel rest Hfuel.
  simpl in Hfuel.
  destruct fuel as [|fuel]; [lia|].
  cbn [map]. rewrite concat_cons, append_assoc.
  cbn [parse_elements].
  destruct l as [|y l]; cbn [map] in IH |- *.
  - change ("" ++ String "]" rest) with (String "]" rest).
    rewrite (Hx fuel (String "]" rest)); [reflexivity | lia | reflexivity].
  - change (String "," ?a ++ ?b) with (String "," (a ++ b)).
    specialize (IH ltac:(easy) fuel rest ltac:(simpl in *; lia)).
    set (tail := String.concat "," _ ++ _) in *.
    rewrite (Hx fuel); [| simpl in *; lia | reflexivity].
    simpl. now rewrite IH.
Qed.

Lemma parse_members_stringify (fs : list (string * json)) :
  Forall (λ kv, reads_back kv.2) fs → fs ≠ [] →
  ∀ fuel rest, (sum_list (map (λ kv, S (need kv.2)) fs) ≤ fuel)%nat →
    parse_members fuel
      (String.concat "," (map (λ kv, quote kv.1 ++ ":" ++ stringify kv.2) fs)
       ++ String "}" rest)
    = Some (fs, rest).
Proof.
  induction 1 as [|[k x] fs Hx Hfs IH]; [easy|]. intros _ fuel rest Hfuel.
  simpl in Hfuel, Hx.
  destruct fuel as [|fuel]; [lia|].
  cbn [map fst snd]. rewrite concat_cons.
  unfold quote at 1. rewrite !append_assoc.
  cbn [parse_members].
  change (String dquote ?a ++ ?b) with (String dquote (a ++ b)).
  rewrite !append_assoc.
  change (String dquote ?a ++ ?b) with (String dquote (a ++ b)).
  change ("" ++ ?b) with b.
  change (":" ++ ?b) with (String ":" b).
  set (tail := stringify x ++ _).
  cbn [skip_ws is_ws]. simpl after at 1.
  cbv beta iota. rewrite parse_chars_quote. simpl. subst tail.
  destruct fs as [|kv fs]; cbn [map] in IH |- *.
  - change ("" ++ String "}" rest) with (String "}" rest).
    rewrite (Hx fuel (String "}" rest)); [reflexivity | lia | reflexivity].
  - change (String "," ?a ++ ?b) with (String "," (a ++ b)).
    specialize (IH ltac:(easy) fuel rest ltac:(simpl in *; lia)).
    set (tail := String.concat "," _ ++ _) in *.
    rewrite (Hx fuel); [| simpl in *; lia | reflexivity].
    simpl. now rewrite IH.
Qed.

Lemma parse_value_stringify (v : json) : reads_back v.
Proof.
  induction v as [|b|n|s|l IH|fs IH] using json_ind';
    intros fuel rest Hfuel Hrest;
    (destruct fuel as [|fuel]; [simpl in Hfuel; lia|]).
  - reflexivity.
  - now destruct b.
  - destruct (Z_to_string_shape n) as (c & r & E & Hc & _).
    cbn [stringify parse_value]. rewrite E. cbn [String.append skip_ws].
    rewrite (number_char_not_ws c Hc), Hc.
    change (String c (r ++ rest)) with (String c r ++ rest).
    rewrite <- E. now apply parse_number_stringify.
  - cbn [stringify]. unfold quote. cbn [String.append].
    rewrite append_assoc. cbn [String.append].
    cbn [parse_value skip_ws]. simpl. now rewrite parse_chars_quote.
  - cbn [stringify need] in *. rewrite !append_assoc.
    change ("[" ++ ?a) with (String "[" a).
    change ("]" ++ ?a) with (String "]" a).
    destruct l as [|x l]; [reflexivity|].
    pose proof (parse_elements_stringify (x :: l) IH ltac:(easy) fuel rest
                  ltac:(lia)) as Hp.
    set (tail := String.concat "," _ ++ _) in *.
    assert (Hopen : after "]" (skip_ws tail) = None).
    { subst tail. destruct (stringify_head x) as (c & r & E & Hws & Hc & _).
      cbn [map]. rewrite concat_cons, E. cbn [String.append skip_ws].
      rewrite Hws. cbn [after]. now rewrite Hc. }
    simpl. now rewrite Hopen, Hp.
  - cbn [stringify need] in *. rewrite !append_assoc.
    change ("{" ++ ?a) with (String "{" a).
    change ("}" ++ ?a) with (String "}" a).
    destruct fs as [|[k x] fs]; [reflexivity|].
    pose proof (parse_members_stringify ((k, x) :: fs) IH ltac:(easy) fuel rest
                  ltac:(lia)) as Hp.
    set (tail := String.concat "," _ ++ _) in *.
    assert (Hopen : after "}" (skip_ws tail) = None).
    { subst tail. cbn [map fst]. rewrite concat_cons. unfold quote at 1.
      reflexivity. }
    simpl. now rewrite Hopen, Hp.
Qed.

Lemma need_length (v : json) : (need v ≤ String.length (stringify v))%nat.
Proof.
  induction v as [|b|n|s|l IH|fs IH] using json_ind'; cbn [need stringify].
  - simpl; lia.
  - destruct b; simpl; lia.
  - destruct (Z_to_string_shape n) as (c & r & -> & _). simpl; lia.
  - simpl; lia.
  - rewrite !length_append.
    change (String.length "[") with 1%nat. change (String.length "]") with 1%nat.
    enough (sum_list (map (λ x, S (need x)) l)
            ≤ String.length (String.concat "," (map stringify l)) + 1)%nat by lia.
    induction IH as [|x l Hx _ IHl]; [simpl; lia|].
    cbn [map]. rewrite concat_cons, length_append.
    destruct l; simpl in *; lia.
  - rewrite !length_append.
    change (String.length "{") with 1%nat. change (String.length "}") with 1%nat.
    enough (sum_list (map (λ kv, S (need kv.2)) fs)
            ≤ String.length
                (String.concat ","
                   (map (λ kv, quote kv.1 ++ ":" ++ stringify kv.2) fs)) + 1)%nat
      by lia.
    induction IH as [|[k x] fs Hx _ IHfs]; [simpl; lia|].
    cbn [map fst snd] in *. rewrite concat_cons, !length_append.
    destruct fs; simpl in *; lia.
Qed.

Theorem parse_stringify (v : json) : parse (stringify v) = Ok v.
Proof.
  unfold parse.
  pose proof (parse_value_stringify v (S (String.length (stringify v))) ""
                ltac:(pose proof (need_length v); lia) eq_refl) as Hp.
  replace (stringify v ++ "") with (stringify v) in Hp.
  - now rewrite Hp.
  - clear. induction (stringify v) as [|c s IH]; simpl; [reflexivity | now f_equal].
Qed.

(** *** Dates *)

(** Days since the epoch of a civil date, and back (proleptic Gregorian
    calendar). *)
Definition days_from_civil (y m d : Z) : Z :=
  let y := if m <=? 2 then y - 1 else y in
  let era := y / 400 in
  let yoe := y - era * 400 in
  let doy := (153 * (if 2 <? m then m - 3 else m + 9) + 2) / 5 + d - 1 in
  let doe := yoe * 365 + yoe / 4 - yoe / 100 + doy in
  era * 146097 + doe - 719468.

Definition civil_from_days (z : Z) : Z * Z * Z :=
  let z := z + 719468 in
  let era := z / 146097 in
  let doe := z - era * 146097 in
  let yoe := (doe - doe / 1460 + doe / 36524 - doe / 146096) / 365 in
  let doy := doe - (365 * yoe + yoe / 4 - yoe / 100) in
  let mp := (5 * doy + 2) / 153 in
  let d := doy - (153 * mp + 2) / 5 + 1 in
  let m := if mp <? 10 then mp + 3 else mp - 9 in
  (yoe + era * 400 + (if m <=? 2 then 1 else 0), m, d).

(** [n] in decimal, padded with zeros to [width] digits. *)
Definition pad (width : nat) (n : Z) : string :=
  let s := Z_to_string n in
  String.concat "" (replicate (width - String.length s) "0") ++ s.

Definition iso_string (t : Z) : string :=
  let '(y, m, d) := civil_from_days (t / 86400000) in
  let ms := t mod 86400000 in
  (if (0 <=? y) && (y <=? 9999) then pad 4 y
   else (if y <? 0 then "-" else "+") ++ pad 6 (Z.abs y))
  ++ "-" ++ pad 2 m ++ "-" ++ pad 2 d
  ++ "T" ++ pad 2 (ms / 3600000) ++ ":" ++ pad 2 (ms / 60000 mod 60)
  ++ ":" ++ pad 2 (ms / 1000 mod 60) ++ "." ++ pad 3 (ms mod 1000) ++ "Z".

(** The first [n] characters as a decimal number, and the rest. *)
Fixpoint take_digits (n : nat) (acc : Z) (s : string) : option (Z * string) :=
  match n, s with
  | O, _ => Some (acc, s)
  | S n, String c r =>
      if is_digit c
      then take_digits n (10 * acc + (Z.of_nat (nat_of_ascii c) - 48)) r
      else None
  | S _, EmptyString => None
  end.

Definition days_in_month (y m : Z) : Z :=
  days_from_civil (if m =? 12 then y + 1 else y) (if m =? 12 then 1 else m + 1) 1
  - days_from_civil y m 1.

(** [Date.parse] of the format that [toISOString] writes,
    [YYYY-MM-DDTHH:mm:ss.sssZ], which is the format of every expiry the
    worker stores.  An engine parses more forms (a date without a time, for
    one); here any other text is an invalid date, and the reference runtime
    is run on texts of this format only. *)
Definition date_parse (s : string) : number :=
  y ← take_digits 4 0 s;
  r ← after "-" y.2; m ← take_digits 2 0 r;
  r ← after "-" m.2; d ← take_digits 2 0 r;
  r ← after "T" d.2; h ← take_digits 2 0 r;
  r ← after ":" h.2; mi ← take_digits 2 0 r;
  r ← after ":" mi.2; sec ← take_digits 2 0 r;
  r ← after "." sec.2; ms ← take_digits 3 0 r;
  r ← after "Z" ms.2;
  if String.eqb r ""
     && (1 <=? m.1) && (m.1 <=? 12)
     && (1 <=? d.1) && (d.1 <=? days_in_month y.1 m.1)
     && (h.1 <? 24) && (mi.1 <? 60) && (sec.1 <? 60)
  then Some (days_from_civil y.1 m.1 d.1 * 86400000
             + h.1 * 3600000 + mi.1 * 60000 + sec.1 * 1000 + ms.1)
  else None.

(** *** Number(text) *)

(** [Number(s)] for the decimal integers: white space around the digits
    is dropped, the empty text is 0, any other text is [NaN] here. *)
Definition string_to_number (s : string) : number :=
  let s := skip_spaces s in
  let '(tok, rest) := Routes.span is_number_char s in
  if String.eqb (skip_spaces rest) "" then
    if String.eqb tok "" then Some 0
    else Z.of_int <$> NilZero.int_of_string tok
  else None.

(** *** decodeURIComponent *)

(** The escape [%XY] at the head of a text: its byte, and what follows. *)
Definition escape_byte (s : string) : option (N * string) :=
  match s with
  | String "%" (String a (String b r)) =>
      x ← hex_value a; y ← hex_value b; Some ((16 * x + y)%N, r)
  | _ => None
  end.

(** For the first byte of a UTF-8 sequence: how many bytes follow, and
    the range of the first of them. *)
Definition utf8_lead (b : N) : option (nat * N * N) :=
  (if b <? 194 then None
   else if b <=? 223 then Some (1%nat, 128, 191)
   else if b =? 224 then Some (2%nat, 160, 191)
   else if b =? 237 then Some (2%nat, 128, 159)
   else if b <=? 239 then Some (2%nat, 128, 191)
   else if b =? 240 then Some (3%nat, 144, 191)
   else if b <=? 243 then Some (3%nat, 128, 191)
   else if b =? 244 then Some (3%nat, 128, 143)
   else None)%N.

(** [n] escaped continuation bytes, the first one within [lo..hi]. *)
Fixpoint continuation (n : nat) (lo hi : N) (s : string)
  : option (string * string) :=
  match n with
  | O => Some ("", s)
  | S n =>
      match escape_byte s with
      | Some (b, r) =>
          if ((lo <=? b) && (b <=? hi))%N then
            match continuation n 128 191 r with
            | Some (t, rest) => Some (String (ascii_of_N b) t, rest)
            | None => None
            end
          else None
      | None => None
      end
  end.

Fixpoint decode (fuel : nat) (s : string) : option string :=
  match fuel with
  | O => None
  | S fuel =>
      match s with
      | EmptyString => Some ""
      | String c r =>
          if Ascii.eqb c "%" then
            match escape_byte s with
            | Some (b, r') =>
                if (b <? 128)%N then String (ascii_of_N b) <$> decode fuel r'
                else
                  match utf8_lead b with
                  | Some (n, lo, hi) =>
                      match continuation n lo hi r' with
                      | Some (t, rest) =>
                          (λ d, String (ascii_of_N b) t ++ d) <$> decode fuel rest
                      | None => None
                      end
                  | None => None
                  end
            | None => None
            end
          else String c <$> decode fuel r
      end
  end.

Definition decode_uri (s : string) : result string :=
  match decode (S (String.length s)) s with
  | Some t => Ok t
  | None => Throw "URI malformed"
  end.

(** *** atob *)

Definition base64_value (c : ascii) : option N :=
  let n := N_of_ascii c in
  (if is_upper c then Some (n - 65)
   else if is_lower c then Some (n - 71)
   else if is_digit c then Some (n + 4)
   else if Ascii.eqb c "+" then Some 62
   else if Ascii.eqb c "/" then Some 63
   else None)%N.

Fixpoint remove_spaces (s : string) : string :=
  match s with
  | String c r =>
      if is_ws c || (nat_of_ascii c =? 12)%nat then remove_spaces r
      else String c (remove_spaces r)
  | EmptyString => ""
  end.

(** Up to two [=] at the end go when the length is a multiple of four. *)
Definition remove_padding (s : string) : string :=
  let n := String.length s in
  if (n mod 4 =? 0)%nat then
    if String.eqb (substring (n - 2) 2 s) "==" then substring 0 (n - 2) s
    else if String.eqb (substring (n - 1) 1 s) "=" then substring 0 (n - 1) s
    else s
  else s.

(** Six bits at a time into [acc], which holds [bits] bits; a byte is
    written as soon as there are eight. *)
Fixpoint base64_bytes (acc : N) (bits : N) (s : string) : option string :=
  match s with
  | EmptyString => Some ""
  | String c r =>
      match base64_value c with
      | Some v =>
          let acc := (acc * 64 + v)%N in
          let bits := (bits + 6)%N in
          if (8 <=? bits)%N then
            let k := (2 ^ (bits - 8))%N in
            String (ascii_of_N (acc / k)) <$> base64_bytes (acc mod k) (bits - 8) r
          else base64_bytes acc bits r
      | None => None
      end
  end.

Definition decode_base64 (s : string) : result string :=
  let s := remove_padding (remove_spaces s) in
  if (String.length s mod 4 =? 1)%nat then Throw "Invalid character"
  else match base64_bytes 0 0 s with
       | Some t => Ok t
       | None => Throw "Invalid character"
       end.

(** *** The instance *)

Definition runtime : Platform :=
  {| JSON_parse := parse;
     JSON_stringify := stringify;
     JSON_parse_stringify := parse_stringify;
     Date_parse := date_parse;
     Date_toISOString := iso_string;
     StringToNumber := string_to_number;
     decodeURIComponent := decode_uri;
     atob := decode_base64 |}.

End Ref.

(** * Properties *)

(** ** Paths and keys *)

(** A session identifier as the routes accept it: one or more letters and
    digits. *)
Definition valid_id (id : string) : bool :=
  negb (String.eqb id "") && Routes.all_chars Routes.is_alnum id.

Section Keys.
Import Routes.

Lemma strip_prefix_app (p s : string) : strip_prefix p (p ++ s) = Some s.
Proof.
  induction p as [|c p IH]; simpl; [now destruct s|].
  now rewrite Ascii.eqb_refl.
Qed.

Lemma strip_prefix_Some (p s r : string) :
  strip_prefix p s = Some r → s = p ++ r.
Proof.
  revert s. induction p as [|c p IH]; intros s; simpl.
  - now intros [= ->].
  - destruct s as [|d s]; [discriminate|].
    destruct (Ascii.eqb_spec c d) as [->|]; [|discriminate].
    intros Hs. now rewrite (IH _ Hs).
Qed.

Lemma span_spec (p : ascii → bool) (s a b : string) :
  span p s = (a, b) → s = a ++ b ∧ all_chars p a = true.
Proof.
  revert a b. induction s as [|c s IH]; intros a b; simpl.
  - now intros [= <- <-].
  - destruct (p c) eqn:Hc; [|now intros [= <- <-]].
    destruct (span p s) as [a' b'] eqn:Hs. intros [= <- <-].
    destruct (IH _ _ eq_refl) as [-> Ha]. simpl. now rewrite Hc, Ha.
Qed.

(** A path of the form [/api/session/<id><rest>] is read back as [id] and
    [rest] when [rest] starts with no letter or digit. *)
Lemma session_prefix_app (id rest : string) :
  valid_id id = true →
  match rest with String c _ => is_alnum c = false | EmptyString => True end →
  session_prefix ("/api/session/" ++ id ++ rest) = Some (id, rest).
Proof.
  intros [Hne Hid]%andb_true_iff Hrest. unfold session_prefix.
  rewrite strip_prefix_app, (span_append _ _ _ Hid Hrest).
  now destruct (String.eqb id "").
Qed.

Lemma session_prefix_valid (path id rest : string) :
  session_prefix path = Some (id, rest) →
  valid_id id = true ∧ path = "/api/session/" ++ id ++ rest.
Proof.
  unfold session_prefix, valid_id.
  destruct (strip_prefix _ path) as [r|] eqn:Hp; [|discriminate].
  destruct (span is_alnum r) as [a b] eqn:Hs.
  destruct (String.eqb a "") eqn:Ha; [discriminate|]. intros [= <- <-].
  apply strip_prefix_Some in Hp. apply span_spec in Hs as [-> Hs].
  now rewrite Ha, Hs.
Qed.

(** Two identifiers followed by a slash: they are equal when the texts
    are. *)
Lemma alnum_split (a b x y : string) :
  all_chars is_alnum a = true → all_chars is_alnum b = true →
  a ++ String "/" x = b ++ String "/" y → a = b ∧ x = y.
Proof.
  revert b. induction a as [|c a IH]; intros [|d b]; simpl.
  - now intros _ _ [= ->].
  - intros _ [Hd _]%andb_true_iff [= <- _]. discriminate.
  - intros [Hc _]%andb_true_iff _ [= -> _]. discriminate.
  - intros [_ Ha]%andb_true_iff [_ Hb]%andb_true_iff [= -> E].
    now destruct (IH _ Ha Hb E) as [-> ->].
Qed.

Lemma metaKey_inj (a b : string) :
  valid_id a = true → valid_id b = true → metaKey a = metaKey b → a = b.
Proof.
  intros [_ Ha]%andb_true_iff [_ Hb]%andb_true_iff [= E].
  now destruct (alnum_split _ _ _ _ Ha Hb E).
Qed.

(** No photo and no thumbnail is stored under the key of a session
    document, whatever its file name. *)
Lemma photoKey_not_meta (a b fname : string) :
  valid_id a = true → valid_id b = true → photoKey a fname ≠ metaKey b.
Proof.
  intros [_ Ha]%andb_true_iff [_ Hb]%andb_true_iff [= E].
  now destruct (alnum_split _ _ _ _ Ha Hb E) as [_ [=]].
Qed.

Lemma thumbKey_not_meta (a b fname : string) :
  valid_id a = true → valid_id b = true → thumbKey a fname ≠ metaKey b.
Proof.
  intros [_ Ha]%andb_true_iff [_ Hb]%andb_true_iff [= E].
  now destruct (alnum_split _ _ _ _ Ha Hb E) as [_ [=]].
Qed.

End Keys.

Section Matching.
Import Routes.

Lemma append_nil_r (s : string) : s ++ "" = s.
Proof. induction s as [|c s IH]; simpl; [reflexivity | now f_equal]. Qed.

Lemma sessionMatch_app (id : string) :
  valid_id id = true → sessionMatch ("/api/session/" ++ id) = Some id.
Proof.
  intros Hid. unfold sessionMatch.
  rewrite <- (append_nil_r id) at 1. now rewrite session_prefix_app.
Qed.

Lemma uploadMatch_app (id : string) :
  valid_id id = true → uploadMatch ("/api/session/" ++ id ++ "/upload") = Some id.
Proof. intros Hid. unfold uploadMatch. now rewrite session_prefix_app. Qed.

Lemma photoMatch_app (id raw : string) :
  valid_id id = true → raw ≠ "" → all_chars is_dot raw = true →
  photoMatch ("/api/session/" ++ id ++ "/photo/" ++ raw) = Some (id, raw).
Proof.
  intros Hid Hne Hraw. unfold photoMatch, rest_match.
  rewrite session_prefix_app by easy.
  rewrite strip_prefix_app, Hraw.
  now destruct (String.eqb_spec raw "").
Qed.

Lemma thumbMatch_app (id raw : string) :
  valid_id id = true → raw ≠ "" → all_chars is_dot raw = true →
  thumbMatch ("/api/session/" ++ id ++ "/thumb/" ++ raw) = Some (id, raw).
Proof.
  intros Hid Hne Hraw. unfold thumbMatch, rest_match.
  rewrite session_prefix_app by easy.
  rewrite strip_prefix_app, Hraw.
  now destruct (String.eqb_spec raw "").
Qed.

(** A path of one route is a path of no other. *)
Lemma upload_path_only (id : string) :
  valid_id id = true →
  let path := "/api/session/" ++ id ++ "/upload" in
  String.eqb path "/api/session" = false ∧ sessionMatch path = None.
Proof.
  intros Hid path. split.
  - apply String.eqb_neq. subst path. intros [=].
  - unfold sessionMatch. subst path. now rewrite session_prefix_app.
Qed.

Lemma thumb_path_only (id raw : string) :
  valid_id id = true →
  let path := "/api/session/" ++ id ++ "/thumb/" ++ raw in
  sessionMatch path = None ∧ uploadMatch path = None ∧ photoMatch path = None.
Proof.
  intros Hid path. unfold sessionMatch, uploadMatch, photoMatch. subst path.
  rewrite session_prefix_app by easy. now repeat split.
Qed.

Lemma photo_path_only (id raw : string) :
  valid_id id = true →
  let path := "/api/session/" ++ id ++ "/photo/" ++ raw in
  sessionMatch path = None ∧ uploadMatch path = None.
Proof.
  intros Hid path. unfold sessionMatch, uploadMatch. subst path.
  rewrite session_prefix_app by easy. now split.
Qed.

Lemma sessionMatch_valid (path id : string) :
  sessionMatch path = Some id → valid_id id = true.
Proof.
  unfold sessionMatch.
  destruct (session_prefix path) as [[a r]|] eqn:Hp; [|discriminate].
  destruct (String.eqb r ""); [|discriminate]. intros [= <-].
  now apply session_prefix_valid in Hp.
Qed.

Lemma uploadMatch_valid (path id : string) :
  uploadMatch path = Some id → valid_id id = true.
Proof.
  unfold uploadMatch.
  destruct (session_prefix path) as [[a r]|] eqn:Hp; [|discriminate].
  destruct (String.eqb r "/upload"); [|discriminate]. intros [= <-].
  now apply session_prefix_valid in Hp.
Qed.

End Matching.

(** ** Properties of documents *)

Lemma lookup_assign_eq (k : string) (v : json) (fs : list (string * json)) :
  lookup_field k (assign_field k v fs) = Some v.
Proof.
  induction fs as [|[k' v'] fs IH]; simpl.
  - now rewrite String.eqb_refl.
  - destruct (String.eqb_spec k k') as [->|Hk]; simpl.
    + now rewrite String.eqb_refl.
    + now destruct (String.eqb_spec k k').
Qed.

Lemma lookup_assign_ne (k k' : string) (v : json) (fs : list (string * json)) :
  k ≠ k' → lookup_field k' (assign_field k v fs) = lookup_field k' fs.
Proof.
  intros Hne. induction fs as [|[k0 v0] fs IH]; simpl.
  - now destruct (String.eqb_spec k' k) as [->|].
  - destruct (String.eqb_spec k k0) as [->|Hk]; simpl.
    + now destruct (String.eqb_spec k' k0) as [->|].
    + now rewrite IH.
Qed.

(** ** How a request reaches its route *)

Section Dispatch.
Context `{Platform}.

(** The [catch] of the entry point, applied to the outcome of a route. *)
Definition answer (o : result Response * R2) : Response * R2 :=
  match o with
  | (Ok response, st) => (response, st)
  | (Throw message, st) =>
      (errorResponse ("Internal server error: " ++ message) 500, st)
  end.

Lemma fetch_answer (w : World) (env : Env) (req : Request) (st : R2) :
  String.eqb (method req) "OPTIONS" = false →
  fetch w env req st = answer (route w env req st).
Proof.
  intros Hm. unfold fetch, answer. rewrite Hm.
  now destruct (route w env req st) as [[r|m] st'].
Qed.

Lemma fetch_createSession (w : World) (env : Env) (req : Request) (st : R2) :
  method req = "POST" → pathname req = "/api/session" →
  fetch w env req st = answer (createSession w env req st).
Proof.
  intros Hm Hp. rewrite fetch_answer by now rewrite Hm.
  unfold route. now rewrite Hm, Hp.
Qed.

Lemma fetch_getSession (w : World) (env : Env) (req : Request) (st : R2)
    (id : string) :
  method req = "GET" → pathname req = "/api/session/" ++ id →
  valid_id id = true →
  fetch w env req st = answer (getSession w id st).
Proof.
  intros Hm Hp Hid. rewrite fetch_answer by now rewrite Hm.
  unfold route. rewrite Hm, Hp, andb_false_r, sessionMatch_app by easy.
  reflexivity.
Qed.

Lemma fetch_uploadPhoto (w : World) (env : Env) (req : Request) (st : R2)
    (id : string) :
  method req = "POST" → pathname req = "/api/session/" ++ id ++ "/upload" →
  valid_id id = true →
  fetch w env req st = answer (uploadPhoto env req id st).
Proof.
  intros Hm Hp Hid. rewrite fetch_answer by now rewrite Hm.
  unfold route. rewrite Hm, Hp.
  destruct (upload_path_only id Hid) as [-> ->].
  now rewrite uploadMatch_app.
Qed.

Lemma fetch_getPhoto (w : World) (env : Env) (req : Request) (st : R2)
    (id raw : string) :
  method req = "GET" →
  pathname req = "/api/session/" ++ id ++ "/photo/" ++ raw →
  valid_id id = true → raw ≠ "" → Routes.all_chars Routes.is_dot raw = true →
  fetch w env req st = answer (getPhoto id raw st).
Proof.
  intros Hm Hp Hid Hne Hraw. rewrite fetch_answer by now rewrite Hm.
  unfold route. rewrite Hm, Hp, andb_false_r.
  destruct (photo_path_only id raw Hid) as [-> ->].
  now rewrite photoMatch_app.
Qed.

Lemma fetch_getThumb (w : World) (env : Env) (req : Request) (st : R2)
    (id raw : string) :
  method req = "GET" →
  pathname req = "/api/session/" ++ id ++ "/thumb/" ++ raw →
  valid_id id = true → raw ≠ "" → Routes.all_chars Routes.is_dot raw = true →
  fetch w env req st = answer (getThumb id raw st).
Proof.
  intros Hm Hp Hid Hne Hraw. rewrite fetch_answer by now rewrite Hm.
  unfold route. rewrite Hm, Hp, andb_false_r.
  destruct (thumb_path_only id raw Hid) as (-> & -> & ->).
  now rewrite thumbMatch_app.
Qed.

End Dispatch.

(** ** Sample data

    A clock, a configuration, requests and buckets to run the worker on,
    with the reference runtime. *)

Module Sample.

(** 14 November 2023, 22:13:20 UTC. *)
Definition world : World :=
  {| clock := λ _, 1700000000000; random_byte := λ _, Byte.x00 |}.

(** No variable is set: every limit has its default. *)
Definition defaults : Env :=
  {| SESSION_TTL_DAYS := None;
     MAX_PHOTOS_PER_SESSION := None;
     MAX_FILE_SIZE_MB := None |}.

Definition get (path : string) : Request :=
  {| method := "GET"; pathname := path;
     request_json := Throw "Unexpected end of JSON input";
     request_formData := Throw "Unrecognized Content-Type header value" |}.

Definition post_json (path : string) (data : json) : Request :=
  {| method := "POST"; pathname := path;
     request_json := Ok data;
     request_formData := Throw "Unrecognized Content-Type header value" |}.

Definition post_form (path : string) (form : FormData) : Request :=
  {| method := "POST"; pathname := path;
     request_json := Throw "Unexpected token in JSON";
     request_formData := Ok form |}.

(** Two expiry timestamps: one some days before the clock of [world],
    one some days after it. *)
Definition expired : string := "2023-11-08T00:00:00.000Z".
Definition current : string := "2023-11-21T00:00:00.000Z".

(** A configuration with both limits set. *)
Definition limits (photos megabytes : string) : Env :=
  {| SESSION_TTL_DAYS := None;
     MAX_PHOTOS_PER_SESSION := Some photos;
     MAX_FILE_SIZE_MB := Some megabytes |}.

(** The document of session [abc]. *)
Definition document (expiresAt : string) (count : Z) (photos : list json) : json :=
  JObj [("id", JStr "abc"); ("title", JStr "Wedding");
        ("photographer", JStr ""); ("groups", JArr []);
        ("createdAt", JStr "2023-11-01T00:00:00.000Z");
        ("expiresAt", JStr expiresAt);
        ("photoCount", JNum count); ("photos", JArr photos)].

Definition record (fname : string) : json :=
  JObj [("fname", JStr fname); ("groupId", JStr ""); ("size", JNum 4);
        ("type", JStr "image/jpeg")].

Definition two_photos : list json := [record "a.jpg"; record "b.jpg"].

Definition text_object (text : string) : R2Object :=
  {| body := text; contentType := Some "application/json";
     customMetadata := [] |}.

(** A bucket with the one session [abc] and no photo. *)
Definition bucket (expiresAt : string) (count : Z) (photos : list json) : R2 :=
  {[ metaKey "abc" :=
       text_object (Ref.stringify (document expiresAt count photos)) ]}.

(** A file whose reported size is [size]; its bytes are cut short. *)
Definition jpeg (name : string) (size : Z) : File :=
  {| file_name := name; file_size := size; file_type := "image/jpeg";
     file_bytes := "JFIF" |}.

Definition form (file : option FormValue) (fname : option string) : FormData :=
  {| form_file := file; form_fname := fname;
     form_groupId := None; form_thumb := None |}.

(** An upload to session [abc]. *)
Definition upload (file : option FormValue) (fname : option string) : Request :=
  post_form "/api/session/abc/upload" (form file fname).

End Sample.

(** ** The operations *)

Section Operations.
Context `{Platform}.

(** *** GetSession *)

(** C5.  Reading a session whose stored document is well formed and whose
    expiry timestamp is before the current time fails with status 410
    (Expired), and the bucket is left as it was: nothing is deleted or
    written. *)
Theorem getSession_expired (w : World) (env : Env) (req : Request) (st : R2)
    (id : string) (obj : R2Object) (meta : json) (expiresAt : string) (t : Z) :
  method req = "GET" → pathname req = "/api/session/" ++ id →
  valid_id id = true →
  st !! metaKey id = Some obj →
  JSON_parse (body obj) = Ok meta →
  get_prop meta "expiresAt" = Ok (Some (JStr expiresAt)) →
  Date_parse expiresAt = Some t →
  t < clock w 0 →
  fetch w env req st = (errorResponse "Session expired" 410, st).
Proof.
  intros Hm Hp Hid Hobj Hmeta Hexp Ht Hlt.
  rewrite (fetch_getSession w env req st id Hm Hp Hid).
  unfold getSession, bind, R2_get, lift, ret. rewrite Hobj, Hmeta, Hexp.
  cbn [new_Date]. rewrite Ht. unfold num_lt.
  now rewrite (proj2 (Z.ltb_lt _ _) Hlt).
Qed.

(** The response of the catch-all: what any exception of a route is
    answered with. *)
Definition internal_error (r : Response) : Prop :=
  ∃ message, r = errorResponse ("Internal server error: " ++ message) 500.

(** C6, as the worker has it.  The worker has no error kind for a stored
    document that is malformed, and makes no check that the stored bytes are
    a session document.  For the bytes under the key of the session:
    - when they are not JSON, the exception of the parser reaches the
      catch-all: status 500 and the parser's message after
      ["Internal server error: "];
    - when they are the JSON value [null], the read of [expiresAt] throws
      and reaches the catch-all in the same way;
    - when they are a boolean, a number, a text or an array, or an object
      without [expiresAt], they are returned as they are with status 200;
    - when they are an object whose [expiresAt] is a date, that date alone
      decides: status 410 when it is before the clock, and otherwise the
      object as it is with status 200, whatever its other fields.
    The bucket is left as it was in every case. *)
Theorem getSession_unchecked (w : World) (env : Env) (req : Request) (st : R2)
    (id : string) (obj : R2Object) :
  method req = "GET" → pathname req = "/api/session/" ++ id →
  valid_id id = true →
  st !! metaKey id = Some obj →
  (∀ message,
     JSON_parse (body obj) = Throw message →
     fetch w env req st
     = (errorResponse ("Internal server error: " ++ message) 500, st))
  ∧ (JSON_parse (body obj) = Ok JNull →
     fetch w env req st
     = (errorResponse
          ("Internal server error: "
           ++ "Cannot read properties of null (reading 'expiresAt')") 500,
        st))
  ∧ (∀ meta,
       JSON_parse (body obj) = Ok meta →
       (∃ b, meta = JBool b) ∨ (∃ n, meta = JNum n) ∨ (∃ s, meta = JStr s)
       ∨ (∃ l, meta = JArr l)
       ∨ (∃ fs, meta = JObj fs ∧ lookup_field "expiresAt" fs = None) →
       fetch w env req st = (jsonResponse meta 200, st))
  ∧ (∀ fs expiresAt t,
       JSON_parse (body obj) = Ok (JObj fs) →
       lookup_field "expiresAt" fs = Some (JStr expiresAt) →
       Date_parse expiresAt = Some t →
       fetch w env req st
       = if t <? clock w 0
         then (errorResponse "Session expired" 410, st)
         else (jsonResponse (JObj fs) 200, st)).
Proof.
  intros Hm Hp Hid Hobj.
  rewrite (fetch_getSession w env req st id Hm Hp Hid).
  unfold getSession, bind, R2_get, lift, ret. rewrite Hobj.
  split; [|split; [|split]].
  - now intros message ->.
  - now intros ->.
  - intros meta ->
      [[b ->] | [[n ->] | [[s ->] | [[l ->] | (fs & -> & Hnone)]]]];
      cbn [get_prop answer]; try reflexivity.
    now rewrite Hnone.
  - intros fs expiresAt t -> Hexp Ht. cbn [get_prop]. rewrite Hexp.
    cbn [new_Date]. rewrite Ht. unfold num_lt.
    now destruct (t <? clock w 0).
Qed.

(** *** UploadPhoto: the checks *)

(** C2.  An upload to a session whose photo count has reached the
    configured maximum ([MAX_PHOTOS_PER_SESSION], 50 when it is not set)
    fails with status 429 (QuotaExceeded), the message names the limit, and
    the bucket is left as it was. *)
Theorem upload_quota_exceeded (w : World) (env : Env) (req : Request) (st : R2)
    (id : string) (obj : R2Object) (meta : json) (count limit : Z) :
  method req = "POST" → pathname req = "/api/session/" ++ id ++ "/upload" →
  valid_id id = true →
  st !! metaKey id = Some obj →
  JSON_parse (body obj) = Ok meta →
  get_prop meta "photoCount" = Ok (Some (JNum count)) →
  parseInt (str_or (MAX_PHOTOS_PER_SESSION env) "50") = Some limit →
  limit ≤ count →
  fetch w env req st
  = (errorResponse
       ("Maximum " ++ Z_to_string limit ++ " photos per session") 429, st)
  ∧ (MAX_PHOTOS_PER_SESSION env = None → limit = 50).
Proof.
  intros Hm Hp Hid Hobj Hmeta Hcount Hlimit Hle. split.
  - rewrite (fetch_uploadPhoto w env req st id Hm Hp Hid).
    unfold uploadPhoto, bind, R2_get, lift, ret.
    rewrite Hobj, Hmeta, Hcount, Hlimit. cbn [ToNumber num_ge show_number].
    now rewrite (proj2 (Z.leb_le _ _) Hle).
  - intros Hnone. rewrite Hnone in Hlimit. now injection Hlimit.
Qed.

(** C3, on the worker.  An upload of a file larger than the configured
    maximum ([parseInt] of [MAX_FILE_SIZE_MB] mebibytes, 25 when the variable
    is not set) to a session that exists and is under its quota fails with
    status 400, and nothing is written to the bucket.  The message does not
    show the limit that was applied: line 120 prints the variable itself
    where line 105, for the quota, prints the parsed limit.  With the
    variable not set the limit is 25 and the message reads
    ["File too large (max undefinedMB)"]. *)
Theorem upload_too_large (w : World) (env : Env) (req : Request) (st : R2)
    (id : string) (obj : R2Object) (meta : json) (count : option json)
    (form : FormData) (file : File) (limit : Z) :
  method req = "POST" → pathname req = "/api/session/" ++ id ++ "/upload" →
  valid_id id = true →
  st !! metaKey id = Some obj →
  JSON_parse (body obj) = Ok meta →
  get_prop meta "photoCount" = Ok count →
  num_ge (ToNumber count)
    (parseInt (str_or (MAX_PHOTOS_PER_SESSION env) "50")) = false →
  request_formData req = Ok form →
  form_file form = Some (FFile file) →
  parseInt (str_or (MAX_FILE_SIZE_MB env) "25") = Some limit →
  limit * 1024 * 1024 < file_size file →
  fetch w env req st
  = (errorResponse
       ("File too large (max "
        ++ match MAX_FILE_SIZE_MB env with
           | Some variable => variable
           | None => "undefined"
           end ++ "MB)") 400, st)
  ∧ (MAX_FILE_SIZE_MB env = None →
     limit = 25
     ∧ (fetch w env req st).1
       = errorResponse "File too large (max undefinedMB)" 400).
Proof.
  intros Hm Hp Hid Hobj Hmeta Hcount Hquota Hform Hfile Hlimit Hsize.
  assert (Hrun : fetch w env req st
                 = (errorResponse
                      ("File too large (max "
                       ++ match MAX_FILE_SIZE_MB env with
                          | Some variable => variable
                          | None => "undefined"
                          end ++ "MB)") 400, st)).
  { rewrite (fetch_uploadPhoto w env req st id Hm Hp Hid).
    unfold uploadPhoto, bind, R2_get, lift, ret.
    rewrite Hobj, Hmeta, Hcount, Hquota, Hform, Hfile, Hlimit.
    cbn [entry_name entry_truthy entry_size negb fmap option_fmap option_map
         num_gt].
    rewrite (proj2 (Z.ltb_lt _ _) Hsize).
    now destruct (form_fname form) as [[|? ?]|]. }
  split; [exact Hrun|]. intros Hnone. rewrite Hrun, Hnone.
  rewrite Hnone in Hlimit. now injection Hlimit.
Qed.

(** The presence check does answer a missing file with status 400 when the
    form names the file. *)
Lemma upload_named_without_file (w : World) (env : Env) (req : Request)
    (st : R2) (id : string) (obj : R2Object) (meta : json)
    (count : option json) (form : FormData) (c : ascii) (fname : string) :
  method req = "POST" → pathname req = "/api/session/" ++ id ++ "/upload" →
  valid_id id = true →
  st !! metaKey id = Some obj →
  JSON_parse (body obj) = Ok meta →
  get_prop meta "photoCount" = Ok count →
  num_ge (ToNumber count)
    (parseInt (str_or (MAX_PHOTOS_PER_SESSION env) "50")) = false →
  request_formData req = Ok form →
  form_file form = None → form_fname form = Some (String c fname) →
  fetch w env req st = (errorResponse "No file provided" 400, st).
Proof.
  intros Hm Hp Hid Hobj Hmeta Hcount Hquota Hform Hfile Hname.
  rewrite (fetch_uploadPhoto w env req st id Hm Hp Hid).
  unfold uploadPhoto, bind, R2_get, lift, ret.
  now rewrite Hobj, Hmeta, Hcount, Hquota, Hform, Hfile, Hname.
Qed.

(** C4, on the worker.  An upload with no file content to a session that
    exists and is under its quota is not answered with status 400
    (BadRequest) when the form has no file name either: line 111 reads
    [file.name] before line 115 tests [file], the read throws, and the
    catch-all answers with status 500 (Internal).  Nothing is written. *)
Theorem upload_without_file_or_name (w : World) (env : Env) (req : Request)
    (st : R2) (id : string) (obj : R2Object) (meta : json)
    (count : option json) (form : FormData) :
  method req = "POST" → pathname req = "/api/session/" ++ id ++ "/upload" →
  valid_id id = true →
  st !! metaKey id = Some obj →
  JSON_parse (body obj) = Ok meta →
  get_prop meta "photoCount" = Ok count →
  num_ge (ToNumber count)
    (parseInt (str_or (MAX_PHOTOS_PER_SESSION env) "50")) = false →
  request_formData req = Ok form →
  form_file form = None → str_or (form_fname form) "" = "" →
  fetch w env req st
  = (errorResponse
       "Internal server error: Cannot read properties of null (reading 'name')"
       500, st).
Proof.
  intros Hm Hp Hid Hobj Hmeta Hcount Hquota Hform Hfile Hname.
  rewrite (fetch_uploadPhoto w env req st id Hm Hp Hid).
  unfold uploadPhoto, bind, R2_get, lift, ret.
  rewrite Hobj, Hmeta, Hcount, Hquota, Hform, Hfile.
  now destruct (form_fname form) as [[|? ?]|].
Qed.

(** *** FetchAsset *)

(** C7.  Fetching a thumbnail returns the bytes under the thumbnail key
    when there is such an object, as [image/jpeg]; when there is none, the
    bytes under the photo key with the photo's stored content type
    ([image/jpeg] when it has none); and fails with status 404 (NotFound)
    when there is neither.  [fname] is the decoded file name of the path.
    The bucket is left as it was. *)
Theorem getThumb_fallback (w : World) (env : Env) (req : Request) (st : R2)
    (id raw fname : string) :
  method req = "GET" →
  pathname req = "/api/session/" ++ id ++ "/thumb/" ++ raw →
  valid_id id = true → raw ≠ "" → Routes.all_chars Routes.is_dot raw = true →
  decodeURIComponent raw = Ok fname →
  fetch w env req st =
  match st !! thumbKey id fname, st !! photoKey id fname with
  | Some thumb, _ =>
      ({| status := 200;
          headers :=
            [("Content-Type", "image/jpeg");
             ("Cache-Control", "public, max-age=86400");
             ("Access-Control-Allow-Origin", "*");
             ("Access-Control-Allow-Methods",
              "GET, POST, PUT, DELETE, OPTIONS");
             ("Access-Control-Allow-Headers", "Content-Type")];
          response_body := Some (body thumb) |}, st)
  | None, Some photo =>
      ({| status := 200;
          headers :=
            [("Content-Type",
              match contentType photo with
              | Some "" | None => "image/jpeg"
              | Some stored => stored
              end);
             ("Cache-Control", "public, max-age=86400");
             ("Access-Control-Allow-Origin", "*");
             ("Access-Control-Allow-Methods",
              "GET, POST, PUT, DELETE, OPTIONS");
             ("Access-Control-Allow-Headers", "Content-Type")];
          response_body := Some (body photo) |}, st)
  | None, None => (errorResponse "Photo not found" 404, st)
  end.
Proof.
  intros Hm Hp Hid Hne Hraw Hname.
  rewrite (fetch_getThumb w env req st id raw Hm Hp Hid Hne Hraw).
  unfold getThumb, bind, R2_get, lift, ret. rewrite Hname.
  destruct (st !! thumbKey id fname); [reflexivity|].
  now destruct (st !! photoKey id fname).
Qed.

(** *** UploadPhoto: an accepted upload *)

(** The object an accepted upload stores under the photo key. *)
Definition stored_photo (form : FormData) (file : File) : R2Object :=
  let fname := str_or (form_fname form) (file_name file) in
  {| body := file_bytes file;
     contentType := Some (str_or (Some (file_type file)) "image/jpeg");
     customMetadata :=
       [("groupId", str_or (form_groupId form) ""); ("originalName", fname)] |}.

(** The record it appends to the photo list. *)
Definition photo_record (form : FormData) (file : File) : json :=
  JObj [("fname", JStr (str_or (form_fname form) (file_name file)));
        ("groupId", JStr (str_or (form_groupId form) ""));
        ("size", JNum (file_size file));
        ("type", JStr (file_type file))].

(** The document it writes back. *)
Definition updated_fields (fs : list (string * json)) (l : list json)
    (record : json) : list (string * json) :=
  assign_field "photos" (JArr (l ++ [record]))
    (assign_field "photoCount"
       (number_json (Z.succ <$> ToNumber (lookup_field "photoCount" fs))) fs).

Lemma uploadPhoto_accepted (env : Env) (req : Request) (id : string)
    (st st' : R2) (r : Response) :
  uploadPhoto env req id st = (Ok r, st') → status r = 200 →
  ∃ obj fs l form file mid,
    st !! metaKey id = Some obj
    ∧ JSON_parse (body obj) = Ok (JObj fs)
    ∧ lookup_field "photos" fs = Some (JArr l)
    ∧ num_ge (ToNumber (lookup_field "photoCount" fs))
        (parseInt (str_or (MAX_PHOTOS_PER_SESSION env) "50")) = false
    ∧ request_formData req = Ok form
    ∧ form_file form = Some (FFile file)
    ∧ (let fname := str_or (form_fname form) (file_name file) in
       let fs' := updated_fields fs l (photo_record form file) in
       (mid = <[photoKey id fname := stored_photo form file]> st
        ∨ ∃ bytes,
            mid = <[thumbKey id fname :=
                      {| body := bytes; contentType := Some "image/jpeg";
                         customMetadata := [] |}]>
                    (<[photoKey id fname := stored_photo form file]> st))
       ∧ st' = <[metaKey id :=
                   {| body := JSON_stringify (JObj fs');
                      contentType := Some "application/json";
                      customMetadata := [] |}]> mid
       ∧ r = jsonResponse
               (JObj [("ok", JBool true); ("fname", JStr fname);
                      ("photoCount",
                       number_json
                         (Z.succ <$> ToNumber (lookup_field "photoCount" fs)))])
               200).
Proof.
  intros Hrun Hst. unfold uploadPhoto, bind, R2_get, R2_put, lift, ret in Hrun.
  destruct (st !! metaKey id) as [obj|] eqn:Hobj;
    [|injection Hrun as <- <-; discriminate].
  destruct (JSON_parse (body obj)) as [meta|] eqn:Hmeta; [|discriminate].
  destruct (get_prop meta "photoCount") as [count|] eqn:Hcount; [|discriminate].
  destruct (num_ge _ _) eqn:Hquota; [injection Hrun as <- <-; discriminate|].
  destruct (request_formData req) as [form|] eqn:Hform; [|discriminate].
  destruct (form_file form) as [[text|file]|] eqn:Hfile.
  { (* a text in place of the file *)
    cbn [entry_name entry_truthy entry_size entry_stream negb num_gt] in Hrun.
    destruct (form_fname form) as [[|? ?]|], text as [|? ?];
      cbn [negb] in Hrun; try discriminate;
      injection Hrun as <- <-; discriminate. }
  2: { (* no file *)
    cbn [entry_name entry_truthy negb] in Hrun.
    destruct (form_fname form) as [[|? ?]|]; try discriminate;
      injection Hrun as <- <-; discriminate. }
  assert (Hname : match form_fname form with
                  | Some (String _ _ as s) => Ok (Some s)
                  | _ => entry_name (Some (FFile file))
                  end = Ok (Some (str_or (form_fname form) (file_name file)))).
  { now destruct (form_fname form) as [[|? ?]|]. }
  rewrite Hname in Hrun. clear Hname.
  cbn [entry_truthy entry_size entry_type entry_stream negb show_string
       fmap option_fmap option_map field] in Hrun.
  destruct (num_gt _ _); [injection Hrun as <- <-; discriminate|].
  set (fname := str_or (form_fname form) (file_name file)) in *.
  match type of Hrun with
  | (let (_, _) := ?step in _) = _ => set (thumbnail := step) in Hrun
  end.
  assert (Hthumb :
    (∃ mid, thumbnail = (Ok (), mid)
            ∧ (mid = <[photoKey id fname := stored_photo form file]> st
               ∨ ∃ bytes,
                   mid = <[thumbKey id fname :=
                             {| body := bytes; contentType := Some "image/jpeg";
                                customMetadata := [] |}]>
                           (<[photoKey id fname := stored_photo form file]> st)))
    ∨ ∃ msg mid, thumbnail = (Throw msg, mid)).
  { subst thumbnail. destruct (entry_truthy (form_thumb form)).
    - destruct (match form_thumb form with
                | Some (FText s) => atob (strip_data_url s)
                | _ => entry_stream "thumbData" (form_thumb form)
                end) as [bytes|msg]; [left | right; eauto].
      eexists. split; [reflexivity|]. right. now exists bytes.
    - left. eexists. split; [reflexivity|]. now left. }
  clearbody thumbnail.
  destruct Hthumb as [(mid & -> & Hmid) | (msg & mid & ->)]; [|discriminate].
  destruct meta as [| | | |items|fs]; try discriminate.
  injection Hcount as <-.
  cbn [set_prop push_photo get_prop] in Hrun.
  rewrite lookup_assign_ne in Hrun by discriminate.
  destruct (lookup_field "photos" fs) as [[| | | |l|]|] eqn:Hphotos;
    try discriminate.
  cbn [set_prop get_prop] in Hrun.
  rewrite lookup_assign_ne, lookup_assign_eq in Hrun by discriminate.
  cbn [field app] in Hrun. injection Hrun as <- <-.
  exists obj, fs, l, form, file, mid. repeat split; eauto.
Qed.

(** A response with status 200 is no answer of the catch-all. *)
Lemma answer_200 (o : result Response * R2) (r : Response) (st' : R2) :
  answer o = (r, st') → status r = 200 → o = (Ok r, st').
Proof.
  destruct o as [[r0|msg] st0]; simpl.
  - now intros [= -> ->].
  - intros [= <- <-]. discriminate.
Qed.

(** A thumbnail that the upload can store: none, a file, or a text that
    is base64 once its data-URL prefix is gone. *)
Definition thumbnail_ok (thumbData : option FormValue) : Prop :=
  match thumbData with
  | Some (FText (String c s)) =>
      ∃ bytes, atob (strip_data_url (String c s)) = Ok bytes
  | _ => True
  end.

(** The conditions under which an upload is accepted. *)
Lemma uploadPhoto_accepts (env : Env) (req : Request) (id : string) (st : R2)
    (obj : R2Object) (fs : list (string * json)) (l : list json)
    (form : FormData) (file : File) :
  st !! metaKey id = Some obj →
  JSON_parse (body obj) = Ok (JObj fs) →
  lookup_field "photos" fs = Some (JArr l) →
  num_ge (ToNumber (lookup_field "photoCount" fs))
    (parseInt (str_or (MAX_PHOTOS_PER_SESSION env) "50")) = false →
  request_formData req = Ok form →
  form_file form = Some (FFile file) →
  num_gt (Some (file_size file))
    ((λ mb, mb * 1024 * 1024) <$> parseInt (str_or (MAX_FILE_SIZE_MB env) "25"))
  = false →
  thumbnail_ok (form_thumb form) →
  ∃ r st', uploadPhoto env req id st = (Ok r, st') ∧ status r = 200.
Proof.
  intros Hobj Hmeta Hphotos Hquota Hform Hfile Hsize Hthumb.
  unfold uploadPhoto, bind, R2_get, R2_put, lift, ret.
  rewrite Hobj, Hmeta. cbn [get_prop]. rewrite Hquota, Hform, Hfile.
  assert (Hname : match form_fname form with
                  | Some (String _ _ as s) => Ok (Some s)
                  | _ => entry_name (Some (FFile file))
                  end = Ok (Some (str_or (form_fname form) (file_name file)))).
  { now destruct (form_fname form) as [[|? ?]|]. }
  rewrite Hname. cbn [entry_truthy entry_size negb]. rewrite Hsize.
  cbn [entry_type entry_stream show_string
       fmap option_fmap option_map field set_prop push_photo get_prop].
  rewrite lookup_assign_ne, Hphotos by discriminate.
  cbn [set_prop get_prop].
  rewrite lookup_assign_ne, lookup_assign_eq by discriminate.
  destruct (form_thumb form) as [[[|c s]|thumb]|]; cbn in Hthumb |- *;
    try (eexists _, _; split; reflexivity).
  destruct Hthumb as [bytes ->]. eexists _, _; split; reflexivity.
Qed.

(** The three keys of one file of one session are distinct. *)
Lemma thumbKey_not_photoKey (id fname : string) :
  thumbKey id fname ≠ photoKey id fname.
Proof. intros [= E]. now apply String.app_inj in E. Qed.

(** What an accepted upload leaves in the bucket. *)
Lemma accepted_bucket (id fname : string) (photo : R2Object) (document : R2Object)
    (st mid : R2) :
  valid_id id = true →
  (mid = <[photoKey id fname := photo]> st
   ∨ ∃ bytes,
       mid = <[thumbKey id fname :=
                 {| body := bytes; contentType := Some "image/jpeg";
                    customMetadata := [] |}]>
               (<[photoKey id fname := photo]> st)) →
  let st' := <[metaKey id := document]> mid in
  st' !! metaKey id = Some document
  ∧ st' !! photoKey id fname = Some photo
  ∧ (∀ key, key ≠ metaKey id → key ≠ photoKey id fname →
            key ≠ thumbKey id fname → st' !! key = st !! key).
Proof.
  intros Hid Hmid st'. subst st'. split; [apply lookup_insert_eq|].
  pose proof (photoKey_not_meta id id fname Hid Hid) as Hpm.
  pose proof (thumbKey_not_photoKey id fname) as Htp.
  split.
  - rewrite lookup_insert_ne by congruence.
    destruct Hmid as [-> | [bytes ->]].
    + apply lookup_insert_eq.
    + rewrite lookup_insert_ne by congruence. apply lookup_insert_eq.
  - intros key Hm Hp Ht. rewrite lookup_insert_ne by congruence.
    destruct Hmid as [-> | [bytes ->]].
    + now rewrite lookup_insert_ne by congruence.
    + now rewrite !lookup_insert_ne by congruence.
Qed.

(** C9, as the worker has it.  The file name of an upload is used as it
    comes: it is the text field [fname] when that is not empty, and the
    name of the file otherwise, with no check and no rewriting.  An
    accepted upload stores the photo under [sessions/<id>/photos/] followed
    by exactly that name, records that name, and changes no key other than
    this one, the thumbnail key [sessions/<id>/thumbs/<name>] and the
    session document. *)
Theorem upload_name_verbatim (w : World) (env : Env) (req : Request)
    (st st' : R2) (id : string) (r : Response) :
  method req = "POST" → pathname req = "/api/session/" ++ id ++ "/upload" →
  valid_id id = true →
  fetch w env req st = (r, st') → status r = 200 →
  ∃ form file,
    request_formData req = Ok form ∧ form_file form = Some (FFile file)
    ∧ let fname := str_or (form_fname form) (file_name file) in
      photoKey id fname = ("sessions/" ++ id ++ "/photos/") ++ fname
      ∧ thumbKey id fname = ("sessions/" ++ id ++ "/thumbs/") ++ fname
      ∧ st' !! photoKey id fname = Some (stored_photo form file)
      ∧ get_prop (photo_record form file) "fname" = Ok (Some (JStr fname))
      ∧ (∀ key, key ≠ metaKey id → key ≠ photoKey id fname →
                key ≠ thumbKey id fname → st' !! key = st !! key).
Proof.
  intros Hm Hp Hid Hrun Hst.
  rewrite (fetch_uploadPhoto w env req st id Hm Hp Hid) in Hrun.
  apply answer_200 in Hrun; [|assumption].
  destruct (uploadPhoto_accepted env req id st st' r Hrun Hst)
    as (obj & fs & l & form & file & mid & _ & _ & _ & _ & Hform & Hfile
        & Hmid & -> & _).
  exists form, file. split; [assumption|]. split; [assumption|].
  match goal with |- context [<[metaKey id := ?d]> mid] => set (doc := d) end.
  destruct (accepted_bucket id _ (stored_photo form file) doc st mid Hid Hmid)
    as (_ & Hphoto & Hrest).
  cbv zeta. repeat split.
  - unfold photoKey. now rewrite !append_assoc.
  - unfold thumbKey. now rewrite !append_assoc.
  - exact Hphoto.
  - exact Hrest.
Qed.

(** A record of the photo list that carries the file name [fname]. *)
Definition named (fname : string) (record : json) : bool :=
  match get_prop record "fname" with
  | Ok (Some (JStr s)) => String.eqb s fname
  | _ => false
  end.

(** C10.  An accepted upload under a file name that the photo list already
    has stores the new bytes under the photo key, whatever was there, and
    still appends a record and adds one to the photo count: the list then
    has that name at least twice, and the count is the number of accepted
    uploads, not of stored photos. *)
Theorem upload_same_name_appends (w : World) (env : Env) (req : Request)
    (st st' : R2) (id : string) (r : Response) (obj : R2Object)
    (fs : list (string * json)) (l : list json) (count : Z)
    (form : FormData) (file : File) (old : json) :
  method req = "POST" → pathname req = "/api/session/" ++ id ++ "/upload" →
  valid_id id = true →
  fetch w env req st = (r, st') → status r = 200 →
  st !! metaKey id = Some obj →
  JSON_parse (body obj) = Ok (JObj fs) →
  lookup_field "photoCount" fs = Some (JNum count) →
  lookup_field "photos" fs = Some (JArr l) →
  request_formData req = Ok form → form_file form = Some (FFile file) →
  let fname := str_or (form_fname form) (file_name file) in
  In old l → named fname old = true →
  ∃ obj' fs',
    st' !! photoKey id fname = Some (stored_photo form file)
    ∧ body (stored_photo form file) = file_bytes file
    ∧ st' !! metaKey id = Some obj'
    ∧ JSON_parse (body obj') = Ok (JObj fs')
    ∧ lookup_field "photos" fs' = Some (JArr (l ++ [photo_record form file]))
    ∧ lookup_field "photoCount" fs' = Some (JNum (count + 1))
    ∧ named fname (photo_record form file) = true
    ∧ (2 ≤ length (List.filter (named fname) (l ++ [photo_record form file])))%nat.
Proof.
  intros Hm Hp Hid Hrun Hst Hobj Hmeta Hcount Hphotos Hform Hfile fname Hold Hnamed.
  rewrite (fetch_uploadPhoto w env req st id Hm Hp Hid) in Hrun.
  apply answer_200 in Hrun; [|assumption].
  destruct (uploadPhoto_accepted env req id st st' r Hrun Hst)
    as (obj0 & fs0 & l0 & form0 & file0 & mid & Hobj0 & Hmeta0 & Hphotos0 & _
        & Hform0 & Hfile0 & Hmid & -> & _).
  assert (obj0 = obj) as -> by congruence.
  assert (fs0 = fs) as -> by congruence.
  assert (l0 = l) as -> by congruence.
  assert (form0 = form) as -> by congruence.
  assert (file0 = file) as -> by congruence.
  match goal with |- context [<[metaKey id := ?d]> mid] => set (doc := d) end.
  destruct (accepted_bucket id _ (stored_photo form file) doc st mid Hid Hmid)
    as (Hdoc & Hphoto & _).
  exists doc, (updated_fields fs l (photo_record form file)).
  assert (Hrecord : named fname (photo_record form file) = true).
  { unfold named, photo_record. cbn. apply String.eqb_refl. }
  repeat split; try assumption.
  - subst doc. cbn [body]. apply JSON_parse_stringify.
  - unfold updated_fields. apply lookup_assign_eq.
  - unfold updated_fields.
    rewrite lookup_assign_ne, lookup_assign_eq, Hcount by discriminate.
    cbn. now rewrite <- Z.add_1_r.
  - rewrite List.filter_app, length_app. cbn [List.filter].
    rewrite Hrecord. cbn [length].
    enough (1 ≤ length (List.filter (named fname) l))%nat by lia.
    assert (Hin : In old (List.filter (named fname) l))
      by now apply List.filter_In.
    destruct (List.filter (named fname) l); [easy | simpl; lia].
Qed.

(** *** What each route writes *)

(** The bucket after a route that stored no session document: it is as
    before, or has one more photo, or one more photo and its thumbnail. *)
Definition assets_only (id : string) (st st' : R2) : Prop :=
  st' = st
  ∨ ∃ fname photo,
      st' = <[photoKey id fname := photo]> st
      ∨ ∃ thumb,
          st' = <[thumbKey id fname := thumb]> (<[photoKey id fname := photo]> st).

Lemma assets_only_meta (id id' : string) (st st' : R2) :
  valid_id id = true → valid_id id' = true → assets_only id st st' →
  st' !! metaKey id' = st !! metaKey id'.
Proof.
  intros Hid Hid' [-> | (fname & photo & [-> | [thumb ->]])]; [reflexivity | |].
  - apply lookup_insert_ne, photoKey_not_meta; assumption.
  - rewrite lookup_insert_ne by (apply thumbKey_not_meta; assumption).
    apply lookup_insert_ne, photoKey_not_meta; assumption.
Qed.

Lemma push_photo_readable (m record m' : json) (k : string) :
  push_photo m record = Ok m' → ∃ v, get_prop m' k = Ok v.
Proof.
  unfold push_photo.
  destruct m as [| | | |items|fs]; cbn; try discriminate.
  destruct (lookup_field "photos" fs) as [[| | | |l|]|]; try discriminate.
  intros [= <-]. cbn. eauto.
Qed.

(** Every outcome of the upload route: a rejection (404, 429 or 400) that
    writes nothing, an exception that leaves at most the photo and the
    thumbnail behind, or an acceptance. *)
Lemma uploadPhoto_outcome (env : Env) (req : Request) (id : string)
    (st st' : R2) (o : result Response) :
  uploadPhoto env req id st = (o, st') →
  (∃ r, o = Ok r ∧ status r = 200)
  ∨ (∃ r, o = Ok r ∧ (status r = 404 ∨ status r = 429 ∨ status r = 400)
          ∧ st' = st)
  ∨ (∃ msg, o = Throw msg ∧ assets_only id st st').
Proof.
  intros Hrun. unfold uploadPhoto, bind, R2_get, R2_put, lift, ret in Hrun.
  assert (Hreject : ∀ msg code,
            (code = 404 ∨ code = 429 ∨ code = 400) →
            (Ok (errorResponse msg code), st) = (o, st') →
            (∃ r, o = Ok r ∧ status r = 200)
            ∨ (∃ r, o = Ok r ∧ (status r = 404 ∨ status r = 429 ∨ status r = 400)
                    ∧ st' = st)
            ∨ (∃ msg, o = Throw msg ∧ assets_only id st st')).
  { intros msg code Hcode [= <- <-]. right; left. eauto. }
  assert (Hthrow : ∀ msg mid, assets_only id st mid →
            (Throw msg, mid) = (o, st') →
            (∃ r, o = Ok r ∧ status r = 200)
            ∨ (∃ r, o = Ok r ∧ (status r = 404 ∨ status r = 429 ∨ status r = 400)
                    ∧ st' = st)
            ∨ (∃ msg, o = Throw msg ∧ assets_only id st st')).
  { intros msg mid Hmid [= <- <-]. right; right. eauto. }
  assert (Hsame : assets_only id st st) by now left.
  destruct (st !! metaKey id) as [obj|]; [|refine (Hreject _ _ _ Hrun); auto].
  destruct (JSON_parse (body obj)) as [meta|]; [|refine (Hthrow _ _ _ Hrun); auto].
  destruct (get_prop meta "photoCount") as [count|]; [|refine (Hthrow _ _ _ Hrun); auto].
  destruct (num_ge _ _); [refine (Hreject _ _ _ Hrun); auto|].
  destruct (request_formData req) as [form|]; [|refine (Hthrow _ _ _ Hrun); auto].
  destruct (match form_fname form with
            | Some (String _ _ as s) => Ok (Some s)
            | _ => entry_name (form_file form)
            end) as [fname|]; [|refine (Hthrow _ _ _ Hrun); auto].
  destruct (negb (entry_truthy (form_file form))); [refine (Hreject _ _ _ Hrun); auto|].
  destruct (num_gt _ _); [refine (Hreject _ _ _ Hrun); auto|].
  destruct (entry_stream "file" (form_file form)) as [bytes|];
    [|refine (Hthrow _ _ _ Hrun); auto].
  match type of Hrun with
  | context [<[photoKey id ?f := ?p]> st] =>
      set (name := f) in *; set (photo := p) in *
  end.
  assert (Hphoto : assets_only id st (<[photoKey id name := photo]> st)).
  { right. exists name, photo. now left. }
  match type of Hrun with
  | (let (_, _) := ?step in _) = _ => set (thumbnail := step) in Hrun
  end.
  assert (Hthumb : ∃ t mid, thumbnail = (t, mid) ∧ assets_only id st mid).
  { subst thumbnail. destruct (entry_truthy (form_thumb form)); [|eauto].
    destruct (match form_thumb form with
              | Some (FText s) => atob (strip_data_url s)
              | _ => entry_stream "thumbData" (form_thumb form)
              end) as [thumb|]; [|eauto].
    eexists _, _. split; [reflexivity|]. right. exists name, photo. eauto. }
  clearbody thumbnail. destruct Hthumb as (t & mid & -> & Hmid).
  destruct t as [[]|]; [|refine (Hthrow _ _ _ Hrun); auto].
  destruct (set_prop meta "photoCount" _) as [meta1|]; [|refine (Hthrow _ _ _ Hrun); auto].
  destruct (push_photo meta1 _) as [meta2|] eqn:Hpush;
    [|refine (Hthrow _ _ _ Hrun); auto].
  destruct (push_photo_readable _ _ _ "photoCount" Hpush) as [count2 Hread].
  rewrite Hread in Hrun. injection Hrun as <- <-. left. eauto.
Qed.

(** The identifier of a new session is made of letters and digits. *)
Lemma append_char_alnum (b : Byte.byte) :
  ∃ c, match String.get (Byte.to_nat b mod String.length chars) chars with
       | Some c => String c ""
       | None => "undefined"
       end = String c "" ∧ Routes.is_alnum c = true.
Proof.
  assert (Hall : forallb (λ n, match String.get n chars with
                               | Some c => Routes.is_alnum c
                               | None => false
                               end) (seq 0 (String.length chars)) = true)
    by (vm_compute; reflexivity).
  rewrite forallb_forall in Hall.
  specialize (Hall (Byte.to_nat b mod String.length chars)%nat).
  destruct (String.get _ chars) as [c|].
  - exists c. split; [reflexivity|]. apply Hall, in_seq. split; [lia|].
    apply Nat.mod_upper_bound. discriminate.
  - exfalso. enough (false = true) by discriminate.
    apply Hall, in_seq. split; [lia|].
    apply Nat.mod_upper_bound. discriminate.
Qed.

Lemma all_chars_app (p : ascii → bool) (a b : string) :
  Routes.all_chars p (a ++ b) = Routes.all_chars p a && Routes.all_chars p b.
Proof.
  induction a as [|c a IH]; simpl; [reflexivity|].
  now rewrite IH, andb_assoc.
Qed.

Lemma generateId_loop (bytes : list Byte.byte) (id : string) :
  Routes.all_chars Routes.is_alnum id = true →
  Routes.all_chars Routes.is_alnum (fold_left append_char bytes id) = true
  ∧ String.length (fold_left append_char bytes id)
    = (String.length id + length bytes)%nat.
Proof.
  revert id. induction bytes as [|b bytes IH]; intros id Hid; simpl.
  - split; [assumption | lia].
  - destruct (append_char_alnum b) as (c & Hc & Halnum).
    destruct (IH (append_char id b)) as [Hall Hlen].
    + unfold append_char. rewrite Hc, all_chars_app, Hid. simpl.
      now rewrite Halnum.
    + split; [assumption|]. rewrite Hlen. unfold append_char.
      rewrite Hc, length_append. simpl. lia.
Qed.

Lemma generateId_valid (w : World) : valid_id (generateId 8 w) = true.
Proof.
  unfold valid_id, generateId.
  destruct (generateId_loop (getRandomValues w 8) "" eq_refl) as [-> Hlen].
  destruct (fold_left _ _ _); [discriminate | reflexivity].
Qed.

(** The document of a new session. *)
Definition new_fields (sessionId now expiresAt : string) (body : json)
  : list (string * json) :=
  [("id", JStr sessionId);
   ("title", or_else (lookup_field "title"
                        match body with JObj fs => fs | _ => [] end) (JStr ""));
   ("photographer",
    or_else (lookup_field "photographer"
               match body with JObj fs => fs | _ => [] end) (JStr ""));
   ("groups", or_else (lookup_field "groups"
                         match body with JObj fs => fs | _ => [] end) (JArr []));
   ("createdAt", JStr now);
   ("expiresAt", JStr expiresAt);
   ("photoCount", JNum 0);
   ("photos", JArr [])].

(** Every outcome of the create route: an exception that writes nothing,
    or status 200 and the new document under the key of the new
    identifier. *)
Lemma createSession_outcome (w : World) (env : Env) (req : Request)
    (st st' : R2) (o : result Response) :
  createSession w env req st = (o, st') →
  (∃ msg, o = Throw msg ∧ st' = st)
  ∨ ∃ body now expiresAt,
      o = Ok (jsonResponse
                (JObj [("sessionId", JStr (generateId 8 w));
                       ("expiresAt", JStr expiresAt)]) 200)
      ∧ st' = <[metaKey (generateId 8 w) :=
                  {| body := JSON_stringify
                               (JObj (new_fields (generateId 8 w) now
                                        expiresAt body));
                     contentType := Some "application/json";
                     customMetadata := [] |}]> st.
Proof.
  unfold createSession, bind, R2_put, lift, ret. intros Hrun.
  destruct (request_json req) as [body|];
    [|injection Hrun as <- <-; eauto].
  destruct (toISOString (Some (clock w 0))) as [now|];
    [|injection Hrun as <- <-; eauto].
  destruct (toISOString _) as [expiresAt|];
    [|injection Hrun as <- <-; eauto].
  destruct body as [|b|n|s|items|fs]; cbn [get_prop] in Hrun;
    injection Hrun as <- <-;
    [ left; eauto
    | right; exists (JBool b), now, expiresAt
    | right; exists (JNum n), now, expiresAt
    | right; exists (JStr s), now, expiresAt
    | right; exists (JArr items), now, expiresAt
    | right; exists (JObj fs), now, expiresAt ];
    split; reflexivity.
Qed.

(** The three reading routes leave the bucket as it is. *)
Lemma getSession_bucket (w : World) (id : string) (st : R2) :
  (getSession w id st).2 = st.
Proof.
  unfold getSession, bind, R2_get, lift, ret.
  destruct (st !! metaKey id) as [obj|]; [|reflexivity].
  destruct (JSON_parse (body obj)) as [meta|]; [|reflexivity].
  destruct (get_prop meta "expiresAt") as [e|]; [|reflexivity].
  now destruct (num_lt _ _).
Qed.

Lemma getPhoto_outcome (id raw : string) (st : R2) :
  (getPhoto id raw st).2 = st
  ∧ ∀ r, (getPhoto id raw st).1 = Ok r → status r = 404 ∨ status r = 200.
Proof.
  unfold getPhoto, bind, R2_get, lift, ret.
  destruct (decodeURIComponent raw) as [name|]; [|easy].
  destruct (st !! photoKey id name) as [photo|]; split; try reflexivity;
    intros r [= <-]; auto.
Qed.

Lemma getThumb_outcome (id raw : string) (st : R2) :
  (getThumb id raw st).2 = st
  ∧ ∀ r, (getThumb id raw st).1 = Ok r → status r = 404 ∨ status r = 200.
Proof.
  unfold getThumb, bind, R2_get, lift, ret.
  destruct (decodeURIComponent raw) as [name|]; [|easy].
  destruct (st !! thumbKey id name) as [thumb|];
    [|destruct (st !! photoKey id name) as [photo|]];
    split; try reflexivity; intros r [= <-]; auto.
Qed.

(** *** The photo count *)

(** A session document whose photo count is the length of its photo
    list. *)
Definition session_ok (text : string) : Prop :=
  ∃ fs l,
    JSON_parse text = Ok (JObj fs)
    ∧ lookup_field "photoCount" fs = Some (JNum (Z.of_nat (length l)))
    ∧ lookup_field "photos" fs = Some (JArr l).

(** Every session document of the bucket is such a document. *)
Definition bucket_ok (st : R2) : Prop :=
  ∀ id obj, valid_id id = true → st !! metaKey id = Some obj →
            session_ok (body obj).

(** The bucket after a sequence of requests, each with its own clock,
    random bytes and configuration. *)
Definition run (requests : list (World * Env * Request)) (st : R2) : R2 :=
  fold_left (λ st q, (fetch q.1.1 q.1.2 q.2 st).2) requests st.

Lemma createSession_ok (w : World) (env : Env) (req : Request) (st : R2) :
  bucket_ok st → bucket_ok (createSession w env req st).2.
Proof.
  intros Hst.
  destruct (createSession w env req st) as [o st'] eqn:Hrun.
  destruct (createSession_outcome _ _ _ _ _ _ Hrun)
    as [(msg & -> & ->) | (data & now & expiresAt & -> & ->)];
    [assumption|].
  intros id obj Hid. cbn [snd].
  destruct (decide (metaKey (generateId 8 w) = metaKey id)) as [E|E].
  - rewrite E, lookup_insert_eq. intros [= <-]. cbn [body].
    exists (new_fields (generateId 8 w) now expiresAt data), [].
    now rewrite JSON_parse_stringify.
  - rewrite lookup_insert_ne by assumption. now apply Hst.
Qed.

(** An accepted upload to a session whose count is the length of its
    list: the new document has the list with one more record, and the
    count with one more. *)
Lemma uploadPhoto_increments (env : Env) (req : Request) (id : string)
    (st st' : R2) (r : Response) (obj : R2Object)
    (fs : list (string * json)) (l : list json) :
  valid_id id = true →
  uploadPhoto env req id st = (Ok r, st') → status r = 200 →
  st !! metaKey id = Some obj →
  JSON_parse (body obj) = Ok (JObj fs) →
  lookup_field "photoCount" fs = Some (JNum (Z.of_nat (length l))) →
  lookup_field "photos" fs = Some (JArr l) →
  ∃ obj' fs' record,
    st' !! metaKey id = Some obj'
    ∧ JSON_parse (body obj') = Ok (JObj fs')
    ∧ lookup_field "photos" fs' = Some (JArr (l ++ [record]))
    ∧ lookup_field "photoCount" fs' = Some (JNum (Z.of_nat (length l) + 1))
    ∧ (∀ id', valid_id id' = true → id' ≠ id →
              st' !! metaKey id' = st !! metaKey id').
Proof.
  intros Hid Hrun Hstatus Hobj Hmeta Hcount Hphotos.
  destruct (uploadPhoto_accepted env req id st st' r Hrun Hstatus)
    as (obj0 & fs0 & l0 & form & file & mid & Hobj0 & Hmeta0 & Hphotos0 & _
        & _ & _ & Hmid & -> & _).
  assert (obj0 = obj) as -> by congruence.
  assert (fs0 = fs) as -> by congruence.
  assert (l0 = l) as -> by congruence.
  match goal with |- context [<[metaKey id := ?d]> mid] => set (doc := d) end.
  exists doc, (updated_fields fs l (photo_record form file)),
    (photo_record form file).
  split; [apply lookup_insert_eq|].
  split; [subst doc; apply JSON_parse_stringify|].
  split; [apply lookup_assign_eq|].
  split.
  - unfold updated_fields.
    rewrite lookup_assign_ne, lookup_assign_eq, Hcount by discriminate.
    cbn. now rewrite <- Z.add_1_r.
  - intros id' Hid' Hne.
    rewrite lookup_insert_ne
      by (intros E; apply Hne; symmetry; now apply metaKey_inj).
    apply (assets_only_meta id); [assumption | assumption |].
    right. eexists _, _. destruct Hmid as [-> | [bytes ->]]; eauto.
Qed.

Lemma uploadPhoto_ok (env : Env) (req : Request) (id : string) (st : R2) :
  valid_id id = true →
  bucket_ok st → bucket_ok (uploadPhoto env req id st).2.
Proof.
  intros Hid Hst.
  destruct (uploadPhoto env req id st) as [o st'] eqn:Hrun. cbn [snd].
  destruct (uploadPhoto_outcome _ _ _ _ _ _ Hrun)
    as [(r & -> & Hstatus) | [(r & -> & _ & ->) | (msg & -> & Hassets)]].
  - destruct (uploadPhoto_accepted env req id st st' r Hrun Hstatus)
      as (obj & fs & l & _ & _ & _ & Hobj & Hmeta & Hphotos & _).
    destruct (Hst id obj Hid Hobj) as (fs0 & l0 & Hmeta0 & Hcount0 & Hphotos0).
    assert (fs0 = fs) as -> by congruence.
    assert (l0 = l) as -> by congruence.
    destruct (uploadPhoto_increments env req id st st' r obj fs l Hid Hrun
                Hstatus Hobj Hmeta Hcount0 Hphotos)
      as (obj' & fs' & record & Hobj' & Hmeta' & Hphotos' & Hcount' & Hother).
    intros id' obj1 Hid'. destruct (decide (id' = id)) as [->|Hne].
    + rewrite Hobj'. intros [= <-]. exists fs', (l ++ [record])%list.
      split; [assumption|]. split; [|assumption].
      rewrite Hcount', length_app. cbn [length]. do 2 f_equal. lia.
    + rewrite (Hother id' Hid' Hne). now apply Hst.
  - assumption.
  - intros id' obj1 Hid'.
    rewrite (assets_only_meta id id' st st' Hid Hid' Hassets). now apply Hst.
Qed.

(** Every request keeps the bucket such. *)
Lemma fetch_ok (w : World) (env : Env) (req : Request) (st : R2) :
  bucket_ok st → bucket_ok (fetch w env req st).2.
Proof.
  intros Hst. unfold fetch.
  destruct (String.eqb (method req) "OPTIONS"); [assumption|].
  enough (bucket_ok (route w env req st).2)
    by now destruct (route w env req st) as [[r|msg] st'].
  unfold route.
  destruct (_ && _); [now apply createSession_ok|].
  destruct (Routes.sessionMatch _) as [sid|], (String.eqb (method req) "GET");
    try (now rewrite getSession_bucket);
    (destruct (Routes.uploadMatch _) as [uid|] eqn:Hup,
              (String.eqb (method req) "POST");
     try (apply uploadPhoto_ok; [now apply uploadMatch_valid in Hup | assumption]);
     (destruct (Routes.photoMatch _) as [[pid pname]|];
      try (now rewrite (proj1 (getPhoto_outcome _ _ _)));
      (destruct (Routes.thumbMatch _) as [[tid tname]|];
       try (now rewrite (proj1 (getThumb_outcome _ _ _)));
       assumption))).
Qed.

Lemma run_ok (requests : list (World * Env * Request)) (st : R2) :
  bucket_ok st → bucket_ok (run requests st).
Proof.
  revert st. induction requests as [|q requests IH]; intros st Hst;
    [assumption|].
  apply IH, fetch_ok, Hst.
Qed.

(** C1.  The photo count of every session equals the length of its photo
    list: after any sequence of requests on an empty bucket; after
    CreateSession, where both are zero; and after every accepted upload,
    which appends exactly one record and adds exactly one to the count
    before it writes the document back. *)
Theorem photoCount_is_length :
  (∀ requests, bucket_ok (run requests ∅))
  ∧ (∀ w env req st r st',
       method req = "POST" → pathname req = "/api/session" →
       fetch w env req st = (r, st') → status r = 200 →
       ∃ id obj fs,
         valid_id id = true
         ∧ st' !! metaKey id = Some obj
         ∧ JSON_parse (body obj) = Ok (JObj fs)
         ∧ lookup_field "photoCount" fs = Some (JNum 0)
         ∧ lookup_field "photos" fs = Some (JArr []))
  ∧ (∀ w env req st id r st' obj fs l,
       method req = "POST" →
       pathname req = "/api/session/" ++ id ++ "/upload" →
       valid_id id = true →
       fetch w env req st = (r, st') → status r = 200 →
       st !! metaKey id = Some obj →
       JSON_parse (body obj) = Ok (JObj fs) →
       lookup_field "photoCount" fs = Some (JNum (Z.of_nat (length l))) →
       lookup_field "photos" fs = Some (JArr l) →
       ∃ obj' fs' record,
         st' !! metaKey id = Some obj'
         ∧ JSON_parse (body obj') = Ok (JObj fs')
         ∧ lookup_field "photos" fs' = Some (JArr (l ++ [record]))
         ∧ lookup_field "photoCount" fs'
           = Some (JNum (Z.of_nat (length (l ++ [record]))))).
Proof.
  split; [|split].
  - intros requests. apply run_ok. intros id obj _ Hobj.
    now rewrite lookup_empty in Hobj.
  - intros w env req st r st' Hm Hp Hrun Hstatus.
    rewrite (fetch_createSession w env req st Hm Hp) in Hrun.
    apply answer_200 in Hrun; [|assumption].
    destruct (createSession_outcome _ _ _ _ _ _ Hrun)
      as [(msg & [=] & _) | (body & now & expiresAt & _ & ->)].
    eexists (generateId 8 w), _, _.
    split; [apply generateId_valid|].
    split; [apply lookup_insert_eq|].
    split; [apply JSON_parse_stringify|]. now split.
  - intros w env req st id r st' obj fs l Hm Hp Hid Hrun Hstatus Hobj Hmeta
      Hcount Hphotos.
    rewrite (fetch_uploadPhoto w env req st id Hm Hp Hid) in Hrun.
    apply answer_200 in Hrun; [|assumption].
    destruct (uploadPhoto_increments env req id st st' r obj fs l Hid Hrun
                Hstatus Hobj Hmeta Hcount Hphotos)
      as (obj' & fs' & record & Hobj' & Hmeta' & Hphotos' & Hcount' & _).
    exists obj', fs', record. repeat split; try assumption.
    rewrite Hcount', length_app. cbn [length]. do 2 f_equal. lia.
Qed.

(** *** Expiry *)

(** The two asset routes on an object that is in the bucket. *)
Lemma fetch_photo_stored (w : World) (env : Env) (req : Request) (st : R2)
    (id raw fname : string) (photo : R2Object) :
  method req = "GET" →
  pathname req = "/api/session/" ++ id ++ "/photo/" ++ raw →
  valid_id id = true → raw ≠ "" → Routes.all_chars Routes.is_dot raw = true →
  decodeURIComponent raw = Ok fname →
  st !! photoKey id fname = Some photo →
  fetch w env req st
  = ({| status := 200;
        headers :=
          [("Content-Type",
            match contentType photo with
            | Some "" | None => "image/jpeg"
            | Some stored => stored
            end);
           ("Cache-Control", "public, max-age=86400");
           ("Access-Control-Allow-Origin", "*");
           ("Access-Control-Allow-Methods", "GET, POST, PUT, DELETE, OPTIONS");
           ("Access-Control-Allow-Headers", "Content-Type")];
        response_body := Some (body photo) |}, st).
Proof.
  intros Hm Hp Hid Hne Hraw Hname Hphoto.
  rewrite (fetch_getPhoto w env req st id raw Hm Hp Hid Hne Hraw).
  unfold getPhoto, bind, R2_get, lift, ret. now rewrite Hname, Hphoto.
Qed.

Lemma fetch_thumb_stored (w : World) (env : Env) (req : Request) (st : R2)
    (id raw fname : string) (thumb : R2Object) :
  method req = "GET" →
  pathname req = "/api/session/" ++ id ++ "/thumb/" ++ raw →
  valid_id id = true → raw ≠ "" → Routes.all_chars Routes.is_dot raw = true →
  decodeURIComponent raw = Ok fname →
  st !! thumbKey id fname = Some thumb →
  fetch w env req st
  = ({| status := 200;
        headers :=
          [("Content-Type", "image/jpeg");
           ("Cache-Control", "public, max-age=86400");
           ("Access-Control-Allow-Origin", "*");
           ("Access-Control-Allow-Methods", "GET, POST, PUT, DELETE, OPTIONS");
           ("Access-Control-Allow-Headers", "Content-Type")];
        response_body := Some (body thumb) |}, st).
Proof.
  intros Hm Hp Hid Hne Hraw Hname Hthumb.
  rewrite (fetch_getThumb w env req st id raw Hm Hp Hid Hne Hraw).
  unfold getThumb, bind, R2_get, lift, ret. now rewrite Hname, Hthumb.
Qed.

(** An upload that passes the four checks and whose thumbnail can be
    stored: the photo is under its key afterwards, and the document has the
    new record at the end of its list and its other fields as before. *)
Lemma fetch_upload_stored (w : World) (env : Env) (req : Request) (st : R2)
    (id : string) (obj : R2Object) (fs : list (string * json))
    (l : list json) (form : FormData) (file : File) :
  method req = "POST" → pathname req = "/api/session/" ++ id ++ "/upload" →
  valid_id id = true →
  st !! metaKey id = Some obj →
  JSON_parse (body obj) = Ok (JObj fs) →
  lookup_field "photos" fs = Some (JArr l) →
  num_ge (ToNumber (lookup_field "photoCount" fs))
    (parseInt (str_or (MAX_PHOTOS_PER_SESSION env) "50")) = false →
  request_formData req = Ok form →
  form_file form = Some (FFile file) →
  num_gt (Some (file_size file))
    ((λ mb, mb * 1024 * 1024) <$> parseInt (str_or (MAX_FILE_SIZE_MB env) "25"))
  = false →
  thumbnail_ok (form_thumb form) →
  status (fetch w env req st).1 = 200
  ∧ (fetch w env req st).2
      !! photoKey id (str_or (form_fname form) (file_name file))
    = Some (stored_photo form file)
  ∧ ∃ obj' fs',
      (fetch w env req st).2 !! metaKey id = Some obj'
      ∧ JSON_parse (body obj') = Ok (JObj fs')
      ∧ lookup_field "photos" fs' = Some (JArr (l ++ [photo_record form file]))
      ∧ ∀ k, k ≠ "photoCount" → k ≠ "photos" →
             lookup_field k fs' = lookup_field k fs.
Proof.
  intros Hm Hp Hid Hobj Hmeta Hphotos Hquota Hform Hfile Hsize Hthumb.
  rewrite (fetch_uploadPhoto w env req st id Hm Hp Hid).
  destruct (uploadPhoto_accepts env req id st obj fs l form file Hobj Hmeta
              Hphotos Hquota Hform Hfile Hsize Hthumb)
    as (r & st' & Hrun & Hstatus).
  rewrite Hrun. cbn [answer fst snd]. split; [exact Hstatus|].
  destruct (uploadPhoto_accepted env req id st st' r Hrun Hstatus)
    as (obj0 & fs0 & l0 & form0 & file0 & mid & Hobj0 & Hmeta0 & Hphotos0 & _
        & Hform0 & Hfile0 & Hmid & -> & _).
  assert (obj0 = obj) as -> by congruence.
  assert (fs0 = fs) as -> by congruence.
  assert (l0 = l) as -> by congruence.
  assert (form0 = form) as -> by congruence.
  assert (file0 = file) as -> by congruence.
  match goal with |- context [<[metaKey id := ?d]> mid] => set (doc := d) end.
  destruct (accepted_bucket id _ (stored_photo form file) doc st mid Hid Hmid)
    as (Hdoc & Hphoto & _).
  split; [exact Hphoto|].
  exists doc, (updated_fields fs l (photo_record form file)).
  split; [exact Hdoc|]. split; [subst doc; apply JSON_parse_stringify|].
  split; [apply lookup_assign_eq|].
  intros k Hcount Hlist. unfold updated_fields.
  now rewrite !lookup_assign_ne by congruence.
Qed.

Lemma status_410_route (w : World) (env : Env) (req : Request) (st : R2) :
  status (fetch w env req st).1 = 410 →
  method req = "GET" ∧ is_Some (Routes.sessionMatch (pathname req)).
Proof.
  unfold fetch.
  destruct (String.eqb (method req) "OPTIONS"); [discriminate|].
  destruct (route w env req st) as [[r|msg] st'] eqn:Hrun; [|discriminate].
  cbn [fst]. intros Hstatus. unfold route in Hrun.
  destruct (_ && _).
  { destruct (createSession_outcome _ _ _ _ _ _ Hrun)
      as [(msg & [=] & _) | (body & now & expiresAt & [= ->] & _)].
    discriminate. }
  destruct (Routes.sessionMatch _) as [sid|],
           (String.eqb_spec (method req) "GET") as [Hget|Hget];
    try (now split; [assumption | eexists]);
    (destruct (Routes.uploadMatch _) as [uid|],
              (String.eqb (method req) "POST");
     try (destruct (uploadPhoto_outcome _ _ _ _ _ _ Hrun)
            as [(r' & [= <-] & ?) | [(r' & [= <-] & ? & _) | (? & [=] & _)]];
          exfalso; lia);
     (destruct (Routes.photoMatch _) as [[pid pname]|];
      try (destruct (proj2 (getPhoto_outcome pid pname st) r); 
           [now rewrite Hrun | exfalso; lia | exfalso; lia]);
      (destruct (Routes.thumbMatch _) as [[tid tname]|];
       try (destruct (proj2 (getThumb_outcome tid tname st) r); 
            [now rewrite Hrun | exfalso; lia | exfalso; lia]);
       injection Hrun as <- <-; discriminate))).
Qed.

(** GetSession on a session whose expiry is before the clock. *)
Lemma fetch_session_expired (w : World) (env : Env) (req : Request) (st : R2)
    (id : string) (obj : R2Object) (fs : list (string * json))
    (expiresAt : string) (t : Z) :
  method req = "GET" → pathname req = "/api/session/" ++ id →
  valid_id id = true →
  st !! metaKey id = Some obj →
  JSON_parse (body obj) = Ok (JObj fs) →
  lookup_field "expiresAt" fs = Some (JStr expiresAt) →
  Date_parse expiresAt = Some t → t < clock w 0 →
  fetch w env req st = (errorResponse "Session expired" 410, st).
Proof.
  intros Hm Hp Hid Hobj Hmeta Hexp Ht Hlt.
  rewrite (fetch_getSession w env req st id Hm Hp Hid).
  unfold getSession, bind, R2_get, lift, ret. rewrite Hobj, Hmeta.
  cbn [get_prop]. rewrite Hexp. cbn [new_Date]. rewrite Ht. unfold num_lt.
  now rewrite (proj2 (Z.ltb_lt _ _) Hlt).
Qed.

(** C8.  Expiry is enforced by GetSession alone.  Status 410 is the answer
    of no other route.  For a session whose expiry is before the clock, at
    the very clock and bucket at which GetSession answers 410:
    - an upload that passes the checks of the upload route is accepted, its
      photo is stored under its key, its record is appended to the photo
      list of the document, and the expiry stays as it was, so that
      GetSession still answers 410 after it;
    - a stored photo is served, with its bytes and its content type;
    - a stored thumbnail is served, with its bytes.
    [read] is the request that reads the session. *)
Theorem expiry_only_on_getSession :
  (∀ w env req st,
     status (fetch w env req st).1 = 410 →
     method req = "GET" ∧ is_Some (Routes.sessionMatch (pathname req)))
  ∧ (∀ w env read req st id obj fs l form file expiresAt t,
       method read = "GET" → pathname read = "/api/session/" ++ id →
       method req = "POST" →
       pathname req = "/api/session/" ++ id ++ "/upload" →
       valid_id id = true →
       st !! metaKey id = Some obj →
       JSON_parse (body obj) = Ok (JObj fs) →
       lookup_field "expiresAt" fs = Some (JStr expiresAt) →
       Date_parse expiresAt = Some t → t < clock w 0 →
       lookup_field "photos" fs = Some (JArr l) →
       num_ge (ToNumber (lookup_field "photoCount" fs))
         (parseInt (str_or (MAX_PHOTOS_PER_SESSION env) "50")) = false →
       request_formData req = Ok form →
       form_file form = Some (FFile file) →
       num_gt (Some (file_size file))
         ((λ mb, mb * 1024 * 1024)
            <$> parseInt (str_or (MAX_FILE_SIZE_MB env) "25")) = false →
       thumbnail_ok (form_thumb form) →
       fetch w env read st = (errorResponse "Session expired" 410, st)
       ∧ status (fetch w env req st).1 = 200
       ∧ (∃ photo,
            (fetch w env req st).2
              !! photoKey id (str_or (form_fname form) (file_name file))
            = Some photo
            ∧ body photo = file_bytes file)
       ∧ (∃ obj' fs',
            (fetch w env req st).2 !! metaKey id = Some obj'
            ∧ JSON_parse (body obj') = Ok (JObj fs')
            ∧ lookup_field "photos" fs'
              = Some (JArr (l ++ [photo_record form file]))
            ∧ lookup_field "expiresAt" fs' = Some (JStr expiresAt))
       ∧ fetch w env read (fetch w env req st).2
         = (errorResponse "Session expired" 410, (fetch w env req st).2))
  ∧ (∀ w env read req st id raw fname photo obj fs expiresAt t,
       method read = "GET" → pathname read = "/api/session/" ++ id →
       method req = "GET" →
       pathname req = "/api/session/" ++ id ++ "/photo/" ++ raw →
       valid_id id = true → raw ≠ "" →
       Routes.all_chars Routes.is_dot raw = true →
       decodeURIComponent raw = Ok fname →
       st !! metaKey id = Some obj →
       JSON_parse (body obj) = Ok (JObj fs) →
       lookup_field "expiresAt" fs = Some (JStr expiresAt) →
       Date_parse expiresAt = Some t → t < clock w 0 →
       st !! photoKey id fname = Some photo →
       fetch w env read st = (errorResponse "Session expired" 410, st)
       ∧ fetch w env req st
         = ({| status := 200;
               headers :=
                 [("Content-Type",
                   match contentType photo with
                   | Some "" | None => "image/jpeg"
                   | Some stored => stored
                   end);
                  ("Cache-Control", "public, max-age=86400");
                  ("Access-Control-Allow-Origin", "*");
                  ("Access-Control-Allow-Methods",
                   "GET, POST, PUT, DELETE, OPTIONS");
                  ("Access-Control-Allow-Headers", "Content-Type")];
               response_body := Some (body photo) |}, st))
  ∧ (∀ w env read req st id raw fname thumb obj fs expiresAt t,
       method read = "GET" → pathname read = "/api/session/" ++ id →
       method req = "GET" →
       pathname req = "/api/session/" ++ id ++ "/thumb/" ++ raw →
       valid_id id = true → raw ≠ "" →
       Routes.all_chars Routes.is_dot raw = true →
       decodeURIComponent raw = Ok fname →
       st !! metaKey id = Some obj →
       JSON_parse (body obj) = Ok (JObj fs) →
       lookup_field "expiresAt" fs = Some (JStr expiresAt) →
       Date_parse expiresAt = Some t → t < clock w 0 →
       st !! thumbKey id fname = Some thumb →
       fetch w env read st = (errorResponse "Session expired" 410, st)
       ∧ fetch w env req st
         = ({| status := 200;
               headers :=
                 [("Content-Type", "image/jpeg");
                  ("Cache-Control", "public, max-age=86400");
                  ("Access-Control-Allow-Origin", "*");
                  ("Access-Control-Allow-Methods",
                   "GET, POST, PUT, DELETE, OPTIONS");
                  ("Access-Control-Allow-Headers", "Content-Type")];
               response_body := Some (body thumb) |}, st)).
Proof.
  split; [exact status_410_route|]. split; [|split].
  - intros w env read req st id obj fs l form file expiresAt t Hrm Hrp Hm Hp
      Hid Hobj Hmeta Hexp Ht Hlt Hphotos Hquota Hform Hfile Hsize Hthumb.
    destruct (fetch_upload_stored w env req st id obj fs l form file Hm Hp Hid
                Hobj Hmeta Hphotos Hquota Hform Hfile Hsize Hthumb)
      as (Hstatus & Hphoto & obj' & fs' & Hobj' & Hmeta' & Hlist & Hkeep).
    assert (Hexp' : lookup_field "expiresAt" fs' = Some (JStr expiresAt))
      by (rewrite Hkeep by discriminate; exact Hexp).
    split; [now apply (fetch_session_expired w env read st id obj fs
                         expiresAt t)|].
    split; [exact Hstatus|]. split; [now exists (stored_photo form file)|].
    split; [now exists obj', fs'|].
    now apply (fetch_session_expired w env read _ id obj' fs' expiresAt t).
  - intros w env read req st id raw fname photo obj fs expiresAt t Hrm Hrp Hm
      Hp Hid Hne Hraw Hname Hobj Hmeta Hexp Ht Hlt Hphoto.
    split; [now apply (fetch_session_expired w env read st id obj fs
                         expiresAt t)|].
    now apply (fetch_photo_stored w env req st id raw fname photo).
  - intros w env read req st id raw fname thumb obj fs expiresAt t Hrm Hrp Hm
      Hp Hid Hne Hraw Hname Hobj Hmeta Hexp Ht Hlt Hthumb.
    split; [now apply (fetch_session_expired w env read st id obj fs
                         expiresAt t)|].
    now apply (fetch_thumb_stored w env req st id raw fname thumb).
Qed.

End Operations.

(** ** The worker on concrete requests

    The theorems above at sample requests, with the reference runtime, and
    the inputs at which the worker departs from its specification. *)

Section Concrete.
Existing Instance Ref.runtime.
Import Sample.

Lemma getSession_expired_witness :
  fetch world defaults (get "/api/session/abc") (bucket expired 0 [])
  = (errorResponse "Session expired" 410, bucket expired 0 []).
Proof.
  apply (getSession_expired world defaults (get "/api/session/abc")
           (bucket expired 0 []) "abc"
           (text_object (Ref.stringify (document expired 0 [])))
           (document expired 0 []) expired 1699401600000);
    vm_compute; reflexivity.
Defined.

(** C6 fails on the worker: the bytes ["not json"] under the key of
    session [abc] are answered with the generic error of the catch-all,
    status 500 and a message that starts with ["Internal server error: "];
    and the bytes ["{}"], which are JSON but no session document, with
    status 200 and the document itself. *)
Lemma corrupt_metadata_is_internal_error :
  internal_error
    (fetch world defaults (get "/api/session/abc")
       {[ metaKey "abc" := text_object "not json" ]}).1
  ∧ status
      (fetch world defaults (get "/api/session/abc")
         {[ metaKey "abc" := text_object "not json" ]}).1 = 500
  ∧ (fetch world defaults (get "/api/session/abc")
       {[ metaKey "abc" := text_object "{}" ]}).1
    = jsonResponse (JObj []) 200.
Proof.
  split; [|split].
  - now exists "Unexpected token in JSON".
  - reflexivity.
  - reflexivity.
Qed.

Lemma getSession_unchecked_witness :
  internal_error
    (fetch world defaults (get "/api/session/abc")
       {[ metaKey "abc" := text_object "{" ]}).1
  ∧ fetch world defaults (get "/api/session/abc")
      {[ metaKey "abc" := text_object "null" ]}
    = (errorResponse
         ("Internal server error: "
          ++ "Cannot read properties of null (reading 'expiresAt')") 500,
       {[ metaKey "abc" := text_object "null" ]})
  ∧ fetch world defaults (get "/api/session/abc")
      {[ metaKey "abc" := text_object "[7]" ]}
    = (jsonResponse (JArr [JNum 7]) 200,
       {[ metaKey "abc" := text_object "[7]" ]})
  ∧ fetch world defaults (get "/api/session/abc")
      {[ metaKey "abc"
         := text_object
              (Ref.stringify (JObj [("expiresAt", JStr expired)])) ]}
    = (errorResponse "Session expired" 410,
       {[ metaKey "abc"
          := text_object
              (Ref.stringify (JObj [("expiresAt", JStr expired)])) ]}).
Proof.
  split; [|split; [|split]].
  - exists "Unexpected token in JSON".
    enough (E : fetch world defaults (get "/api/session/abc")
                  {[ metaKey "abc" := text_object "{" ]}
                = (errorResponse
                     ("Internal server error: " ++ "Unexpected token in JSON")
                     500, {[ metaKey "abc" := text_object "{" ]}))
      by now rewrite E.
    apply (λ Hm Hp Hid Hobj,
             proj1 (getSession_unchecked world defaults
                      (get "/api/session/abc")
                      {[ metaKey "abc" := text_object "{" ]} "abc"
                      (text_object "{") Hm Hp Hid Hobj)
               "Unexpected token in JSON");
      vm_compute; reflexivity.
  - apply (λ Hm Hp Hid Hobj,
             proj1 (proj2 (getSession_unchecked world defaults
                             (get "/api/session/abc")
                             {[ metaKey "abc" := text_object "null" ]} "abc"
                             (text_object "null") Hm Hp Hid Hobj)));
      vm_compute; reflexivity.
  - apply (λ Hm Hp Hid Hobj,
             proj1 (proj2 (proj2 (getSession_unchecked world defaults
                                    (get "/api/session/abc")
                                    {[ metaKey "abc" := text_object "[7]" ]}
                                    "abc" (text_object "[7]")
                                    Hm Hp Hid Hobj))) (JArr [JNum 7]));
      first [ vm_compute; reflexivity
            | right; right; right; left; exists [JNum 7]; reflexivity ].
  - apply (λ Hm Hp Hid Hobj,
             proj2 (proj2 (proj2 (getSession_unchecked world defaults
                                    (get "/api/session/abc")
                                    {[ metaKey "abc"
                                       := text_object
                                            (Ref.stringify
                                               (JObj [("expiresAt",
                                                       JStr expired)])) ]}
                                    "abc"
                                    (text_object
                                       (Ref.stringify
                                          (JObj [("expiresAt",
                                                  JStr expired)])))
                                    Hm Hp Hid Hobj)))
               [("expiresAt", JStr expired)] expired 1699401600000);
      vm_compute; reflexivity.
Defined.

Lemma upload_quota_exceeded_witness :
  fetch world (limits "2" "1") (upload (Some (FFile (jpeg "c.jpg" 4))) None)
    (bucket current 2 two_photos)
  = (errorResponse "Maximum 2 photos per session" 429,
     bucket current 2 two_photos)
  ∧ (MAX_PHOTOS_PER_SESSION (limits "2" "1") = None → 2 = 50).
Proof.
  apply (upload_quota_exceeded world (limits "2" "1")
           (upload (Some (FFile (jpeg "c.jpg" 4))) None)
           (bucket current 2 two_photos) "abc"
           (text_object (Ref.stringify (document current 2 two_photos)))
           (document current 2 two_photos) 2 2);
    first [vm_compute; reflexivity | lia].
Defined.

(** C3 on the worker: with no [MAX_FILE_SIZE_MB] set the limit is 25; a
    file of 25 MiB and one byte sent to a session that exists and is under
    its quota is rejected with status 400, nothing is written, and the
    message is ["File too large (max undefinedMB)"], in which the limit, 25,
    does not occur. *)
Lemma upload_too_large_witness :
  fetch world defaults (upload (Some (FFile (jpeg "a.jpg" 26214401))) None)
    (bucket current 0 [])
  = (errorResponse "File too large (max undefinedMB)" 400,
     bucket current 0 [])
  ∧ parseInt (str_or (MAX_FILE_SIZE_MB defaults) "25") = Some 25
  ∧ index 0 "25" "File too large (max undefinedMB)" = None.
Proof.
  split; [|split; reflexivity].
  apply (λ Hm Hp Hid Hobj Hmeta Hcount Hquota Hform Hfile Hlimit Hsize,
           proj1 (upload_too_large world defaults
                    (upload (Some (FFile (jpeg "a.jpg" 26214401))) None)
                    (bucket current 0 []) "abc"
                    (text_object (Ref.stringify (document current 0 [])))
                    (document current 0 []) (Some (JNum 0))
                    (form (Some (FFile (jpeg "a.jpg" 26214401))) None)
                    (jpeg "a.jpg" 26214401) 25
                    Hm Hp Hid Hobj Hmeta Hcount Hquota Hform Hfile Hlimit
                    Hsize));
    first [vm_compute; reflexivity | lia].
Defined.

(** C4 on the worker: an upload whose form has neither a file nor a file
    name, to a session that exists and is under its quota, is answered with
    status 500 (Internal), not 400 (BadRequest). *)
Lemma upload_without_file_or_name_witness :
  fetch world defaults (upload None None) (bucket current 0 [])
  = (errorResponse
       "Internal server error: Cannot read properties of null (reading 'name')"
       500, bucket current 0 []).
Proof.
  apply (upload_without_file_or_name world defaults (upload None None)
           (bucket current 0 []) "abc"
           (text_object (Ref.stringify (document current 0 [])))
           (document current 0 []) (Some (JNum 0)) (form None None));
    vm_compute; reflexivity.
Defined.


(** A bucket in which [a.jpg] of session [abc] has a photo and no
    thumbnail. *)
Definition with_photo : R2 :=
  <[photoKey "abc" "a.jpg" :=
      {| body := "JFIF"; contentType := Some "image/png";
         customMetadata := [] |}]> (bucket expired 1 [record "a.jpg"]).

(** The same bucket with a thumbnail of [a.jpg] as well. *)
Definition with_thumb : R2 :=
  <[thumbKey "abc" "a.jpg" :=
      {| body := "tiny"; contentType := Some "image/jpeg";
         customMetadata := [] |}]> with_photo.

Lemma getThumb_fallback_witness :
  fetch world defaults (get "/api/session/abc/thumb/a.jpg") with_photo
  = ({| status := 200;
        headers :=
          [("Content-Type", "image/png");
           ("Cache-Control", "public, max-age=86400");
           ("Access-Control-Allow-Origin", "*");
           ("Access-Control-Allow-Methods", "GET, POST, PUT, DELETE, OPTIONS");
           ("Access-Control-Allow-Headers", "Content-Type")];
        response_body := Some "JFIF" |}, with_photo)
  ∧ fetch world defaults (get "/api/session/abc/thumb/a.jpg") with_thumb
    = ({| status := 200;
          headers :=
            [("Content-Type", "image/jpeg");
             ("Cache-Control", "public, max-age=86400");
             ("Access-Control-Allow-Origin", "*");
             ("Access-Control-Allow-Methods",
              "GET, POST, PUT, DELETE, OPTIONS");
             ("Access-Control-Allow-Headers", "Content-Type")];
          response_body := Some "tiny" |}, with_thumb)
  ∧ fetch world defaults (get "/api/session/abc/thumb/b.jpg") with_thumb
    = (errorResponse "Photo not found" 404, with_thumb).
Proof.
  split; [|split].
  - apply (getThumb_fallback world defaults
             (get "/api/session/abc/thumb/a.jpg") with_photo "abc" "a.jpg"
             "a.jpg");
      first [vm_compute; reflexivity | discriminate].
  - apply (getThumb_fallback world defaults
             (get "/api/session/abc/thumb/a.jpg") with_thumb "abc" "a.jpg"
             "a.jpg");
      first [vm_compute; reflexivity | discriminate].
  - apply (getThumb_fallback world defaults
             (get "/api/session/abc/thumb/b.jpg") with_thumb "abc" "b.jpg"
             "b.jpg");
      first [vm_compute; reflexivity | discriminate].
Defined.

(** C9 fails on the worker: the file name [../../xyz/meta.json] is
    neither rejected nor rewritten.  The upload is accepted, and the photo
    is stored under the key made of the session prefix and that very
    name. *)
Lemma traversal_name_accepted :
  status
    (fetch world defaults
       (upload (Some (FFile (jpeg "a.jpg" 4))) (Some "../../xyz/meta.json"))
       (bucket current 0 [])).1 = 200
  ∧ (fetch world defaults
       (upload (Some (FFile (jpeg "a.jpg" 4))) (Some "../../xyz/meta.json"))
       (bucket current 0 [])).2
    !! "sessions/abc/photos/../../xyz/meta.json"
    = Some {| body := "JFIF"; contentType := Some "image/jpeg";
              customMetadata :=
                [("groupId", ""); ("originalName", "../../xyz/meta.json")] |}.
Proof. split; vm_compute; reflexivity. Qed.

Lemma upload_name_verbatim_witness :
  ∃ form file,
    request_formData (upload (Some (FFile (jpeg "a.jpg" 4))) (Some "x/../y"))
    = Ok form
    ∧ form_file form = Some (FFile file)
    ∧ let fname := str_or (form_fname form) (file_name file) in
      photoKey "abc" fname = ("sessions/" ++ "abc" ++ "/photos/") ++ fname
      ∧ thumbKey "abc" fname = ("sessions/" ++ "abc" ++ "/thumbs/") ++ fname
      ∧ (fetch world defaults
           (upload (Some (FFile (jpeg "a.jpg" 4))) (Some "x/../y"))
           (bucket current 0 [])).2 !! photoKey "abc" fname
        = Some (stored_photo form file)
      ∧ get_prop (photo_record form file) "fname" = Ok (Some (JStr fname))
      ∧ (∀ key, key ≠ metaKey "abc" → key ≠ photoKey "abc" fname →
                key ≠ thumbKey "abc" fname →
                (fetch world defaults
                   (upload (Some (FFile (jpeg "a.jpg" 4))) (Some "x/../y"))
                   (bucket current 0 [])).2 !! key
                = bucket current 0 [] !! key).
Proof.
  apply (upload_name_verbatim world defaults
           (upload (Some (FFile (jpeg "a.jpg" 4))) (Some "x/../y"))
           (bucket current 0 []) _ "abc"
           (fetch world defaults
              (upload (Some (FFile (jpeg "a.jpg" 4))) (Some "x/../y"))
              (bucket current 0 [])).1);
    first [apply surjective_pairing | vm_compute; reflexivity].
Defined.

Lemma upload_same_name_appends_witness :
  ∃ obj' fs',
    (fetch world defaults (upload (Some (FFile (jpeg "a.jpg" 4))) None)
       with_photo).2 !! photoKey "abc" "a.jpg"
    = Some (stored_photo (form (Some (FFile (jpeg "a.jpg" 4))) None)
              (jpeg "a.jpg" 4))
    ∧ body (stored_photo (form (Some (FFile (jpeg "a.jpg" 4))) None)
              (jpeg "a.jpg" 4)) = "JFIF"
    ∧ (fetch world defaults (upload (Some (FFile (jpeg "a.jpg" 4))) None)
         with_photo).2 !! metaKey "abc" = Some obj'
    ∧ JSON_parse (body obj') = Ok (JObj fs')
    ∧ lookup_field "photos" fs'
      = Some (JArr ([record "a.jpg"]
                    ++ [photo_record (form (Some (FFile (jpeg "a.jpg" 4))) None)
                          (jpeg "a.jpg" 4)]))
    ∧ lookup_field "photoCount" fs' = Some (JNum (1 + 1))
    ∧ named "a.jpg"
        (photo_record (form (Some (FFile (jpeg "a.jpg" 4))) None)
           (jpeg "a.jpg" 4)) = true
    ∧ (2 ≤ length
             (List.filter (named "a.jpg")
                ([record "a.jpg"]
                 ++ [photo_record (form (Some (FFile (jpeg "a.jpg" 4))) None)
                       (jpeg "a.jpg" 4)])))%nat.
Proof.
  apply (upload_same_name_appends world defaults
           (upload (Some (FFile (jpeg "a.jpg" 4))) None) with_photo _ "abc"
           (fetch world defaults (upload (Some (FFile (jpeg "a.jpg" 4))) None)
              with_photo).1
           (text_object (Ref.stringify (document expired 1 [record "a.jpg"])))
           (match document expired 1 [record "a.jpg"] with
            | JObj fs => fs
            | _ => []
            end)
           [record "a.jpg"] 1 (form (Some (FFile (jpeg "a.jpg" 4))) None)
           (jpeg "a.jpg" 4) (record "a.jpg"));
    first [apply surjective_pairing | vm_compute; reflexivity | now left].
Defined.


Lemma photoCount_is_length_witness :
  bucket_ok
    (run [(world, defaults, post_json "/api/session" (JObj []));
          (world, defaults,
           post_form "/api/session/AAAAAAAA/upload"
             (form (Some (FFile (jpeg "a.jpg" 4))) None))] ∅)
  ∧ (∃ id obj fs,
       valid_id id = true
       ∧ (fetch world defaults (post_json "/api/session" (JObj [])) ∅).2
           !! metaKey id = Some obj
       ∧ JSON_parse (body obj) = Ok (JObj fs)
       ∧ lookup_field "photoCount" fs = Some (JNum 0)
       ∧ lookup_field "photos" fs = Some (JArr []))
  ∧ (∃ obj' fs' added,
       (fetch world defaults (upload (Some (FFile (jpeg "a.jpg" 4))) None)
          with_photo).2 !! metaKey "abc" = Some obj'
       ∧ JSON_parse (body obj') = Ok (JObj fs')
       ∧ lookup_field "photos" fs' = Some (JArr ([record "a.jpg"] ++ [added]))
       ∧ lookup_field "photoCount" fs'
         = Some (JNum (Z.of_nat (length ([record "a.jpg"] ++ [added]))))).
Proof.
  split; [apply (proj1 photoCount_is_length)|]. split.
  - apply (proj1 (proj2 photoCount_is_length) world defaults
             (post_json "/api/session" (JObj [])) ∅
             (fetch world defaults (post_json "/api/session" (JObj [])) ∅).1);
      first [apply surjective_pairing | vm_compute; reflexivity].
  - apply (proj2 (proj2 photoCount_is_length) world defaults
             (upload (Some (FFile (jpeg "a.jpg" 4))) None) with_photo "abc"
             (fetch world defaults (upload (Some (FFile (jpeg "a.jpg" 4))) None)
                with_photo).1
             _
             (text_object (Ref.stringify (document expired 1 [record "a.jpg"])))
             (match document expired 1 [record "a.jpg"] with
              | JObj fs => fs
              | _ => []
              end)
             [record "a.jpg"]);
      first [apply surjective_pairing | vm_compute; reflexivity].
Defined.

Lemma expiry_only_on_getSession_witness :
  (fetch world defaults (get "/api/session/abc") with_thumb
   = (errorResponse "Session expired" 410, with_thumb)
   ∧ status
       (fetch world defaults (upload (Some (FFile (jpeg "b.jpg" 4))) None)
          with_thumb).1 = 200
   ∧ (∃ photo,
        (fetch world defaults (upload (Some (FFile (jpeg "b.jpg" 4))) None)
           with_thumb).2 !! photoKey "abc" "b.jpg" = Some photo
        ∧ body photo = "JFIF")
   ∧ (∃ obj' fs',
        (fetch world defaults (upload (Some (FFile (jpeg "b.jpg" 4))) None)
           with_thumb).2 !! metaKey "abc" = Some obj'
        ∧ JSON_parse (body obj') = Ok (JObj fs')
        ∧ lookup_field "photos" fs'
          = Some (JArr ([record "a.jpg"]
                        ++ [photo_record
                              (form (Some (FFile (jpeg "b.jpg" 4))) None)
                              (jpeg "b.jpg" 4)]))
        ∧ lookup_field "expiresAt" fs' = Some (JStr expired))
   ∧ fetch world defaults (get "/api/session/abc")
       (fetch world defaults (upload (Some (FFile (jpeg "b.jpg" 4))) None)
          with_thumb).2
     = (errorResponse "Session expired" 410,
        (fetch world defaults (upload (Some (FFile (jpeg "b.jpg" 4))) None)
           with_thumb).2))
  ∧ fetch world defaults (get "/api/session/abc/photo/a.jpg") with_thumb
    = ({| status := 200;
          headers :=
            [("Content-Type", "image/png");
             ("Cache-Control", "public, max-age=86400");
             ("Access-Control-Allow-Origin", "*");
             ("Access-Control-Allow-Methods",
              "GET, POST, PUT, DELETE, OPTIONS");
             ("Access-Control-Allow-Headers", "Content-Type")];
          response_body := Some "JFIF" |}, with_thumb)
  ∧ fetch world defaults (get "/api/session/abc/thumb/a.jpg") with_thumb
    = ({| status := 200;
          headers :=
            [("Content-Type", "image/jpeg");
             ("Cache-Control", "public, max-age=86400");
             ("Access-Control-Allow-Origin", "*");
             ("Access-Control-Allow-Methods",
              "GET, POST, PUT, DELETE, OPTIONS");
             ("Access-Control-Allow-Headers", "Content-Type")];
          response_body := Some "tiny" |}, with_thumb).
Proof.
  split; [|split].
  - apply (proj1 (proj2 expiry_only_on_getSession)
             world defaults (get "/api/session/abc")
             (upload (Some (FFile (jpeg "b.jpg" 4))) None)
             with_thumb "abc"
             (text_object (Ref.stringify (document expired 1 [record "a.jpg"])))
             (match document expired 1 [record "a.jpg"] with
              | JObj fs => fs
              | _ => []
              end)
             [record "a.jpg"] (form (Some (FFile (jpeg "b.jpg" 4))) None)
             (jpeg "b.jpg" 4) expired 1699401600000);
      first [vm_compute; reflexivity | exact I].
  - apply (λ Hrm Hrp Hm Hp Hid Hne Hraw Hname Hobj Hmeta Hexp Ht Hlt Hphoto,
             proj2 (proj1 (proj2 (proj2 expiry_only_on_getSession))
                      world defaults (get "/api/session/abc")
                      (get "/api/session/abc/photo/a.jpg") with_thumb
                      "abc" "a.jpg" "a.jpg"
                      {| body := "JFIF"; contentType := Some "image/png";
                         customMetadata := [] |}
                      (text_object
                         (Ref.stringify (document expired 1 [record "a.jpg"])))
                      (match document expired 1 [record "a.jpg"] with
                       | JObj fs => fs
                       | _ => []
                       end)
                      expired 1699401600000
                      Hrm Hrp Hm Hp Hid Hne Hraw Hname Hobj Hmeta Hexp Ht Hlt
                      Hphoto));
      first [vm_compute; reflexivity | discriminate].
  - apply (λ Hrm Hrp Hm Hp Hid Hne Hraw Hname Hobj Hmeta Hexp Ht Hlt Hthumb,
             proj2 (proj2 (proj2 (proj2 expiry_only_on_getSession))
                      world defaults (get "/api/session/abc")
                      (get "/api/session/abc/thumb/a.jpg") with_thumb
                      "abc" "a.jpg" "a.jpg"
                      {| body := "tiny"; contentType := Some "image/jpeg";
                         customMetadata := [] |}
                      (text_object
                         (Ref.stringify (document expired 1 [record "a.jpg"])))
                      (match document expired 1 [record "a.jpg"] with
                       | JObj fs => fs
                       | _ => []
                       end)
                      expired 1699401600000
                      Hrm Hrp Hm Hp Hid Hne Hraw Hname Hobj Hmeta Hexp Ht Hlt
                      Hthumb));
      first [vm_compute; reflexivity | discriminate].
Defined.

End Concrete.


(** * More of the worker *)

(** ** Identifiers (lines 6-16) *)

(** A character of the alphabet of [generateId]. *)
Definition in_alphabet (c : ascii) : bool :=
  existsb (Ascii.eqb c) (list_ascii_of_string chars).

Lemma append_char_alphabet (b : Byte.byte) :
  ∃ c, match String.get (Byte.to_nat b mod String.length chars) chars with
       | Some c => String c ""
       | None => "undefined"
       end = String c "" ∧ in_alphabet c = true.
Proof.
  assert (Hall : forallb (λ n, match String.get n chars with
                               | Some c => in_alphabet c
                               | None => false
                               end) (seq 0 (String.length chars)) = true)
    by (vm_compute; reflexivity).
  rewrite forallb_forall in Hall.
  specialize (Hall (Byte.to_nat b mod String.length chars)%nat).
  destruct (String.get _ chars) as [c|].
  - exists c. split; [reflexivity|]. apply Hall, in_seq. split; [lia|].
    apply Nat.mod_upper_bound. discriminate.
  - exfalso. enough (false = true) by discriminate.
    apply Hall, in_seq. split; [lia|].
    apply Nat.mod_upper_bound. discriminate.
Qed.

Lemma alphabet_alnum (s : string) :
  Routes.all_chars in_alphabet s = true →
  Routes.all_chars Routes.is_alnum s = true.
Proof.
  apply all_chars_mono. intros c.
  destruct c as [[] [] [] [] [] [] [] []]; vm_compute; congruence.
Qed.

Lemma generateId_fold (bytes : list Byte.byte) (id : string) :
  Routes.all_chars in_alphabet id = true →
  Routes.all_chars in_alphabet (fold_left append_char bytes id) = true.
Proof.
  revert id. induction bytes as [|b bytes IH]; intros id Hid; simpl;
    [assumption|].
  apply IH. destruct (append_char_alphabet b) as (c & Hc & Hin).
  unfold append_char. rewrite Hc, all_chars_app, Hid. simpl. now rewrite Hin.
Qed.

(** X1.  [generateId(len)] returns exactly [len] characters, each one of
    the 55 of its alphabet, whatever the random bytes; an identifier of one
    character or more is therefore accepted by the session route. *)
Theorem generateId_alphabet (len : nat) (w : World) :
  String.length (generateId len w) = len
  ∧ Routes.all_chars in_alphabet (generateId len w) = true
  ∧ valid_id (generateId (S len) w) = true
  ∧ Routes.sessionMatch ("/api/session/" ++ generateId (S len) w)
    = Some (generateId (S len) w).
Proof.
  assert (Hlen : ∀ n, String.length (generateId n w) = n).
  { intros n. unfold generateId.
    destruct (generateId_loop (getRandomValues w n) "" eq_refl) as [_ ->].
    unfold getRandomValues. now rewrite length_fmap, length_seq. }
  assert (Hin : ∀ n, Routes.all_chars in_alphabet (generateId n w) = true).
  { intros n. now apply generateId_fold. }
  assert (Hvalid : valid_id (generateId (S len) w) = true).
  { unfold valid_id. rewrite (alphabet_alnum _ (Hin (S len))).
    specialize (Hlen (S len)).
    now destruct (generateId (S len) w). }
  repeat split; auto. now apply sessionMatch_app.
Qed.

Section Further.
Context `{Platform}.

(** ** Routing (lines 36-46, 76, 93, 222-228) *)

(** X2.  The session route and the upload route accept exactly the paths
    [/api/session/<id>] and [/api/session/<id>/upload] whose identifier is
    one or more letters and digits: a path with a dot, a slash or a percent
    sign in its identifier reaches neither. *)
Theorem session_routes_exact (path id : string) :
  (Routes.sessionMatch path = Some id
   ↔ valid_id id = true ∧ path = "/api/session/" ++ id)
  ∧ (Routes.uploadMatch path = Some id
     ↔ valid_id id = true ∧ path = "/api/session/" ++ id ++ "/upload").
Proof.
  split; split.
  - unfold Routes.sessionMatch.
    destruct (Routes.session_prefix path) as [[a r]|] eqn:Hp; [|discriminate].
    destruct (String.eqb_spec r "") as [->|]; [|discriminate]. intros [= <-].
    apply session_prefix_valid in Hp as [Hid ->].
    now rewrite append_nil_r.
  - intros [Hid ->]. now apply sessionMatch_app.
  - unfold Routes.uploadMatch.
    destruct (Routes.session_prefix path) as [[a r]|] eqn:Hp; [|discriminate].
    destruct (String.eqb_spec r "/upload") as [->|]; [|discriminate].
    intros [= <-]. now apply session_prefix_valid in Hp.
  - intros [Hid ->]. now apply uploadMatch_app.
Qed.

(** X3.  Only a POST request writes: every request with another method
    leaves the bucket exactly as it was, whatever it is answered. *)
Theorem only_post_writes (w : World) (env : Env) (req : Request) (st : R2) :
  method req ≠ "POST" → (fetch w env req st).2 = st.
Proof.
  intros Hm. apply String.eqb_neq in Hm. unfold fetch.
  destruct (String.eqb (method req) "OPTIONS"); [reflexivity|].
  enough ((route w env req st).2 = st)
    by now destruct (route w env req st) as [[r|msg] st'].
  unfold route. rewrite Hm, andb_false_r.
  destruct (Routes.sessionMatch _) as [sid|], (String.eqb (method req) "GET");
    try apply getSession_bucket;
    (destruct (Routes.uploadMatch _) as [uid|];
     (destruct (Routes.photoMatch _) as [[pid pname]|];
      try apply getPhoto_outcome;
      (destruct (Routes.thumbMatch _) as [[tid tname]|];
       try apply getThumb_outcome; reflexivity))).
Qed.

(** X4.  A request whose method is none of GET, POST and OPTIONS is
    answered with status 404 and ["Not found"] on every path, and writes
    nothing.  PUT and DELETE, which the cross-origin headers allow, are
    such methods. *)
Theorem other_methods_not_found (w : World) (env : Env) (req : Request)
    (st : R2) :
  method req ≠ "GET" → method req ≠ "POST" → method req ≠ "OPTIONS" →
  fetch w env req st = (errorResponse "Not found" 404, st)
  ∧ In ("Access-Control-Allow-Methods", "GET, POST, PUT, DELETE, OPTIONS")
      (headers (fetch w env req st).1).
Proof.
  intros Hget%String.eqb_neq Hpost%String.eqb_neq Hopt%String.eqb_neq.
  assert (E : fetch w env req st = (errorResponse "Not found" 404, st)).
  { unfold fetch, route. rewrite Hopt, Hget, Hpost, andb_false_r.
    destruct (Routes.sessionMatch _), (Routes.uploadMatch _),
      (Routes.photoMatch _) as [[? ?]|], (Routes.thumbMatch _) as [[? ?]|];
      reflexivity. }
  split; [exact E|]. rewrite E. cbn. auto.
Qed.

(** ** Responses (lines 18-34) *)

(** A response that carries the three cross-origin headers. *)
Definition with_cors (r : Response) : Prop :=
  ∀ h, In h corsHeaders → In h (headers r).

Lemma jsonResponse_cors (data : json) (code : Z) :
  with_cors (jsonResponse data code).
Proof. intros h Hh. now right. Qed.

Lemma asset_cors (bytes ctype : string) :
  with_cors {| status := 200;
               headers := ("Content-Type", ctype)
                          :: ("Cache-Control", "public, max-age=86400")
                          :: corsHeaders;
               response_body := Some bytes |}.
Proof. intros h Hh. now do 2 right. Qed.

(** Every response of the upload route is a JSON response. *)
Lemma uploadPhoto_json (env : Env) (req : Request) (id : string)
    (st st' : R2) (r : Response) :
  uploadPhoto env req id st = (Ok r, st') → ∃ data code, r = jsonResponse data code.
Proof.
  intros Hrun. unfold uploadPhoto, bind, R2_get, R2_put, lift, ret in Hrun.
  assert (Hreject : ∀ msg code mid,
            (Ok (errorResponse msg code), mid) = (Ok r, st') →
            ∃ data code, r = jsonResponse data code).
  { intros msg code mid [= <- _]. now eexists _, _. }
  destruct (st !! metaKey id) as [obj|]; [|exact (Hreject _ _ _ Hrun)].
  destruct (JSON_parse (body obj)) as [meta|]; [|discriminate].
  destruct (get_prop meta "photoCount") as [count|]; [|discriminate].
  destruct (num_ge _ _); [exact (Hreject _ _ _ Hrun)|].
  destruct (request_formData req) as [form|]; [|discriminate].
  destruct (match form_fname form with
            | Some (String _ _ as s) => Ok (Some s)
            | _ => entry_name (form_file form)
            end) as [fname|]; [|discriminate].
  destruct (negb (entry_truthy (form_file form)));
    [exact (Hreject _ _ _ Hrun)|].
  destruct (num_gt _ _); [exact (Hreject _ _ _ Hrun)|].
  destruct (entry_stream "file" (form_file form)) as [bytes|]; [|discriminate].
  match type of Hrun with
  | (let (_, _) := ?step in _) = _ => destruct step as [[[]|] mid]
  end; [|discriminate].
  destruct (set_prop meta "photoCount" _) as [meta1|]; [|discriminate].
  destruct (push_photo meta1 _) as [meta2|]; [|discriminate].
  destruct (get_prop meta2 "photoCount") as [count2|]; [|discriminate].
  injection Hrun as <- _. now eexists _, _.
Qed.

(** X5.  Every response of the worker carries the three cross-origin
    headers: the preflight answer, the JSON answers of every route, the
    bytes of a photo or a thumbnail, and the answer of the catch-all. *)
Theorem every_response_has_cors (w : World) (env : Env) (req : Request)
    (st : R2) :
  with_cors (fetch w env req st).1.
Proof.
  unfold fetch.
  destruct (String.eqb (method req) "OPTIONS"); [now intros h Hh|].
  destruct (route w env req st) as [[r|msg] st'] eqn:Hrun;
    [|apply jsonResponse_cors].
  cbn [fst]. unfold route in Hrun.
  destruct (_ && _).
  { destruct (createSession_outcome _ _ _ _ _ _ Hrun)
      as [(msg & [=] & _) | (data & now & expiresAt & [= ->] & _)].
    apply jsonResponse_cors. }
  assert (Hget : ∀ sid, getSession w sid st = (Ok r, st') → with_cors r).
  { intros sid. unfold getSession, bind, R2_get, lift, ret.
    destruct (st !! metaKey sid) as [obj|];
      [|intros [= <- _]; apply jsonResponse_cors].
    destruct (JSON_parse (body obj)) as [meta|]; [|discriminate].
    destruct (get_prop meta "expiresAt") as [e|]; [|discriminate].
    destruct (num_lt _ _); intros [= <- _]; apply jsonResponse_cors. }
  assert (Hphoto : ∀ pid raw, getPhoto pid raw st = (Ok r, st') → with_cors r).
  { intros pid raw. unfold getPhoto, bind, R2_get, lift, ret.
    destruct (decodeURIComponent raw) as [name|]; [|discriminate].
    destruct (st !! photoKey pid name) as [photo|]; intros [= <- _];
      [apply asset_cors | apply jsonResponse_cors]. }
  assert (Hthumb : ∀ tid raw, getThumb tid raw st = (Ok r, st') → with_cors r).
  { intros tid raw. unfold getThumb, bind, R2_get, lift, ret.
    destruct (decodeURIComponent raw) as [name|]; [|discriminate].
    destruct (st !! thumbKey tid name) as [thumb|];
      [|destruct (st !! photoKey tid name) as [photo|]]; intros [= <- _];
      first [apply asset_cors | apply jsonResponse_cors]. }
  assert (Hupload : ∀ uid, uploadPhoto env req uid st = (Ok r, st') → with_cors r).
  { intros uid Hup.
    destruct (uploadPhoto_json _ _ _ _ _ _ Hup) as (data & code & ->).
    apply jsonResponse_cors. }
  destruct (Routes.sessionMatch _) as [sid|], (String.eqb (method req) "GET");
    try (now apply (Hget sid));
    (destruct (Routes.uploadMatch _) as [uid|],
              (String.eqb (method req) "POST");
     try (now apply (Hupload uid));
     (destruct (Routes.photoMatch _) as [[pid pname]|];
      try (now apply (Hphoto pid pname));
      (destruct (Routes.thumbMatch _) as [[tid tname]|];
       try (now apply (Hthumb tid tname));
       injection Hrun as <- _; apply jsonResponse_cors))).
Qed.

(** ** CreateSession (lines 47-73) *)

(** X6.  CreateSession answers with the new identifier and with the expiry
    timestamp, which is the second reading of the clock plus
    [SESSION_TTL_DAYS] days (7 when the variable is not set), and writes one
    object: the new document, under the key of the new identifier. *)
Theorem createSession_expiry (w : World) (env : Env) (req : Request) (st : R2)
    (data : json) (days : Z) :
  method req = "POST" → pathname req = "/api/session" →
  request_json req = Ok data → data ≠ JNull →
  parseInt (str_or (SESSION_TTL_DAYS env) "7") = Some days →
  Z.abs (clock w 0) ≤ max_time →
  Z.abs (clock w 1 + days * 86400000) ≤ max_time →
  let id := generateId 8 w in
  let expiresAt := Date_toISOString (clock w 1 + days * 86400000) in
  fetch w env req st
  = (jsonResponse
       (JObj [("sessionId", JStr id); ("expiresAt", JStr expiresAt)]) 200,
     <[metaKey id :=
         {| body := JSON_stringify
                      (JObj (new_fields id (Date_toISOString (clock w 0))
                               expiresAt data));
            contentType := Some "application/json";
            customMetadata := [] |}]> st)
  ∧ (SESSION_TTL_DAYS env = None → days = 7).
Proof.
  intros Hm Hp Hdata Hnull Hdays Hnow Hexp id expiresAt. split.
  - rewrite (fetch_createSession w env req st Hm Hp).
    unfold createSession, bind, R2_put, lift, ret, toISOString, TimeClip.
    rewrite Hdata, Hdays. cbn [fmap option_fmap option_map].
    rewrite (proj2 (Z.leb_le _ _) Hnow), (proj2 (Z.leb_le _ _) Hexp).
    now destruct data.
  - intros Hnone. rewrite Hnone in Hdays. now injection Hdays.
Qed.

(** X7.  When [parseInt] cannot read [SESSION_TTL_DAYS], the expiry is an
    invalid date: CreateSession is answered by the catch-all with status 500
    and ["Invalid time value"], and no session is written. *)
Theorem createSession_unreadable_ttl (w : World) (env : Env) (req : Request)
    (st : R2) (data : json) :
  method req = "POST" → pathname req = "/api/session" →
  request_json req = Ok data →
  parseInt (str_or (SESSION_TTL_DAYS env) "7") = None →
  Z.abs (clock w 0) ≤ max_time →
  fetch w env req st
  = (errorResponse "Internal server error: Invalid time value" 500, st).
Proof.
  intros Hm Hp Hdata Hdays Hnow.
  rewrite (fetch_createSession w env req st Hm Hp).
  unfold createSession, bind, R2_put, lift, ret, toISOString, TimeClip.
  rewrite Hdata, Hdays. cbn [fmap option_fmap option_map].
  now rewrite (proj2 (Z.leb_le _ _) Hnow).
Qed.

(** X8.  CreateSession does not look for the new identifier in the bucket.
    Whatever the bucket held under the key of that identifier, a session
    document included, it holds the new document afterwards, with photo
    count 0 and an empty photo list; every other object, the photos of an
    older session of that identifier among them, stays where it was. *)
Theorem create_replaces_same_identifier (w : World) (env : Env)
    (req : Request) (st st' : R2) (r : Response) :
  method req = "POST" → pathname req = "/api/session" →
  fetch w env req st = (r, st') → status r = 200 →
  ∃ obj fs,
    st' !! metaKey (generateId 8 w) = Some obj
    ∧ JSON_parse (body obj) = Ok (JObj fs)
    ∧ lookup_field "photoCount" fs = Some (JNum 0)
    ∧ lookup_field "photos" fs = Some (JArr [])
    ∧ ∀ key, key ≠ metaKey (generateId 8 w) → st' !! key = st !! key.
Proof.
  intros Hm Hp Hrun Hstatus.
  rewrite (fetch_createSession w env req st Hm Hp) in Hrun.
  apply answer_200 in Hrun; [|assumption].
  destruct (createSession_outcome _ _ _ _ _ _ Hrun)
    as [(msg & [=] & _) | (data & now & expiresAt & _ & ->)].
  eexists _, _. split; [apply lookup_insert_eq|].
  split; [apply JSON_parse_stringify|]. repeat split.
  intros key Hkey. now apply lookup_insert_ne.
Qed.

(** ** GetSession (lines 75-90) *)

(** X9.  Reading a session that has no document fails with status 404 and
    ["Session not found"]. *)
Theorem getSession_not_found (w : World) (env : Env) (req : Request) (st : R2)
    (id : string) :
  method req = "GET" → pathname req = "/api/session/" ++ id →
  valid_id id = true →
  st !! metaKey id = None →
  fetch w env req st = (errorResponse "Session not found" 404, st).
Proof.
  intros Hm Hp Hid Hobj.
  rewrite (fetch_getSession w env req st id Hm Hp Hid).
  unfold getSession, bind, R2_get, lift, ret. now rewrite Hobj.
Qed.

(** X10.  A session is readable up to and at its expiry timestamp: the
    comparison is strict, so a request at the very millisecond of expiry is
    still answered with status 200 and the whole document. *)
Theorem getSession_until_expiry (w : World) (env : Env) (req : Request)
    (st : R2) (id : string) (obj : R2Object) (meta : json)
    (expiresAt : string) (t : Z) :
  method req = "GET" → pathname req = "/api/session/" ++ id →
  valid_id id = true →
  st !! metaKey id = Some obj →
  JSON_parse (body obj) = Ok meta →
  get_prop meta "expiresAt" = Ok (Some (JStr expiresAt)) →
  Date_parse expiresAt = Some t →
  clock w 0 ≤ t →
  fetch w env req st = (jsonResponse meta 200, st).
Proof.
  intros Hm Hp Hid Hobj Hmeta Hexp Ht Hle.
  rewrite (fetch_getSession w env req st id Hm Hp Hid).
  unfold getSession, bind, R2_get, lift, ret. rewrite Hobj, Hmeta, Hexp.
  cbn [new_Date]. rewrite Ht. unfold num_lt.
  now rewrite (proj2 (Z.ltb_ge _ _) Hle).
Qed.

(** X11.  A session whose document has no [expiresAt], or one that is no
    date, never expires: the comparison with an invalid date is false, and
    the document is returned at every time. *)
Theorem getSession_undated_never_expires (w : World) (env : Env)
    (req : Request) (st : R2) (id : string) (obj : R2Object) (meta : json)
    (e : option json) :
  method req = "GET" → pathname req = "/api/session/" ++ id →
  valid_id id = true →
  st !! metaKey id = Some obj →
  JSON_parse (body obj) = Ok meta →
  get_prop meta "expiresAt" = Ok e →
  e = None ∨ (∃ s, e = Some (JStr s) ∧ Date_parse s = None) →
  fetch w env req st = (jsonResponse meta 200, st).
Proof.
  intros Hm Hp Hid Hobj Hmeta Hexp He.
  rewrite (fetch_getSession w env req st id Hm Hp Hid).
  unfold getSession, bind, R2_get, lift, ret. rewrite Hobj, Hmeta, Hexp.
  destruct He as [-> | (s & -> & Hs)]; cbn [new_Date]; [reflexivity|].
  now rewrite Hs.
Qed.

(** X12.  A session that CreateSession has just written is read back by
    GetSession.  When the creation succeeds and the runtime reads its own
    ISO text of the expiry back as the time it wrote, a GET of the new
    identifier at any clock up to and at the expiry, that is the second
    clock reading of the creation plus [SESSION_TTL_DAYS] days, is answered
    with status 200 and the stored document: the new identifier, that
    expiry, photo count 0 and an empty photo list. *)
Theorem created_session_is_readable (w w' : World) (env env' : Env)
    (req req' : Request) (st : R2) (data : json) (days : Z) :
  method req = "POST" → pathname req = "/api/session" →
  request_json req = Ok data → data ≠ JNull →
  parseInt (str_or (SESSION_TTL_DAYS env) "7") = Some days →
  Z.abs (clock w 0) ≤ max_time →
  Z.abs (clock w 1 + days * 86400000) ≤ max_time →
  Date_parse (Date_toISOString (clock w 1 + days * 86400000))
  = Some (clock w 1 + days * 86400000) →
  method req' = "GET" →
  pathname req' = "/api/session/" ++ generateId 8 w →
  clock w' 0 ≤ clock w 1 + days * 86400000 →
  status (fetch w env req st).1 = 200
  ∧ ∃ fs,
      fetch w' env' req' (fetch w env req st).2
      = (jsonResponse (JObj fs) 200, (fetch w env req st).2)
      ∧ lookup_field "id" fs = Some (JStr (generateId 8 w))
      ∧ lookup_field "expiresAt" fs
        = Some (JStr (Date_toISOString (clock w 1 + days * 86400000)))
      ∧ lookup_field "photoCount" fs = Some (JNum 0)
      ∧ lookup_field "photos" fs = Some (JArr []).
Proof.
  intros Hm Hp Hdata Hnull Hdays Hnow Hexp Hback Hm' Hp' Hle.
  assert (Hrun : fetch w env req st
                 = (jsonResponse
                      (JObj [("sessionId", JStr (generateId 8 w));
                             ("expiresAt",
                              JStr (Date_toISOString
                                      (clock w 1 + days * 86400000)))]) 200,
                    <[metaKey (generateId 8 w) :=
                        {| body := JSON_stringify
                                     (JObj (new_fields (generateId 8 w)
                                              (Date_toISOString (clock w 0))
                                              (Date_toISOString
                                                 (clock w 1 + days * 86400000))
                                              data));
                           contentType := Some "application/json";
                           customMetadata := [] |}]> st)).
  { rewrite (fetch_createSession w env req st Hm Hp).
    unfold createSession, bind, R2_put, lift, ret, toISOString, TimeClip.
    rewrite Hdata, Hdays. cbn [fmap option_fmap option_map].
    rewrite (proj2 (Z.leb_le _ _) Hnow), (proj2 (Z.leb_le _ _) Hexp).
    now destruct data. }
  rewrite Hrun. cbn [fst snd]. split; [reflexivity|].
  exists (new_fields (generateId 8 w) (Date_toISOString (clock w 0))
            (Date_toISOString (clock w 1 + days * 86400000)) data).
  split; [|repeat split].
  rewrite (fetch_getSession w' env' req' _ _ Hm' Hp' (generateId_valid w)).
  unfold getSession, bind, R2_get, lift, ret.
  rewrite lookup_insert_eq. cbn [body]. rewrite JSON_parse_stringify.
  cbn [get_prop new_fields lookup_field String.eqb Ascii.eqb Bool.eqb new_Date].
  rewrite Hback. unfold num_lt.
  now rewrite (proj2 (Z.ltb_ge _ _) Hle).
Qed.

(** ** UploadPhoto (lines 92-173) *)

(** Lines 133-145: the bytes to store as the thumbnail, if the form has
    one. *)
Definition thumbnail_bytes (thumbData : option FormValue)
  : result (option string) :=
  match thumbData with
  | Some (FText (String c s)) =>
      match atob (strip_data_url (String c s)) with
      | Ok bytes => Ok (Some bytes)
      | Throw msg => Throw msg
      end
  | Some (FFile f) => Ok (Some (file_bytes f))
  | _ => Ok None
  end.

(** The bucket once the photo and the thumbnail are stored. *)
Definition with_assets (id : string) (form : FormData) (file : File)
    (thumb : option string) (st : R2) : R2 :=
  let fname := str_or (form_fname form) (file_name file) in
  let st := <[photoKey id fname := stored_photo form file]> st in
  match thumb with
  | Some bytes =>
      <[thumbKey id fname :=
          {| body := bytes; contentType := Some "image/jpeg";
             customMetadata := [] |}]> st
  | None => st
  end.

(** The outcome of an upload that passes the four checks, from the
    outcome of its thumbnail. *)
Lemma uploadPhoto_stores (env : Env) (req : Request) (id : string) (st : R2)
    (obj : R2Object) (fs : list (string * json)) (l : list json)
    (form : FormData) (file : File) :
  st !! metaKey id = Some obj →
  JSON_parse (body obj) = Ok (JObj fs) →
  lookup_field "photos" fs = Some (JArr l) →
  num_ge (ToNumber (lookup_field "photoCount" fs))
    (parseInt (str_or (MAX_PHOTOS_PER_SESSION env) "50")) = false →
  request_formData req = Ok form →
  form_file form = Some (FFile file) →
  num_gt (Some (file_size file))
    ((λ mb, mb * 1024 * 1024) <$> parseInt (str_or (MAX_FILE_SIZE_MB env) "25"))
  = false →
  uploadPhoto env req id st =
  match thumbnail_bytes (form_thumb form) with
  | Ok thumb =>
      (Ok (jsonResponse
             (JObj [("ok", JBool true);
                    ("fname", JStr (str_or (form_fname form) (file_name file)));
                    ("photoCount",
                     number_json
                       (Z.succ <$> ToNumber (lookup_field "photoCount" fs)))])
             200),
       <[metaKey id :=
           {| body := JSON_stringify
                        (JObj (updated_fields fs l (photo_record form file)));
              contentType := Some "application/json";
              customMetadata := [] |}]> (with_assets id form file thumb st))
  | Throw msg => (Throw msg, with_assets id form file None st)
  end.
Proof.
  intros Hobj Hmeta Hphotos Hquota Hform Hfile Hsize.
  unfold uploadPhoto, bind, R2_get, R2_put, lift, ret.
  rewrite Hobj, Hmeta. cbn [get_prop]. rewrite Hquota, Hform, Hfile.
  assert (Hname : match form_fname form with
                  | Some (String _ _ as s) => Ok (Some s)
                  | _ => entry_name (Some (FFile file))
                  end = Ok (Some (str_or (form_fname form) (file_name file)))).
  { now destruct (form_fname form) as [[|? ?]|]. }
  rewrite Hname. cbn [entry_truthy entry_size negb]. rewrite Hsize.
  cbn [entry_type entry_stream show_string
       fmap option_fmap option_map field set_prop push_photo get_prop].
  rewrite lookup_assign_ne, Hphotos by discriminate.
  cbn [set_prop get_prop].
  rewrite lookup_assign_ne, lookup_assign_eq by discriminate.
  unfold thumbnail_bytes, with_assets.
  destruct (form_thumb form) as [[[|c s]|thumb]|]; cbn; try reflexivity.
  now destruct (atob _).
Qed.

(** Every answer of the upload route other than the acceptance: one of
    four rejections. *)
Lemma uploadPhoto_rejection (env : Env) (req : Request) (id : string)
    (st st' : R2) (r : Response) :
  uploadPhoto env req id st = (Ok r, st') → status r ≠ 200 →
  st' = st
  ∧ (r = errorResponse "Session not found" 404
     ∨ (r = errorResponse
              ("Maximum "
               ++ show_number
                    (parseInt (str_or (MAX_PHOTOS_PER_SESSION env) "50"))
               ++ " photos per session") 429
        ∧ ∃ limit, parseInt (str_or (MAX_PHOTOS_PER_SESSION env) "50")
                   = Some limit)
     ∨ r = errorResponse "No file provided" 400
     ∨ r = errorResponse
             ("File too large (max " ++ show_string (MAX_FILE_SIZE_MB env)
              ++ "MB)") 400).
Proof.
  intros Hrun Hstatus.
  unfold uploadPhoto, bind, R2_get, R2_put, lift, ret in Hrun.
  destruct (st !! metaKey id) as [obj|];
    [|injection Hrun as <- <-; auto].
  destruct (JSON_parse (body obj)) as [meta|]; [|discriminate].
  destruct (get_prop meta "photoCount") as [count|]; [|discriminate].
  destruct (num_ge _ _) eqn:Hquota.
  { injection Hrun as <- <-. split; [reflexivity|]. right; left.
    split; [reflexivity|].
    destruct (parseInt _) as [limit|]; [eauto|].
    now destruct (ToNumber count). }
  destruct (request_formData req) as [form|]; [|discriminate].
  destruct (match form_fname form with
            | Some (String _ _ as s) => Ok (Some s)
            | _ => entry_name (form_file form)
            end) as [fname|]; [|discriminate].
  destruct (negb (entry_truthy (form_file form)));
    [injection Hrun as <- <-; auto|].
  destruct (num_gt _ _); [injection Hrun as <- <-; auto 6|].
  destruct (entry_stream "file" (form_file form)) as [bytes|]; [|discriminate].
  match type of Hrun with
  | (let (_, _) := ?step in _) = _ => destruct step as [[[]|] mid]
  end; [|discriminate].
  destruct (set_prop meta "photoCount" _) as [meta1|]; [|discriminate].
  destruct (push_photo meta1 _) as [meta2|]; [|discriminate].
  destruct (get_prop meta2 "photoCount") as [count2|]; [|discriminate].
  injection Hrun as <- _. now contradict Hstatus.
Qed.

(** X13.  An upload to a session that has no document fails with status
    404 and ["Session not found"] before the form is read: it is so
    whatever the body of the request, and nothing is written. *)
Theorem upload_unknown_session (w : World) (env : Env) (req : Request)
    (st : R2) (id : string) :
  method req = "POST" → pathname req = "/api/session/" ++ id ++ "/upload" →
  valid_id id = true →
  st !! metaKey id = None →
  fetch w env req st = (errorResponse "Session not found" 404, st).
Proof.
  intros Hm Hp Hid Hobj.
  rewrite (fetch_uploadPhoto w env req st id Hm Hp Hid).
  unfold uploadPhoto, bind, R2_get, lift, ret. now rewrite Hobj.
Qed.

(** X14.  An upload that is answered with a status other than 200 and 500
    was rejected by one of the four checks, with status 404, 429 or 400,
    and has written nothing: no photo, no thumbnail, no document. *)
Theorem rejected_upload_writes_nothing (w : World) (env : Env) (req : Request)
    (st st' : R2) (id : string) (r : Response) :
  method req = "POST" → pathname req = "/api/session/" ++ id ++ "/upload" →
  valid_id id = true →
  fetch w env req st = (r, st') → status r ≠ 200 → status r ≠ 500 →
  st' = st ∧ (status r = 404 ∨ status r = 429 ∨ status r = 400).
Proof.
  intros Hm Hp Hid Hrun H200 H500.
  rewrite (fetch_uploadPhoto w env req st id Hm Hp Hid) in Hrun.
  destruct (uploadPhoto env req id st) as [[r0|msg] st0] eqn:Hup;
    cbn in Hrun; injection Hrun as <- <-; [|now contradict H500].
  destruct (uploadPhoto_rejection env req id st st0 r0 Hup H200)
    as [-> [-> | [[-> _] | [-> | ->]]]]; auto.
Qed.

(** X15.  With a [MAX_PHOTOS_PER_SESSION] that [parseInt] cannot read, the
    limit is [NaN] and the quota check rejects nothing: no upload is
    answered with status 429, whatever the photo count of the session. *)
Theorem unreadable_quota_never_rejects (w : World) (env : Env) (req : Request)
    (st : R2) (id : string) :
  method req = "POST" → pathname req = "/api/session/" ++ id ++ "/upload" →
  valid_id id = true →
  parseInt (str_or (MAX_PHOTOS_PER_SESSION env) "50") = None →
  status (fetch w env req st).1 ≠ 429.
Proof.
  intros Hm Hp Hid Hlimit.
  rewrite (fetch_uploadPhoto w env req st id Hm Hp Hid).
  destruct (uploadPhoto env req id st) as [[r|msg] st'] eqn:Hup;
    cbn; [|discriminate].
  destruct (decide (status r = 200)) as [->|H200]; [discriminate|].
  destruct (uploadPhoto_rejection env req id st st' r Hup H200)
    as [_ [-> | [[_ [limit Hl]] | [-> | ->]]]]; try discriminate.
  congruence.
Qed.

(** An integer that a JavaScript number holds exactly, together with its
    neighbours ([Number.isSafeInteger]).  On such integers the exact
    arithmetic of the embedding is the arithmetic of the worker's numbers;
    the two theorems below are stated for limits in this range. *)
Definition safe_integer (n : Z) : Prop := Z.abs n ≤ 9007199254740991.

(** Every session document of the bucket has a photo count that is the
    length of its photo list and is at most [limit]. *)
Definition within_quota (limit : Z) (st : R2) : Prop :=
  ∀ id obj, valid_id id = true → st !! metaKey id = Some obj →
    ∃ fs l,
      JSON_parse (body obj) = Ok (JObj fs)
      ∧ lookup_field "photoCount" fs = Some (JNum (Z.of_nat (length l)))
      ∧ lookup_field "photos" fs = Some (JArr l)
      ∧ Z.of_nat (length l) ≤ limit.

Lemma createSession_within_quota (limit : Z) (w : World) (env : Env)
    (req : Request) (st : R2) :
  0 ≤ limit →
  within_quota limit st → within_quota limit (createSession w env req st).2.
Proof.
  intros Hpos Hst.
  destruct (createSession w env req st) as [o st'] eqn:Hrun.
  destruct (createSession_outcome _ _ _ _ _ _ Hrun)
    as [(msg & -> & ->) | (data & now & expiresAt & -> & ->)];
    [assumption|].
  intros id obj Hid. cbn [snd].
  destruct (decide (metaKey (generateId 8 w) = metaKey id)) as [E|E].
  - rewrite E, lookup_insert_eq. intros [= <-]. cbn [body].
    exists (new_fields (generateId 8 w) now expiresAt data), [].
    now rewrite JSON_parse_stringify.
  - rewrite lookup_insert_ne by assumption. now apply Hst.
Qed.

Lemma uploadPhoto_within_quota (limit : Z) (env : Env) (req : Request)
    (id : string) (st : R2) :
  parseInt (str_or (MAX_PHOTOS_PER_SESSION env) "50") = Some limit →
  valid_id id = true →
  within_quota limit st → within_quota limit (uploadPhoto env req id st).2.
Proof.
  intros Hlimit Hid Hst.
  destruct (uploadPhoto env req id st) as [o st'] eqn:Hrun. cbn [snd].
  destruct (uploadPhoto_outcome _ _ _ _ _ _ Hrun)
    as [(r & -> & Hstatus) | [(r & -> & _ & ->) | (msg & -> & Hassets)]].
  - destruct (uploadPhoto_accepted env req id st st' r Hrun Hstatus)
      as (obj & fs & l & _ & _ & _ & Hobj & Hmeta & Hphotos & Hquota & _).
    destruct (Hst id obj Hid Hobj)
      as (fs0 & l0 & Hmeta0 & Hcount0 & Hphotos0 & Hle0).
    assert (fs0 = fs) as -> by congruence.
    assert (l0 = l) as -> by congruence.
    rewrite Hcount0, Hlimit in Hquota. cbn in Hquota.
    apply Z.leb_gt in Hquota.
    destruct (uploadPhoto_increments env req id st st' r obj fs l Hid Hrun
                Hstatus Hobj Hmeta Hcount0 Hphotos)
      as (obj' & fs' & added & Hobj' & Hmeta' & Hphotos' & Hcount' & Hother).
    intros id' obj1 Hid'. destruct (decide (id' = id)) as [->|Hne].
    + rewrite Hobj'. intros [= <-]. exists fs', (l ++ [added])%list.
      split; [assumption|]. rewrite length_app. cbn [length].
      split; [|split; [assumption | lia]].
      rewrite Hcount'. do 2 f_equal. lia.
    + rewrite (Hother id' Hid' Hne). now apply Hst.
  - assumption.
  - intros id' obj1 Hid'.
    rewrite (assets_only_meta id id' st st' Hid Hid' Hassets). now apply Hst.
Qed.

Lemma fetch_within_quota (limit : Z) (w : World) (env : Env) (req : Request)
    (st : R2) :
  0 ≤ limit →
  parseInt (str_or (MAX_PHOTOS_PER_SESSION env) "50") = Some limit →
  within_quota limit st → within_quota limit (fetch w env req st).2.
Proof.
  intros Hpos Hlimit Hst. unfold fetch.
  destruct (String.eqb (method req) "OPTIONS"); [assumption|].
  enough (within_quota limit (route w env req st).2)
    by now destruct (route w env req st) as [[r|msg] st'].
  unfold route.
  destruct (_ && _); [now apply createSession_within_quota|].
  destruct (Routes.sessionMatch _) as [sid|], (String.eqb (method req) "GET");
    try (now rewrite getSession_bucket);
    (destruct (Routes.uploadMatch _) as [uid|] eqn:Hup,
              (String.eqb (method req) "POST");
     try (apply uploadPhoto_within_quota;
          [assumption | now apply uploadMatch_valid in Hup | assumption]);
     (destruct (Routes.photoMatch _) as [[pid pname]|];
      try (now rewrite (proj1 (getPhoto_outcome _ _ _)));
      (destruct (Routes.thumbMatch _) as [[tid tname]|];
       try (now rewrite (proj1 (getThumb_outcome _ _ _)));
       assumption))).
Qed.

(** X16.  The quota is never exceeded.  In every bucket that a sequence of
    requests makes of the empty bucket, each request under a configuration
    whose photo limit [parseInt] reads as the same [limit], a safe integer
    that is not negative, every session document has a photo count that is
    the length of its photo list and is at most [limit]. *)
Theorem quota_never_exceeded (limit : Z)
    (requests : list (World * Env * Request)) :
  0 ≤ limit → safe_integer limit →
  Forall (λ q, parseInt (str_or (MAX_PHOTOS_PER_SESSION q.1.2) "50")
               = Some limit) requests →
  within_quota limit (run requests ∅).
Proof.
  intros Hpos _ Hlimit.
  assert (Hrun : ∀ st, within_quota limit st →
                       within_quota limit (run requests st)).
  { induction Hlimit as [|q requests Hq _ IH]; intros st Hst;
      [assumption|].
    apply IH, fetch_within_quota; assumption. }
  apply Hrun. intros id obj _ Hobj. now rewrite lookup_empty in Hobj.
Qed.

(** X17.  Both limits are inclusive on the side of acceptance.  With
    limits that are safe integers, an upload to a session whose photo count
    is the photo limit minus one, of a file whose size is exactly the size
    limit, [parseInt] of [MAX_FILE_SIZE_MB] times 1024 times 1024 bytes, is
    accepted: the photo is stored under its key, and the document is written
    back with the record appended and with the photo limit as its count. *)
Theorem upload_at_the_limits_accepted (w : World) (env : Env) (req : Request)
    (st : R2) (id : string) (obj : R2Object) (fs : list (string * json))
    (l : list json) (form : FormData) (file : File) (photos megabytes : Z) :
  method req = "POST" → pathname req = "/api/session/" ++ id ++ "/upload" →
  valid_id id = true →
  st !! metaKey id = Some obj →
  JSON_parse (body obj) = Ok (JObj fs) →
  lookup_field "photos" fs = Some (JArr l) →
  parseInt (str_or (MAX_PHOTOS_PER_SESSION env) "50") = Some photos →
  safe_integer photos → safe_integer (photos - 1) →
  lookup_field "photoCount" fs = Some (JNum (photos - 1)) →
  request_formData req = Ok form →
  form_file form = Some (FFile file) →
  parseInt (str_or (MAX_FILE_SIZE_MB env) "25") = Some megabytes →
  safe_integer (megabytes * 1024 * 1024) →
  file_size file = megabytes * 1024 * 1024 →
  thumbnail_ok (form_thumb form) →
  status (fetch w env req st).1 = 200
  ∧ (fetch w env req st).2
      !! photoKey id (str_or (form_fname form) (file_name file))
    = Some (stored_photo form file)
  ∧ ∃ obj' fs',
      (fetch w env req st).2 !! metaKey id = Some obj'
      ∧ JSON_parse (body obj') = Ok (JObj fs')
      ∧ lookup_field "photos" fs' = Some (JArr (l ++ [photo_record form file]))
      ∧ lookup_field "photoCount" fs' = Some (JNum photos).
Proof.
  intros Hm Hp Hid Hobj Hmeta Hphotos Hlimit _ _ Hcount Hform Hfile Hmb _
    Hsize Hthumb.
  assert (Hquota : num_ge (ToNumber (lookup_field "photoCount" fs))
                     (parseInt (str_or (MAX_PHOTOS_PER_SESSION env) "50"))
                   = false).
  { rewrite Hcount, Hlimit. cbn. apply Z.leb_gt. lia. }
  assert (Hfits : num_gt (Some (file_size file))
                    ((λ mb, mb * 1024 * 1024)
                       <$> parseInt (str_or (MAX_FILE_SIZE_MB env) "25"))
                  = false).
  { rewrite Hmb, Hsize. cbn. apply Z.ltb_ge. lia. }
  rewrite (fetch_uploadPhoto w env req st id Hm Hp Hid).
  destruct (uploadPhoto_accepts env req id st obj fs l form file Hobj Hmeta
              Hphotos Hquota Hform Hfile Hfits Hthumb)
    as (r & st' & Hrun & Hstatus).
  rewrite Hrun. cbn [answer fst snd]. split; [exact Hstatus|].
  destruct (uploadPhoto_accepted env req id st st' r Hrun Hstatus)
    as (obj0 & fs0 & l0 & form0 & file0 & mid & Hobj0 & Hmeta0 & Hphotos0 & _
        & Hform0 & Hfile0 & Hmid & -> & _).
  assert (obj0 = obj) as -> by congruence.
  assert (fs0 = fs) as -> by congruence.
  assert (l0 = l) as -> by congruence.
  assert (form0 = form) as -> by congruence.
  assert (file0 = file) as -> by congruence.
  match goal with |- context [<[metaKey id := ?d]> mid] => set (doc := d) end.
  destruct (accepted_bucket id _ (stored_photo form file) doc st mid Hid Hmid)
    as (Hdoc & Hphoto & _).
  split; [exact Hphoto|].
  exists doc, (updated_fields fs l (photo_record form file)).
  split; [exact Hdoc|]. split; [subst doc; apply JSON_parse_stringify|].
  split; [apply lookup_assign_eq|].
  unfold updated_fields.
  rewrite lookup_assign_ne, lookup_assign_eq, Hcount by discriminate.
  cbn. do 2 f_equal. lia.
Qed.

(** X18.  An accepted upload changes two fields of the session document
    and no other: the identifier, the title, the creation and expiry
    timestamps and every other field of the stored document are written
    back as they were read. *)
Theorem upload_keeps_other_fields (w : World) (env : Env) (req : Request)
    (st st' : R2) (id : string) (r : Response) (obj : R2Object)
    (fs : list (string * json)) :
  method req = "POST" → pathname req = "/api/session/" ++ id ++ "/upload" →
  valid_id id = true →
  fetch w env req st = (r, st') → status r = 200 →
  st !! metaKey id = Some obj →
  JSON_parse (body obj) = Ok (JObj fs) →
  ∃ obj' fs',
    st' !! metaKey id = Some obj'
    ∧ JSON_parse (body obj') = Ok (JObj fs')
    ∧ ∀ k, k ≠ "photoCount" → k ≠ "photos" →
           lookup_field k fs' = lookup_field k fs.
Proof.
  intros Hm Hp Hid Hrun Hstatus Hobj Hmeta.
  rewrite (fetch_uploadPhoto w env req st id Hm Hp Hid) in Hrun.
  apply answer_200 in Hrun; [|assumption].
  destruct (uploadPhoto_accepted env req id st st' r Hrun Hstatus)
    as (obj0 & fs0 & l & form & file & mid & Hobj0 & Hmeta0 & _ & _
        & _ & _ & _ & -> & _).
  assert (obj0 = obj) as -> by congruence.
  assert (fs0 = fs) as -> by congruence.
  eexists _, _. split; [apply lookup_insert_eq|].
  split; [apply JSON_parse_stringify|].
  intros k Hcount Hphotos. unfold updated_fields.
  now rewrite !lookup_assign_ne by congruence.
Qed.

(** X19.  When the thumbnail of an upload is a text that is not base64,
    the photo is already stored: the call is answered by the catch-all with
    status 500, the photo stays in the bucket under its key, and the session
    document is not updated, so the photo is in no photo list. *)
Theorem bad_thumbnail_leaves_photo (w : World) (env : Env) (req : Request)
    (st : R2) (id : string) (obj : R2Object) (fs : list (string * json))
    (l : list json) (form : FormData) (file : File) (c : ascii)
    (text msg : string) :
  method req = "POST" → pathname req = "/api/session/" ++ id ++ "/upload" →
  valid_id id = true →
  st !! metaKey id = Some obj →
  JSON_parse (body obj) = Ok (JObj fs) →
  lookup_field "photos" fs = Some (JArr l) →
  num_ge (ToNumber (lookup_field "photoCount" fs))
    (parseInt (str_or (MAX_PHOTOS_PER_SESSION env) "50")) = false →
  request_formData req = Ok form →
  form_file form = Some (FFile file) →
  num_gt (Some (file_size file))
    ((λ mb, mb * 1024 * 1024) <$> parseInt (str_or (MAX_FILE_SIZE_MB env) "25"))
  = false →
  form_thumb form = Some (FText (String c text)) →
  atob (strip_data_url (String c text)) = Throw msg →
  let fname := str_or (form_fname form) (file_name file) in
  let st' := (fetch w env req st).2 in
  (fetch w env req st).1
  = errorResponse ("Internal server error: " ++ msg) 500
  ∧ st' !! photoKey id fname = Some (stored_photo form file)
  ∧ st' !! thumbKey id fname = st !! thumbKey id fname
  ∧ st' !! metaKey id = Some obj.
Proof.
  intros Hm Hp Hid Hobj Hmeta Hphotos Hquota Hform Hfile Hsize Hthumb Hatob
    fname st'. subst st'.
  rewrite (fetch_uploadPhoto w env req st id Hm Hp Hid).
  rewrite (uploadPhoto_stores env req id st obj fs l form file) by assumption.
  unfold thumbnail_bytes. rewrite Hthumb, Hatob. cbn [answer fst snd].
  unfold with_assets. fold fname. repeat split.
  - apply lookup_insert_eq.
  - apply lookup_insert_ne. intros E. symmetry in E.
    now apply thumbKey_not_photoKey in E.
  - rewrite lookup_insert_ne by now apply photoKey_not_meta. exact Hobj.
Qed.

(** The text after the prefix of a data URL. *)
Lemma strip_data_url_app (kind rest : string) :
  kind ≠ "" →
  Routes.all_chars (λ c, Routes.is_alnum c || Ascii.eqb c "_") kind = true →
  strip_data_url ("data:image/" ++ kind ++ ";base64," ++ rest) = rest.
Proof.
  intros Hne Hkind. unfold strip_data_url.
  rewrite strip_prefix_app.
  rewrite (span_append _ kind (";base64," ++ rest) Hkind) by reflexivity.
  destruct (String.eqb_spec kind "") as [->|_]; [easy|].
  now rewrite strip_prefix_app.
Qed.


(** X20.  The thumbnail text of an upload loses a leading
    [data:image/<kind>;base64,] where [<kind>] is one or more letters,
    digits and underscores, and is left whole when it does not start with
    [data:image/]: a bare base64 text is decoded as it is. *)
Theorem strip_data_url_prefix (kind rest s : string) :
  (kind ≠ "" →
   Routes.all_chars (λ c, Routes.is_alnum c || Ascii.eqb c "_") kind = true →
   strip_data_url ("data:image/" ++ kind ++ ";base64," ++ rest) = rest)
  ∧ (Routes.strip_prefix "data:image/" s = None → strip_data_url s = s).
Proof.
  split; [apply strip_data_url_app|].
  intros Hs. unfold strip_data_url. now rewrite Hs.
Qed.



(** X23.  The photo route serves the object under the photo key, with
    its stored content type or [image/jpeg] when it has none, and fails with
    status 404 and ["Photo not found"] when there is no such object; it
    does not look at the session document, which need not exist. *)
Theorem getPhoto_serves (w : World) (env : Env) (req : Request) (st : R2)
    (id raw fname : string) :
  method req = "GET" →
  pathname req = "/api/session/" ++ id ++ "/photo/" ++ raw →
  valid_id id = true → raw ≠ "" → Routes.all_chars Routes.is_dot raw = true →
  decodeURIComponent raw = Ok fname →
  fetch w env req st =
  match st !! photoKey id fname with
  | Some photo =>
      ({| status := 200;
          headers :=
            [("Content-Type", match contentType photo with
             | Some "" | None => "image/jpeg"
             | Some stored => stored
             end);
             ("Cache-Control", "public, max-age=86400");
             ("Access-Control-Allow-Origin", "*");
             ("Access-Control-Allow-Methods",
              "GET, POST, PUT, DELETE, OPTIONS");
             ("Access-Control-Allow-Headers", "Content-Type")];
          response_body := Some (body photo) |}, st)
  | None => (errorResponse "Photo not found" 404, st)
  end.
Proof.
  intros Hm Hp Hid Hne Hraw Hname.
  rewrite (fetch_getPhoto w env req st id raw Hm Hp Hid Hne Hraw).
  unfold getPhoto, bind, R2_get, lift, ret. rewrite Hname.
  now destruct (st !! photoKey id fname).
Qed.

(** X24.  A file name of the path that [decodeURIComponent] rejects makes
    both asset routes fail with status 500 and the message of the
    [URIError], also when the photo exists under the name as written. *)
Theorem asset_name_malformed (w : World) (env : Env) (req : Request) (st : R2)
    (id raw msg : string) :
  method req = "GET" →
  pathname req = "/api/session/" ++ id ++ "/photo/" ++ raw
  ∨ pathname req = "/api/session/" ++ id ++ "/thumb/" ++ raw →
  valid_id id = true → raw ≠ "" → Routes.all_chars Routes.is_dot raw = true →
  decodeURIComponent raw = Throw msg →
  fetch w env req st
  = (errorResponse ("Internal server error: " ++ msg) 500, st).
Proof.
  intros Hm [Hp|Hp] Hid Hne Hraw Hname.
  - rewrite (fetch_getPhoto w env req st id raw Hm Hp Hid Hne Hraw).
    unfold getPhoto, bind, R2_get, lift, ret. now rewrite Hname.
  - rewrite (fetch_getThumb w env req st id raw Hm Hp Hid Hne Hraw).
    unfold getThumb, bind, R2_get, lift, ret. now rewrite Hname.
Qed.

(** X25.  When the [file] entry of the form is a text and not a file, the
    upload passes the presence check and the size check, and fails at
    [file.stream()]: status 500, and nothing written. *)
Theorem upload_text_in_place_of_file (w : World) (env : Env) (req : Request)
    (st : R2) (id : string) (obj : R2Object) (meta : json)
    (count : option json) (form : FormData) (c : ascii) (text : string) :
  method req = "POST" → pathname req = "/api/session/" ++ id ++ "/upload" →
  valid_id id = true →
  st !! metaKey id = Some obj →
  JSON_parse (body obj) = Ok meta →
  get_prop meta "photoCount" = Ok count →
  num_ge (ToNumber count)
    (parseInt (str_or (MAX_PHOTOS_PER_SESSION env) "50")) = false →
  request_formData req = Ok form →
  form_file form = Some (FText (String c text)) →
  fetch w env req st
  = (errorResponse "Internal server error: file.stream is not a function" 500,
     st).
Proof.
  intros Hm Hp Hid Hobj Hmeta Hcount Hquota Hform Hfile.
  rewrite (fetch_uploadPhoto w env req st id Hm Hp Hid).
  unfold uploadPhoto, bind, R2_get, lift, ret.
  rewrite Hobj, Hmeta, Hcount, Hquota, Hform, Hfile.
  now destruct (form_fname form) as [[|? ?]|].
Qed.

(** Keys of two sessions differ, whatever follows the identifiers. *)
Lemma session_key_ne (a b x y : string) :
  valid_id a = true → valid_id b = true → a ≠ b →
  "sessions/" ++ a ++ "/" ++ x ≠ "sessions/" ++ b ++ "/" ++ y.
Proof.
  intros [_ Ha]%andb_true_iff [_ Hb]%andb_true_iff Hne [= E].
  now destruct (alnum_split _ _ _ _ Ha Hb E).
Qed.

(** X26.  An upload stays in its session: whatever the file name of the
    form, slashes and dots included, and whatever the outcome of the call,
    no object under the prefix of another session is written or
    replaced. *)
Theorem upload_stays_in_session (w : World) (env : Env) (req : Request)
    (st : R2) (id other rest : string) :
  method req = "POST" → pathname req = "/api/session/" ++ id ++ "/upload" →
  valid_id id = true → valid_id other = true → other ≠ id →
  (fetch w env req st).2 !! ("sessions/" ++ other ++ "/" ++ rest)
  = st !! ("sessions/" ++ other ++ "/" ++ rest).
Proof.
  intros Hm Hp Hid Hother Hne.
  rewrite (fetch_uploadPhoto w env req st id Hm Hp Hid).
  assert (Hmeta : metaKey id ≠ "sessions/" ++ other ++ "/" ++ rest).
  { apply (session_key_ne id other "meta.json" rest); auto. }
  assert (Hphoto : ∀ f, photoKey id f ≠ "sessions/" ++ other ++ "/" ++ rest).
  { intros f. apply (session_key_ne id other ("photos/" ++ f) rest); auto. }
  assert (Hthumb : ∀ f, thumbKey id f ≠ "sessions/" ++ other ++ "/" ++ rest).
  { intros f. apply (session_key_ne id other ("thumbs/" ++ f) rest); auto. }
  assert (Hassets : ∀ mid, assets_only id st mid →
            mid !! ("sessions/" ++ other ++ "/" ++ rest)
            = st !! ("sessions/" ++ other ++ "/" ++ rest)).
  { intros mid [-> | (f & photo & [-> | [thumb ->]])]; [reflexivity | |].
    - now rewrite lookup_insert_ne.
    - now rewrite !lookup_insert_ne. }
  destruct (uploadPhoto env req id st) as [o st'] eqn:Hup.
  replace (answer (o, st')).2 with st' by now destruct o.
  destruct (uploadPhoto_outcome env req id st st' o Hup)
    as [(r & -> & Hr) | [(r & -> & _ & ->) | (msg & -> & Hst')]];
    [|reflexivity|now apply Hassets].
  destruct (uploadPhoto_accepted env req id st st' r Hup Hr)
    as (obj & fs & l & form & file & mid & _ & _ & _ & _ & _ & _
        & Hmid & -> & _).
  rewrite lookup_insert_ne by assumption.
  apply Hassets. destruct Hmid as [-> | [bytes ->]]; right; eauto.
Qed.

(** X27.  A photo that an upload has accepted is listed: a GET of the
    session after the upload, at a time not after the expiry of the
    session, returns a document whose photo list is the list before the
    upload with the record of the new photo at its end, and whose expiry is
    the one before the upload. *)
Theorem uploaded_photo_is_listed (w w' : World) (env env' : Env)
    (req req' : Request) (st st' : R2) (id : string) (r : Response)
    (obj : R2Object) (fs : list (string * json)) (l : list json)
    (form : FormData) (file : File) (expiresAt : string) (t : Z) :
  method req = "POST" → pathname req = "/api/session/" ++ id ++ "/upload" →
  valid_id id = true →
  fetch w env req st = (r, st') → status r = 200 →
  st !! metaKey id = Some obj →
  JSON_parse (body obj) = Ok (JObj fs) →
  lookup_field "photos" fs = Some (JArr l) →
  lookup_field "expiresAt" fs = Some (JStr expiresAt) →
  Date_parse expiresAt = Some t →
  request_formData req = Ok form → form_file form = Some (FFile file) →
  method req' = "GET" → pathname req' = "/api/session/" ++ id →
  clock w' 0 ≤ t →
  ∃ fs',
    fetch w' env' req' st' = (jsonResponse (JObj fs') 200, st')
    ∧ lookup_field "photos" fs'
      = Some (JArr (l ++ [photo_record form file]))
    ∧ lookup_field "expiresAt" fs' = Some (JStr expiresAt).
Proof.
  intros Hm Hp Hid Hrun Hstatus Hobj Hmeta Hphotos Hexp Ht Hform Hfile
    Hm' Hp' Hle.
  rewrite (fetch_uploadPhoto w env req st id Hm Hp Hid) in Hrun.
  apply answer_200 in Hrun; [|assumption].
  destruct (uploadPhoto_accepted env req id st st' r Hrun Hstatus)
    as (obj0 & fs0 & l0 & form0 & file0 & mid & Hobj0 & Hmeta0 & Hphotos0 & _
        & Hform0 & Hfile0 & _ & -> & _).
  assert (obj0 = obj) as -> by congruence.
  assert (fs0 = fs) as -> by congruence.
  assert (l0 = l) as -> by congruence.
  assert (form0 = form) as -> by congruence.
  assert (file0 = file) as -> by congruence.
  exists (updated_fields fs l (photo_record form file)).
  assert (Hexp' : lookup_field "expiresAt"
                    (updated_fields fs l (photo_record form file))
                  = Some (JStr expiresAt)).
  { unfold updated_fields. now rewrite !lookup_assign_ne by congruence. }
  split; [|split; [apply lookup_assign_eq | exact Hexp']].
  rewrite (fetch_getSession w' env' req' _ id Hm' Hp' Hid).
  unfold getSession, bind, R2_get, lift, ret.
  rewrite lookup_insert_eq. cbn [body]. rewrite JSON_parse_stringify.
  cbn [get_prop]. rewrite Hexp'. cbn [new_Date]. rewrite Ht. unfold num_lt.
  now rewrite (proj2 (Z.ltb_ge _ _) Hle).
Qed.

(** ** The statuses of the worker *)

(** The statuses that a route returns itself. *)
Definition returned (m : M Response) : Prop :=
  ∀ st r st', m st = (Ok r, st') → In (status r) [200; 400; 404; 410; 429].

Lemma route_returned (w : World) (env : Env) (req : Request) :
  returned (route w env req).
Proof.
  assert (Hasset : ∀ s, s = 404 ∨ s = 200 → In s [200; 400; 404; 410; 429]).
  { intros s [-> | ->]; cbn; auto 10. }
  unfold returned, route. intros st r st' Hrun.
  destruct (String.eqb (pathname req) "/api/session"
            && String.eqb (method req) "POST").
  { destruct (createSession_outcome w env req st st' _ Hrun)
      as [(msg & [=] & _) | (data & now & e & [= ->] & _)]. cbn; auto 10. }
  assert (Hother : ret (errorResponse "Not found" 404) st = (Ok r, st') →
            In (status r) [200; 400; 404; 410; 429]).
  { intros [= <- _]. cbn; auto 10. }
  assert (Hthumb :
            match Routes.thumbMatch (pathname req),
                  String.eqb (method req) "GET" with
            | Some (sessionId, fname), true => getThumb sessionId fname
            | _, _ => ret (errorResponse "Not found" 404)
            end st = (Ok r, st') →
            In (status r) [200; 400; 404; 410; 429]).
  { destruct (Routes.thumbMatch _) as [[tid tname]|],
      (String.eqb (method req) "GET"); try exact Hother.
    intros E. apply Hasset, (proj2 (getThumb_outcome tid tname st)).
    now rewrite E. }
  assert (Hphoto :
            match Routes.photoMatch (pathname req),
                  String.eqb (method req) "GET" with
            | Some (sessionId, fname), true => getPhoto sessionId fname
            | _, _ =>
                match Routes.thumbMatch (pathname req),
                      String.eqb (method req) "GET" with
                | Some (sessionId, fname), true => getThumb sessionId fname
                | _, _ => ret (errorResponse "Not found" 404)
                end
            end st = (Ok r, st') →
            In (status r) [200; 400; 404; 410; 429]).
  { destruct (Routes.photoMatch _) as [[pid pname]|],
      (String.eqb (method req) "GET"); try exact Hthumb.
    intros E. apply Hasset, (proj2 (getPhoto_outcome pid pname st)).
    now rewrite E. }
  assert (Hupload :
            match Routes.uploadMatch (pathname req),
                  String.eqb (method req) "POST" with
            | Some sessionId, true => uploadPhoto env req sessionId
            | _, _ =>
                match Routes.photoMatch (pathname req),
                      String.eqb (method req) "GET" with
                | Some (sessionId, fname), true => getPhoto sessionId fname
                | _, _ =>
                    match Routes.thumbMatch (pathname req),
                          String.eqb (method req) "GET" with
                    | Some (sessionId, fname), true => getThumb sessionId fname
                    | _, _ => ret (errorResponse "Not found" 404)
                    end
                end
            end st = (Ok r, st') →
            In (status r) [200; 400; 404; 410; 429]).
  { destruct (Routes.uploadMatch _) as [uid|],
      (String.eqb (method req) "POST"); try exact Hphoto.
    intros E.
    destruct (uploadPhoto_outcome env req uid st st' _ E)
      as [(r0 & [= <-] & ->) | [(r0 & [= <-] & [-> | [-> | ->]] & _)
                                | (msg & [=] & _)]];
      cbn; auto 10. }
  destruct (Routes.sessionMatch _) as [sid|],
    (String.eqb (method req) "GET"); try exact (Hupload Hrun).
  unfold getSession, bind, R2_get, lift, ret in Hrun.
  destruct (st !! metaKey sid) as [obj|];
    [|injection Hrun as <- _; cbn; auto 10].
  destruct (JSON_parse (body obj)) as [meta|]; [|discriminate].
  destruct (get_prop meta "expiresAt") as [e|]; [|discriminate].
  destruct (num_lt _ _); injection Hrun as <- _; cbn; auto 10.
Qed.

(** X28.  The worker answers with one of six statuses, 200, 400, 404, 410,
    429 and 500, and no other; and status 500 comes from the catch-all
    only: its body is the message of the exception after
    ["Internal server error: "]. *)
Theorem fetch_statuses (w : World) (env : Env) (req : Request) (st : R2) :
  In (status (fetch w env req st).1) [200; 400; 404; 410; 429; 500]
  ∧ (status (fetch w env req st).1 = 500 →
     internal_error (fetch w env req st).1).
Proof.
  unfold fetch. destruct (String.eqb (method req) "OPTIONS").
  { split; [cbn; auto | discriminate]. }
  destruct (route w env req st) as [[r|msg] st'] eqn:Hrun; cbn [fst].
  - pose proof (route_returned w env req st r st' Hrun) as Hr. split.
    + cbn in Hr |- *. tauto.
    + intros E. rewrite E in Hr. cbn in Hr.
      now destruct Hr as [|[|[|[|[|[]]]]]].
  - split; [cbn; auto 10|]. intros _. now exists msg.
Qed.


End Further.

(** ** The further properties at concrete requests *)

Section Instances.
Existing Instance Ref.runtime.
Import Sample.

(** A request with another method, a configuration with texts in place
    of its numbers, and a form with a thumbnail. *)
Definition delete_request (path : string) : Request :=
  {| method := "DELETE"; pathname := path;
     request_json := Throw "Unexpected end of JSON input";
     request_formData := Throw "Unrecognized Content-Type header value" |}.

Definition unreadable : Env :=
  {| SESSION_TTL_DAYS := Some "week";
     MAX_PHOTOS_PER_SESSION := Some "many";
     MAX_FILE_SIZE_MB := None |}.

Definition form_with_thumb (file : File) (thumb : string) : FormData :=
  {| form_file := Some (FFile file); form_fname := None;
     form_groupId := None; form_thumb := Some (FText thumb) |}.

(** The fields of the document of session [abc]. *)
Definition fields (expiresAt : string) (count : Z) (photos : list json)
  : list (string * json) :=
  match document expiresAt count photos with
  | JObj fs => fs
  | _ => []
  end.

(** The clock at the very millisecond of [current]. *)
Definition at_expiry : World :=
  {| clock := λ _, 1700524800000; random_byte := λ _, Byte.x00 |}.

(** The clock seven days after the clock of [world], to the millisecond. *)
Definition a_week_later : World :=
  {| clock := λ _, 1700604800000; random_byte := λ _, Byte.x00 |}.

Lemma only_post_writes_witness :
  (fetch world defaults (get "/api/session/abc") (bucket expired 0 [])).2
  = bucket expired 0 [].
Proof.
  apply (only_post_writes world defaults (get "/api/session/abc")
           (bucket expired 0 []));
    discriminate.
Defined.

Lemma other_methods_not_found_witness :
  fetch world defaults (delete_request "/api/session/abc") (bucket current 0 [])
  = (errorResponse "Not found" 404, bucket current 0 [])
  ∧ In ("Access-Control-Allow-Methods", "GET, POST, PUT, DELETE, OPTIONS")
      (headers (fetch world defaults (delete_request "/api/session/abc")
                  (bucket current 0 [])).1).
Proof.
  apply (other_methods_not_found world defaults (delete_request "/api/session/abc")
           (bucket current 0 []));
    discriminate.
Defined.

Lemma createSession_expiry_witness :
  let id := generateId 8 world in
  let expiresAt := Date_toISOString (clock world 1 + 7 * 86400000) in
  fetch world defaults
    (post_json "/api/session" (JObj [("title", JStr "Wedding")])) ∅
  = (jsonResponse
       (JObj [("sessionId", JStr id); ("expiresAt", JStr expiresAt)]) 200,
     <[metaKey id :=
         {| body := JSON_stringify
                      (JObj (new_fields id (Date_toISOString (clock world 0))
                               expiresAt (JObj [("title", JStr "Wedding")])));
            contentType := Some "application/json";
            customMetadata := [] |}]> ∅)
  ∧ (SESSION_TTL_DAYS defaults = None → 7 = 7).
Proof.
  apply (createSession_expiry world defaults
           (post_json "/api/session" (JObj [("title", JStr "Wedding")])) ∅
           (JObj [("title", JStr "Wedding")]) 7);
    first [vm_compute; reflexivity | discriminate | vm_compute; discriminate].
Defined.

Lemma createSession_unreadable_ttl_witness :
  fetch world unreadable (post_json "/api/session" (JObj [])) ∅
  = (errorResponse "Internal server error: Invalid time value" 500, ∅).
Proof.
  apply (createSession_unreadable_ttl world unreadable
           (post_json "/api/session" (JObj [])) ∅ (JObj []));
    first [vm_compute; reflexivity | vm_compute; discriminate].
Defined.

Lemma create_replaces_same_identifier_witness :
  ∃ obj fs,
    (fetch world defaults (post_json "/api/session" (JObj []))
       {[ metaKey "AAAAAAAA" := text_object "earlier" ]}).2
      !! metaKey (generateId 8 world) = Some obj
    ∧ JSON_parse (body obj) = Ok (JObj fs)
    ∧ lookup_field "photoCount" fs = Some (JNum 0)
    ∧ lookup_field "photos" fs = Some (JArr [])
    ∧ ∀ key, key ≠ metaKey (generateId 8 world) →
        (fetch world defaults (post_json "/api/session" (JObj []))
           {[ metaKey "AAAAAAAA" := text_object "earlier" ]}).2 !! key
        = ({[ metaKey "AAAAAAAA" := text_object "earlier" ]} : R2) !! key.
Proof.
  apply (create_replaces_same_identifier world defaults
           (post_json "/api/session" (JObj []))
           {[ metaKey "AAAAAAAA" := text_object "earlier" ]} _
           (fetch world defaults (post_json "/api/session" (JObj []))
              {[ metaKey "AAAAAAAA" := text_object "earlier" ]}).1);
    first [apply surjective_pairing | vm_compute; reflexivity].
Defined.

Lemma getSession_not_found_witness :
  fetch world defaults (get "/api/session/abc") ∅
  = (errorResponse "Session not found" 404, ∅).
Proof.
  apply (getSession_not_found world defaults (get "/api/session/abc") ∅ "abc");
    vm_compute; reflexivity.
Defined.

Lemma getSession_until_expiry_witness :
  fetch at_expiry defaults (get "/api/session/abc") (bucket current 0 [])
  = (jsonResponse (document current 0 []) 200, bucket current 0 []).
Proof.
  apply (getSession_until_expiry at_expiry defaults (get "/api/session/abc")
           (bucket current 0 []) "abc"
           (text_object (Ref.stringify (document current 0 [])))
           (document current 0 []) current 1700524800000);
    first [vm_compute; reflexivity | vm_compute; discriminate].
Defined.

Lemma getSession_undated_never_expires_witness :
  fetch world defaults (get "/api/session/abc")
    {[ metaKey "abc" := text_object "{}" ]}
  = (jsonResponse (JObj []) 200, {[ metaKey "abc" := text_object "{}" ]}).
Proof.
  apply (getSession_undated_never_expires world defaults
           (get "/api/session/abc") {[ metaKey "abc" := text_object "{}" ]}
           "abc" (text_object "{}") (JObj []) None);
    first [now left | vm_compute; reflexivity].
Defined.

Lemma created_session_is_readable_witness :
  status (fetch world defaults (post_json "/api/session" (JObj [])) ∅).1 = 200
  ∧ ∃ fs,
      fetch a_week_later defaults (get "/api/session/AAAAAAAA")
        (fetch world defaults (post_json "/api/session" (JObj [])) ∅).2
      = (jsonResponse (JObj fs) 200,
         (fetch world defaults (post_json "/api/session" (JObj [])) ∅).2)
      ∧ lookup_field "id" fs = Some (JStr (generateId 8 world))
      ∧ lookup_field "expiresAt" fs
        = Some (JStr (Date_toISOString (clock world 1 + 7 * 86400000)))
      ∧ lookup_field "photoCount" fs = Some (JNum 0)
      ∧ lookup_field "photos" fs = Some (JArr []).
Proof.
  apply (created_session_is_readable world a_week_later defaults defaults
           (post_json "/api/session" (JObj []))
           (get "/api/session/AAAAAAAA") ∅ (JObj []) 7);
    first [vm_compute; reflexivity | discriminate | vm_compute; discriminate].
Defined.

Lemma upload_unknown_session_witness :
  fetch world defaults (upload (Some (FFile (jpeg "a.jpg" 4))) None) ∅
  = (errorResponse "Session not found" 404, ∅).
Proof.
  apply (upload_unknown_session world defaults
           (upload (Some (FFile (jpeg "a.jpg" 4))) None) ∅ "abc");
    vm_compute; reflexivity.
Defined.

Lemma rejected_upload_writes_nothing_witness :
  (fetch world (limits "2" "1") (upload (Some (FFile (jpeg "c.jpg" 4))) None)
     (bucket current 2 two_photos)).2 = bucket current 2 two_photos
  ∧ (status
       (fetch world (limits "2" "1")
          (upload (Some (FFile (jpeg "c.jpg" 4))) None)
          (bucket current 2 two_photos)).1 = 404
     ∨ status
         (fetch world (limits "2" "1")
            (upload (Some (FFile (jpeg "c.jpg" 4))) None)
            (bucket current 2 two_photos)).1 = 429
     ∨ status
         (fetch world (limits "2" "1")
            (upload (Some (FFile (jpeg "c.jpg" 4))) None)
            (bucket current 2 two_photos)).1 = 400).
Proof.
  apply (rejected_upload_writes_nothing world (limits "2" "1")
           (upload (Some (FFile (jpeg "c.jpg" 4))) None)
           (bucket current 2 two_photos) _ "abc");
    first [apply surjective_pairing | vm_compute; reflexivity
          | vm_compute; discriminate].
Defined.

Lemma unreadable_quota_never_rejects_witness :
  status
    (fetch world unreadable (upload (Some (FFile (jpeg "c.jpg" 4))) None)
       (bucket current 2 two_photos)).1 ≠ 429.
Proof.
  apply (unreadable_quota_never_rejects world unreadable
           (upload (Some (FFile (jpeg "c.jpg" 4))) None)
           (bucket current 2 two_photos) "abc");
    vm_compute; reflexivity.
Defined.

Lemma quota_never_exceeded_witness :
  within_quota 1
    (run [(world, limits "1" "1", post_json "/api/session" (JObj []));
          (world, limits "1" "1",
           post_form "/api/session/AAAAAAAA/upload"
             (form (Some (FFile (jpeg "a.jpg" 4))) None));
          (world, limits "1" "1",
           post_form "/api/session/AAAAAAAA/upload"
             (form (Some (FFile (jpeg "b.jpg" 4))) None))] ∅).
Proof.
  apply (quota_never_exceeded 1
           [(world, limits "1" "1", post_json "/api/session" (JObj []));
            (world, limits "1" "1",
             post_form "/api/session/AAAAAAAA/upload"
               (form (Some (FFile (jpeg "a.jpg" 4))) None));
            (world, limits "1" "1",
             post_form "/api/session/AAAAAAAA/upload"
               (form (Some (FFile (jpeg "b.jpg" 4))) None))]);
    first [ lia
          | unfold safe_integer; simpl; lia
          | repeat constructor ].
Defined.

Lemma upload_at_the_limits_accepted_witness :
  status
    (fetch world (limits "2" "1")
       (upload (Some (FFile (jpeg "b.jpg" 1048576))) None)
       (bucket current 1 [record "a.jpg"])).1 = 200
  ∧ (fetch world (limits "2" "1")
       (upload (Some (FFile (jpeg "b.jpg" 1048576))) None)
       (bucket current 1 [record "a.jpg"])).2 !! photoKey "abc" "b.jpg"
    = Some (stored_photo (form (Some (FFile (jpeg "b.jpg" 1048576))) None)
              (jpeg "b.jpg" 1048576))
  ∧ ∃ obj' fs',
      (fetch world (limits "2" "1")
         (upload (Some (FFile (jpeg "b.jpg" 1048576))) None)
         (bucket current 1 [record "a.jpg"])).2 !! metaKey "abc" = Some obj'
      ∧ JSON_parse (body obj') = Ok (JObj fs')
      ∧ lookup_field "photos" fs'
        = Some (JArr ([record "a.jpg"]
                      ++ [photo_record
                            (form (Some (FFile (jpeg "b.jpg" 1048576))) None)
                            (jpeg "b.jpg" 1048576)]))
      ∧ lookup_field "photoCount" fs' = Some (JNum 2).
Proof.
  apply (upload_at_the_limits_accepted world (limits "2" "1")
           (upload (Some (FFile (jpeg "b.jpg" 1048576))) None)
           (bucket current 1 [record "a.jpg"]) "abc"
           (text_object (Ref.stringify (document current 1 [record "a.jpg"])))
           (fields current 1 [record "a.jpg"]) [record "a.jpg"]
           (form (Some (FFile (jpeg "b.jpg" 1048576))) None)
           (jpeg "b.jpg" 1048576) 2 1);
    first [ vm_compute; reflexivity | exact I
          | unfold safe_integer; simpl; lia ].
Defined.

Lemma upload_keeps_other_fields_witness :
  ∃ obj' fs',
    (fetch world defaults (upload (Some (FFile (jpeg "b.jpg" 4))) None)
       (bucket current 1 [record "a.jpg"])).2 !! metaKey "abc" = Some obj'
    ∧ JSON_parse (body obj') = Ok (JObj fs')
    ∧ ∀ k, k ≠ "photoCount" → k ≠ "photos" →
           lookup_field k fs'
           = lookup_field k (fields current 1 [record "a.jpg"]).
Proof.
  apply (upload_keeps_other_fields world defaults
           (upload (Some (FFile (jpeg "b.jpg" 4))) None)
           (bucket current 1 [record "a.jpg"]) _ "abc"
           (fetch world defaults (upload (Some (FFile (jpeg "b.jpg" 4))) None)
              (bucket current 1 [record "a.jpg"])).1
           (text_object (Ref.stringify (document current 1 [record "a.jpg"]))));
    first [apply surjective_pairing | vm_compute; reflexivity].
Defined.

Lemma bad_thumbnail_leaves_photo_witness :
  (fetch world defaults
     (post_form "/api/session/abc/upload"
        (form_with_thumb (jpeg "a.jpg" 4) "%%%"))
     (bucket current 0 [])).1
  = errorResponse "Internal server error: Invalid character" 500
  ∧ (fetch world defaults
       (post_form "/api/session/abc/upload"
          (form_with_thumb (jpeg "a.jpg" 4) "%%%"))
       (bucket current 0 [])).2 !! photoKey "abc" "a.jpg"
    = Some (stored_photo (form_with_thumb (jpeg "a.jpg" 4) "%%%")
              (jpeg "a.jpg" 4))
  ∧ (fetch world defaults
       (post_form "/api/session/abc/upload"
          (form_with_thumb (jpeg "a.jpg" 4) "%%%"))
       (bucket current 0 [])).2 !! thumbKey "abc" "a.jpg"
    = bucket current 0 [] !! thumbKey "abc" "a.jpg"
  ∧ (fetch world defaults
       (post_form "/api/session/abc/upload"
          (form_with_thumb (jpeg "a.jpg" 4) "%%%"))
       (bucket current 0 [])).2 !! metaKey "abc"
    = Some (text_object (Ref.stringify (document current 0 []))).
Proof.
  apply (bad_thumbnail_leaves_photo world defaults
           (post_form "/api/session/abc/upload"
              (form_with_thumb (jpeg "a.jpg" 4) "%%%"))
           (bucket current 0 []) "abc"
           (text_object (Ref.stringify (document current 0 [])))
           (fields current 0 []) []
           (form_with_thumb (jpeg "a.jpg" 4) "%%%") (jpeg "a.jpg" 4)
           "%" "%%" "Invalid character");
    vm_compute; reflexivity.
Defined.

Lemma strip_data_url_prefix_witness :
  strip_data_url "data:image/png;base64,QUJD" = "QUJD"
  ∧ strip_data_url "QUJD" = "QUJD".
Proof.
  split.
  - apply (proj1 (strip_data_url_prefix "png" "QUJD" "QUJD"));
      first [discriminate | vm_compute; reflexivity].
  - apply (proj2 (strip_data_url_prefix "png" "QUJD" "QUJD"));
      vm_compute; reflexivity.
Defined.



Lemma getPhoto_serves_witness :
  fetch world defaults (get "/api/session/abc/photo/a.jpg") with_photo
  = ({| status := 200;
        headers :=
          [("Content-Type", "image/png");
           ("Cache-Control", "public, max-age=86400");
           ("Access-Control-Allow-Origin", "*");
           ("Access-Control-Allow-Methods",
            "GET, POST, PUT, DELETE, OPTIONS");
           ("Access-Control-Allow-Headers", "Content-Type")];
        response_body := Some "JFIF" |}, with_photo)
  ∧ fetch world defaults (get "/api/session/abc/photo/b.jpg") with_photo
    = (errorResponse "Photo not found" 404, with_photo).
Proof.
  split.
  - apply (getPhoto_serves world defaults
             (get "/api/session/abc/photo/a.jpg") with_photo "abc" "a.jpg"
             "a.jpg");
      first [vm_compute; reflexivity | discriminate].
  - apply (getPhoto_serves world defaults
             (get "/api/session/abc/photo/b.jpg") with_photo "abc" "b.jpg"
             "b.jpg");
      first [vm_compute; reflexivity | discriminate].
Defined.

Lemma asset_name_malformed_witness :
  fetch world defaults (get "/api/session/abc/photo/%zz") with_photo
  = (errorResponse "Internal server error: URI malformed" 500, with_photo).
Proof.
  apply (asset_name_malformed world defaults
           (get "/api/session/abc/photo/%zz") with_photo "abc" "%zz"
           "URI malformed");
    first [vm_compute; reflexivity | discriminate | now left].
Defined.

Lemma upload_text_in_place_of_file_witness :
  fetch world defaults (upload (Some (FText "JFIF")) None)
    (bucket current 0 [])
  = (errorResponse "Internal server error: file.stream is not a function" 500,
     bucket current 0 []).
Proof.
  apply (upload_text_in_place_of_file world defaults
           (upload (Some (FText "JFIF")) None) (bucket current 0 []) "abc"
           (text_object (Ref.stringify (document current 0 [])))
           (document current 0 []) (Some (JNum 0))
           (form (Some (FText "JFIF")) None) "J" "FIF");
    vm_compute; reflexivity.
Defined.

Lemma upload_stays_in_session_witness :
  (fetch world defaults
     (upload (Some (FFile (jpeg "a.jpg" 4))) (Some "../../xyz/meta.json"))
     (bucket current 0 [])).2 !! ("sessions/" ++ "xyz" ++ "/" ++ "meta.json")
  = bucket current 0 [] !! ("sessions/" ++ "xyz" ++ "/" ++ "meta.json").
Proof.
  apply (upload_stays_in_session world defaults
           (upload (Some (FFile (jpeg "a.jpg" 4))) (Some "../../xyz/meta.json"))
           (bucket current 0 []) "abc" "xyz" "meta.json");
    first [vm_compute; reflexivity | discriminate].
Defined.

Lemma uploaded_photo_is_listed_witness :
  ∃ fs',
    fetch at_expiry defaults (get "/api/session/abc")
      (fetch world defaults (upload (Some (FFile (jpeg "b.jpg" 4))) None)
         (bucket current 1 [record "a.jpg"])).2
    = (jsonResponse (JObj fs') 200,
       (fetch world defaults (upload (Some (FFile (jpeg "b.jpg" 4))) None)
          (bucket current 1 [record "a.jpg"])).2)
    ∧ lookup_field "photos" fs'
      = Some (JArr ([record "a.jpg"]
                    ++ [photo_record (form (Some (FFile (jpeg "b.jpg" 4))) None)
                          (jpeg "b.jpg" 4)]))
    ∧ lookup_field "expiresAt" fs' = Some (JStr current).
Proof.
  apply (uploaded_photo_is_listed world at_expiry defaults defaults
           (upload (Some (FFile (jpeg "b.jpg" 4))) None)
           (get "/api/session/abc")
           (bucket current 1 [record "a.jpg"]) _ "abc"
           (fetch world defaults (upload (Some (FFile (jpeg "b.jpg" 4))) None)
              (bucket current 1 [record "a.jpg"])).1
           (text_object (Ref.stringify (document current 1 [record "a.jpg"])))
           (fields current 1 [record "a.jpg"]) [record "a.jpg"]
           (form (Some (FFile (jpeg "b.jpg" 4))) None) (jpeg "b.jpg" 4)
           current 1700524800000);
    first [apply surjective_pairing | vm_compute; reflexivity
          | vm_compute; discriminate].
Defined.

Lemma fetch_statuses_witness :
  In (status (fetch world defaults (get "/api/session/abc")
                {[ metaKey "abc" := text_object "{" ]}).1)
    [200; 400; 404; 410; 429; 500]
  ∧ internal_error
      (fetch world defaults (get "/api/session/abc")
         {[ metaKey "abc" := text_object "{" ]}).1.
Proof.
  split.
  - apply (proj1 (fetch_statuses world defaults (get "/api/session/abc")
                    {[ metaKey "abc" := text_object "{" ]})).
  - apply (proj2 (fetch_statuses world defaults (get "/api/session/abc")
                    {[ metaKey "abc" := text_object "{" ]}));
      vm_compute; reflexivity.
Defined.


End Instances.
